(** * gs-sheets-form-utils: a shallow embedding of [src/FormUtils.js]

    The library is a set of Google Apps Script functions that move or copy
    rows of form submissions between sheets, fingerprint rows with a digest
    and look for duplicates.  Every function is a sequence of calls into the
    host (the spreadsheet service, the lock service, the [Utilities]
    object).  The development below has three layers:

    - [Js]: the JavaScript values the code manipulates (cell values, arrays,
      [join], [slice], strict equality with the empty string);
    - [Utilities], [Host], [HostApi]: a model of the host objects the code
      talks to; the calls are the ones the source makes, their meaning
      follows the Apps Script reference;
    - [FormUtils]: the functions of [src/FormUtils.js] (its current
      revision), written in an exception-and-state monad over the host's
      world;
    - the properties: placement ([getFirstEmptyRow]), the digest, the
      duplicate check, the lock, moves and sweeps. *)

From Stdlib Require Import ZArith List String Ascii Bool Lia DecimalString.
Import ListNotations.
Open Scope string_scope.
Open Scope Z_scope.

(* ===================================================================== *)
(** ** JavaScript values *)
(* ===================================================================== *)

Module Js.

(** What [Range.getValues] puts in a cell of its result: a string (the empty
    string for an empty cell), a number or a boolean (a ticked or unticked
    checkbox).  Numbers are limited to integers here; fractions and dates
    are left out. *)
Inductive Value : Type :=
| VStr (s : string)
| VNum (n : Z)
| VBool (b : bool).

(** [v === ""]. *)
Definition is_empty_string (v : Value) : bool :=
  match v with
  | VStr s => String.eqb s ""
  | _ => false
  end.

Definition value_eqb (a b : Value) : bool :=
  match a, b with
  | VStr x, VStr y => String.eqb x y
  | VNum x, VNum y => Z.eqb x y
  | VBool x, VBool y => Bool.eqb x y
  | _, _ => false
  end.

(** [String(v)], the conversion [Array.prototype.join] applies to each
    element.  A number is printed as its decimal notation, which is what
    JavaScript prints for the integers a number holds exactly, those up to
    2^53 - 1 in magnitude ([is_safe_integer] below); beyond them JavaScript
    rounds, and from 10^21 on it prints an exponent, which this function
    does not follow. *)
Definition toString (v : Value) : string :=
  match v with
  | VStr s => s
  | VNum n => NilZero.string_of_int (Z.to_int n)
  | VBool true => "true"
  | VBool false => "false"
  end.

(** [Number.isSafeInteger(n)]. *)
Definition is_safe_integer (n : Z) : bool := Z.abs n <=? 9007199254740991.

(** [arr.join()]: the elements' strings separated by a comma. *)
Definition join (arr : list Value) : string :=
  String.concat "," (map toString arr).

(** [arr.slice(start)]: a negative [start] counts from the end. *)
Definition slice {A : Type} (arr : list A) (start : Z) : list A :=
  let len := Z.of_nat (List.length arr) in
  let from := if start <? 0 then Z.max (len + start) 0 else start in
  skipn (Z.to_nat from) arr.

(** [arr[i]], [None] standing for [undefined]. *)
Definition index {A : Type} (arr : list A) (i : Z) : option A :=
  if i <? 0 then None else nth_error arr (Z.to_nat i).

(** [arr.flat()] on an array of arrays. *)
Definition flat {A : Type} (arr : list (list A)) : list A := List.concat arr.

(** [arr.includes(x)]. *)
Definition includes (arr : list Value) (x : Value) : bool :=
  existsb (value_eqb x) arr.

(** [arr.some(f)]. *)
Definition some {A : Type} (f : A -> bool) (arr : list A) : bool := existsb f arr.

End Js.

(* ===================================================================== *)
(** ** The host's [Utilities] object *)
(* ===================================================================== *)

Module Utilities.

(** Bytes are integers in 0..255. *)
Definition bytes_of_string (s : string) : list Z :=
  map (fun a => Z.of_N (N_of_ascii a)) (list_ascii_of_string s).

Definition string_of_bytes (l : list Z) : string :=
  string_of_list_ascii (map (fun b => ascii_of_N (Z.to_N b)) l).

(** *** SHA-1 (FIPS 180-4) on 32-bit words kept in [Z] *)

Definition w32 (x : Z) : Z := Z.land x 4294967295.
Definition add32 (a b : Z) : Z := w32 (a + b).
Definition rotl (n x : Z) : Z := w32 (Z.lor (Z.shiftl x n) (Z.shiftr x (32 - n))).
Definition not32 (x : Z) : Z := Z.lxor x 4294967295.

Fixpoint be_bytes (n : nat) (x : Z) : list Z :=
  match n with
  | O => []
  | S n' => Z.land (Z.shiftr x (8 * Z.of_nat n')) 255 :: be_bytes n' x
  end.

Definition sha1_pad (msg : list Z) : list Z :=
  let len := Z.of_nat (List.length msg) in
  msg ++ [128] ++ repeat 0 (Z.to_nat ((55 - len) mod 64)) ++ be_bytes 8 (8 * len).

Fixpoint words_of_bytes (n : nat) (l : list Z) : list Z :=
  match n with
  | O => []
  | S n' =>
      match l with
      | a :: b :: c :: d :: rest =>
          (Z.shiftl a 24 + Z.shiftl b 16 + Z.shiftl c 8 + d) :: words_of_bytes n' rest
      | _ => []
      end
  end.

Definition nthw (ws : list Z) (i : nat) : Z := nth i ws 0.

(** The message schedule: 16 words of the block extended to 80. *)
Fixpoint schedule (n : nat) (ws : list Z) : list Z :=
  match n with
  | O => ws
  | S n' =>
      let i := List.length ws in
      let w := rotl 1 (Z.lxor (Z.lxor (nthw ws (i - 3)) (nthw ws (i - 8)))
                               (Z.lxor (nthw ws (i - 14)) (nthw ws (i - 16)))) in
      schedule n' (ws ++ [w])
  end.

Definition sha1_f (i : nat) (b c d : Z) : Z :=
  if (i <? 20)%nat then Z.lor (Z.land b c) (Z.land (not32 b) d)
  else if (i <? 40)%nat then Z.lxor (Z.lxor b c) d
  else if (i <? 60)%nat then Z.lor (Z.lor (Z.land b c) (Z.land b d)) (Z.land c d)
  else Z.lxor (Z.lxor b c) d.

Definition sha1_k (i : nat) : Z :=
  if (i <? 20)%nat then 1518500249
  else if (i <? 40)%nat then 1859775393
  else if (i <? 60)%nat then 2400959708
  else 3395469782.

Record Sha1State : Type := mkSha1 { ha : Z; hb : Z; hc : Z; hd : Z; he : Z }.

Fixpoint rounds (i : nat) (ws : list Z) (s : Sha1State) : Sha1State :=
  match ws with
  | [] => s
  | w :: ws' =>
      let t := add32 (add32 (add32 (add32 (rotl 5 (ha s)) (sha1_f i (hb s) (hc s) (hd s)))
                                   (he s)) (sha1_k i)) w in
      rounds (S i) ws' (mkSha1 t (ha s) (rotl 30 (hb s)) (hc s) (hd s))
  end.

Definition compress (h : Sha1State) (block : list Z) : Sha1State :=
  let s := rounds 0 (schedule 64 block) h in
  mkSha1 (add32 (ha h) (ha s)) (add32 (hb h) (hb s)) (add32 (hc h) (hc s))
         (add32 (hd h) (hd s)) (add32 (he h) (he s)).

Fixpoint blocks (n : nat) (ws : list Z) (h : Sha1State) : Sha1State :=
  match n with
  | O => h
  | S n' => blocks n' (skipn 16 ws) (compress h (firstn 16 ws))
  end.

Definition sha1 (msg : list Z) : list Z :=
  let padded := sha1_pad msg in
  let ws := words_of_bytes (List.length padded / 4) padded in
  let h := blocks (List.length ws / 16) ws
                  (mkSha1 1732584193 4023233417 2562383102 271733878 3285377520) in
  be_bytes 4 (ha h) ++ be_bytes 4 (hb h) ++ be_bytes 4 (hc h)
    ++ be_bytes 4 (hd h) ++ be_bytes 4 (he h).

(** [Utilities.DigestAlgorithm]: the algorithm is an argument of
    [getDigest]; it is a function from the bytes of the message to the bytes
    of the digest.  [SHA_1] is the default of the source. *)
Definition DigestAlgorithm : Type := list Z -> list Z.

Definition SHA_1 : DigestAlgorithm := sha1.

(** [Utilities.computeDigest(algorithm, value)]. *)
Definition computeDigest (algorithm : DigestAlgorithm) (value : string) : list Z :=
  algorithm (bytes_of_string value).

(** *** [Utilities.base64Encode] *)

Definition b64_alphabet : list ascii :=
  list_ascii_of_string
    "ABCDEFGHIJKLMNOPQRSTUVWXYZabcdefghijklmnopqrstuvwxyz0123456789+/".

Definition b64_char (i : Z) : ascii := nth (Z.to_nat i) b64_alphabet "="%char.

Fixpoint b64_groups (n : nat) (l : list Z) : list ascii :=
  match n with
  | O => []
  | S n' =>
      match l with
      | [] => []
      | [a] =>
          [b64_char (Z.shiftr a 2); b64_char (Z.shiftl (Z.land a 3) 4);
           "="%char; "="%char]
      | [a; b] =>
          [b64_char (Z.shiftr a 2);
           b64_char (Z.lor (Z.shiftl (Z.land a 3) 4) (Z.shiftr b 4));
           b64_char (Z.shiftl (Z.land b 15) 2); "="%char]
      | a :: b :: c :: rest =>
          b64_char (Z.shiftr a 2)
          :: b64_char (Z.lor (Z.shiftl (Z.land a 3) 4) (Z.shiftr b 4))
          :: b64_char (Z.lor (Z.shiftl (Z.land b 15) 2) (Z.shiftr c 6))
          :: b64_char (Z.land c 63)
          :: b64_groups n' rest
      end
  end.

Definition base64Encode (data : list Z) : string :=
  string_of_list_ascii (b64_groups (List.length data) data).

End Utilities.

(* ===================================================================== *)
(** ** The host: sheets, ranges, the script lock *)
(* ===================================================================== *)

Module Host.

Import Js.

(** [SpreadsheetApp.DataValidationCriteria], as far as the code tells the
    members apart. *)
Inductive CriteriaType : Type := CHECKBOX | OTHER_CRITERIA.

(** A cell: its value and its data validation rule ([None] is the [null]
    that [getDataValidations] reports for a cell without a rule). *)
Record Cell : Type := mkCell { value : Value; validation : option CriteriaType }.

Definition blankCell : Cell := mkCell (VStr "") None.

(** A sheet is a grid of [maxRows] by [maxColumns] cells whose first
    [frozenRows] rows are frozen.  Rows and columns are numbered from 1.
    Only the cells inside the grid are ever observed ([cellAt]). *)
Record Sheet : Type := mkSheet {
  frozenRows : Z;
  maxRows : Z;
  maxColumns : Z;
  cells : Z -> Z -> Cell
}.

Definition in_grid (s : Sheet) (r c : Z) : bool :=
  (1 <=? r) && (r <=? maxRows s) && (1 <=? c) && (c <=? maxColumns s).

Definition cellAt (s : Sheet) (r c : Z) : Cell :=
  if in_grid s r c then cells s r c else blankCell.

Definition has_content (c : Cell) : bool := negb (is_empty_string (value c)).

(** The positions [start], [start+1], ..., [start+n-1]. *)
Definition seqZ (start n : Z) : list Z :=
  map (fun i => start + Z.of_nat i) (seq 0 (Z.to_nat n)).

(** The greatest position in [1..n] where [p] holds, 0 when there is none. *)
Fixpoint find_last (p : Z -> bool) (n : nat) : Z :=
  match n with
  | O => 0
  | S n' => if p (Z.of_nat (S n')) then Z.of_nat (S n') else find_last p n'
  end.

Definition row_has_content (s : Sheet) (r : Z) : bool :=
  existsb (fun c => has_content (cellAt s r c)) (seqZ 1 (maxColumns s)).

Definition col_has_content (s : Sheet) (c : Z) : bool :=
  existsb (fun r => has_content (cellAt s r c)) (seqZ 1 (maxRows s)).

(** [Sheet.getLastRow]: the position of the last row that has content. *)
Definition lastRow (s : Sheet) : Z :=
  find_last (row_has_content s) (Z.to_nat (maxRows s)).

(** [Sheet.getLastColumn]: the position of the last column that has content. *)
Definition lastColumn (s : Sheet) : Z :=
  find_last (col_has_content s) (Z.to_nat (maxColumns s)).

(** A new empty row at position [k]; the rows from [k] on move down.  The
    new row carries no value and no rule.  A row inserted among the frozen
    rows is frozen too. *)
Definition insert_row (k : Z) (s : Sheet) : Sheet :=
  mkSheet (if k <=? frozenRows s then frozenRows s + 1 else frozenRows s)
          (maxRows s + 1) (maxColumns s)
          (fun r c => if r <? k then cellAt s r c
                      else if r =? k then blankCell
                      else cellAt s (r - 1) c).

(** Row [k] removed; the rows after it move up; a frozen row less when [k]
    was one. *)
Definition delete_row (k : Z) (s : Sheet) : Sheet :=
  mkSheet (if k <=? frozenRows s then frozenRows s - 1 else frozenRows s)
          (maxRows s - 1) (maxColumns s)
          (fun r c => if r <? k then cellAt s r c else cellAt s (r + 1) c).

Definition in_block (r0 c0 nr nc r c : Z) : bool :=
  (r0 <=? r) && (r <? r0 + nr) && (c0 <=? c) && (c <? c0 + nc).

(** The values [f] written over the block of [nr] by [nc] cells at
    [(r0, c0)]; validation rules stay, the grid grows to hold the block. *)
Definition write_block (r0 c0 nr nc : Z) (f : Z -> Z -> Value) (s : Sheet) : Sheet :=
  mkSheet (frozenRows s)
          (Z.max (maxRows s) (r0 + nr - 1))
          (Z.max (maxColumns s) (c0 + nc - 1))
          (fun r c => if in_block r0 c0 nr nc r c
                      then mkCell (f r c) (validation (cellAt s r c))
                      else cellAt s r c).

Definition SheetId : Type := string.

(** A [Range] object: a sheet and a block of cells in it. *)
Record Range : Type := mkRange {
  getSheet : SheetId;
  getRow : Z;
  getColumn : Z;
  getNumRows : Z;
  getNumColumns : Z
}.

Definition range_cells (s : Sheet) (rg : Range) : list (list Cell) :=
  map (fun r => map (fun c => cellAt s r c) (seqZ (getColumn rg) (getNumColumns rg)))
      (seqZ (getRow rg) (getNumRows rg)).

(** The calls into the host that the log of a run records. *)
Inductive Call : Type :=
| CWaitLock (timeout : Z)
| CReleaseLock
| CGetLastRow (s : SheetId)
| CGetLastColumn (s : SheetId)
| CGetMaxRows (s : SheetId)
| CGetMaxColumns (s : SheetId)
| CGetFrozenRows (s : SheetId)
| CInsertRowAfter (s : SheetId) (k : Z)
| CInsertRowBefore (s : SheetId) (k : Z)
| CDeleteRow (s : SheetId) (k : Z)
| CGetValues (rg : Range)
| CGetDataValidations (rg : Range)
| CIsBlank (rg : Range)
| CCopyTo (src dst : Range)
| CSetValue (rg : Range) (v : Value)
| CLoggerLog (n : Z).

(** What a script can throw: a string thrown by the library itself, a
    refusal of the host (a bad argument, or a call that fails on the host's
    side), the time-out of [waitLock], a [TypeError], or whatever a callback
    of the caller throws. *)
Inductive Exn : Type :=
| JsThrow (msg : string)
| BadArgument (msg : string)
| HostFailure (c : Call)
| LockTimeout
| TypeError (msg : string)
| UserThrow (msg : string).

(** The script lock as this execution sees it. *)
Inductive LockState : Type := Free | HeldByUs | HeldByOther.

(** The world of one execution: the sheets of the spreadsheet, the script
    lock, the calls completed so far, and the host's failures as a
    count-down: [Some n] makes the host call after [n] more completed ones
    fail, [None] lets them all through.  Any refusal of the host that the
    functions below do not spell out (a service error, a quota, a row the
    host will not delete) is such a failure. *)
Record World : Type := mkWorld {
  sheets : SheetId -> Sheet;
  lock : LockState;
  faults : option nat;
  log : list Call
}.

Definition set_sheet (id : SheetId) (s : Sheet) (w : World) : World :=
  mkWorld (fun j => if String.eqb j id then s else sheets w j)
          (lock w) (faults w) (log w).

Definition set_lock (l : LockState) (w : World) : World :=
  mkWorld (sheets w) l (faults w) (log w).

Inductive Outcome (A : Type) : Type :=
| Ok (a : A)
| Throw (e : Exn).
Arguments Ok {A} a.
Arguments Throw {A} e.

(** Computations: a world in, a value or an exception and a world out. *)
Definition M (A : Type) : Type := World -> Outcome A * World.

Definition ret {A} (a : A) : M A := fun w => (Ok a, w).

Definition throw {A} (e : Exn) : M A := fun w => (Throw e, w).

Definition bind {A B} (m : M A) (k : A -> M B) : M B :=
  fun w => match m w with
           | (Ok a, w') => k a w'
           | (Throw e, w') => (Throw e, w')
           end.

Definition gets {A} (f : World -> A) : M A := fun w => (Ok (f w), w).

Definition modify (f : World -> World) : M unit := fun w => (Ok tt, f w).

Definition when (b : bool) (m : M unit) : M unit := if b then m else ret tt.

(** One call into the host: it fails when the count-down has run out and
    then leaves no trace; otherwise it is entered in the log. *)
Definition call (c : Call) : M unit :=
  fun w => match faults w with
           | Some O => (Throw (HostFailure c), w)
           | Some (S n) => (Ok tt, mkWorld (sheets w) (lock w) (Some n) (log w ++ [c]))
           | None => (Ok tt, mkWorld (sheets w) (lock w) None (log w ++ [c]))
           end.

End Host.

Declare Scope js_scope.
Delimit Scope js_scope with js.
Notation "x <- m ;; k" := (Host.bind m (fun x => k))
  (at level 61, m at next level, right associativity) : js_scope.
Notation "m ;; k" := (Host.bind m (fun _ => k))
  (at level 61, right associativity) : js_scope.
Open Scope js_scope.

Module HostApi.

Import Js Host.

(** *** [LockService.getScriptLock()]

    [waitLock] takes the lock, or throws when another execution holds it
    for the whole of the wait; [releaseLock] gives back a lock this
    execution holds. *)

Definition waitLock (timeout : Z) : M unit :=
  call (CWaitLock timeout) ;;
  l <- gets lock ;;
  match l with
  | HeldByOther => throw LockTimeout
  | _ => modify (set_lock HeldByUs)
  end.

Definition releaseLock : M unit :=
  call CReleaseLock ;;
  l <- gets lock ;;
  match l with
  | HeldByUs => modify (set_lock Free)
  | _ => ret tt
  end.

(** *** [Sheet] *)

Definition getLastRow (sheet : SheetId) : M Z :=
  call (CGetLastRow sheet) ;; gets (fun w => lastRow (sheets w sheet)).

Definition getLastColumn (sheet : SheetId) : M Z :=
  call (CGetLastColumn sheet) ;; gets (fun w => lastColumn (sheets w sheet)).

Definition getMaxRows (sheet : SheetId) : M Z :=
  call (CGetMaxRows sheet) ;; gets (fun w => maxRows (sheets w sheet)).

Definition getMaxColumns (sheet : SheetId) : M Z :=
  call (CGetMaxColumns sheet) ;; gets (fun w => maxColumns (sheets w sheet)).

Definition getFrozenRows (sheet : SheetId) : M Z :=
  call (CGetFrozenRows sheet) ;; gets (fun w => frozenRows (sheets w sheet)).

(** [sheet.getRange(row, column, numRows, numColumns)] builds the range
    object; the host refuses a position or a size below 1. *)
Definition getRange (sheet : SheetId) (row column numRows numColumns : Z) : M Range :=
  if (1 <=? row) && (1 <=? column) && (1 <=? numRows) && (1 <=? numColumns)
  then ret (mkRange sheet row column numRows numColumns)
  else throw (BadArgument "getRange").

(** [sheet.getRange(row, column)]. *)
Definition getRange2 (sheet : SheetId) (row column : Z) : M Range :=
  getRange sheet row column 1 1.

(** [insertRowAfter], [insertRowBefore] and [deleteRow] take the position
    of a row of the sheet. *)
Definition valid_row (w : World) (sheet : SheetId) (k : Z) : bool :=
  (1 <=? k) && (k <=? maxRows (sheets w sheet)).

Definition insertRowAfter (sheet : SheetId) (afterPosition : Z) : M unit :=
  ok <- gets (fun w => valid_row w sheet afterPosition) ;;
  if ok then
    call (CInsertRowAfter sheet afterPosition) ;;
    modify (fun w => set_sheet sheet (insert_row (afterPosition + 1) (sheets w sheet)) w)
  else throw (BadArgument "insertRowAfter").

Definition insertRowBefore (sheet : SheetId) (beforePosition : Z) : M unit :=
  ok <- gets (fun w => valid_row w sheet beforePosition) ;;
  if ok then
    call (CInsertRowBefore sheet beforePosition) ;;
    modify (fun w => set_sheet sheet (insert_row beforePosition (sheets w sheet)) w)
  else throw (BadArgument "insertRowBefore").

Definition deleteRow (sheet : SheetId) (rowPosition : Z) : M unit :=
  ok <- gets (fun w => valid_row w sheet rowPosition) ;;
  if ok then
    call (CDeleteRow sheet rowPosition) ;;
    modify (fun w => set_sheet sheet (delete_row rowPosition (sheets w sheet)) w)
  else throw (BadArgument "deleteRow").

(** *** [Range] *)

Definition getValues (range : Range) : M (list (list Value)) :=
  call (CGetValues range) ;;
  gets (fun w => map (map value) (range_cells (sheets w (getSheet range)) range)).

Definition getDataValidations (range : Range) : M (list (list (option CriteriaType))) :=
  call (CGetDataValidations range) ;;
  gets (fun w => map (map validation) (range_cells (sheets w (getSheet range)) range)).

(** [range.isBlank()]: no cell of the range has content. *)
Definition isBlank (range : Range) : M bool :=
  call (CIsBlank range) ;;
  gets (fun w => forallb (forallb (fun c => negb (has_content c)))
                         (range_cells (sheets w (getSheet range)) range)).

(** [range.copyTo(destination, {contentsOnly:true})]: the values of the
    range are pasted at the top left cell of the destination; the rules of
    the destination cells stay.  (The library only copies a row onto a
    destination of one row and as many columns.) *)
Definition copyTo (range destination : Range) : M unit :=
  call (CCopyTo range destination) ;;
  modify (fun w =>
    let src := sheets w (getSheet range) in
    set_sheet (getSheet destination)
      (write_block (getRow destination) (getColumn destination)
                   (getNumRows range) (getNumColumns range)
                   (fun r c => value (cellAt src (r - getRow destination + getRow range)
                                                 (c - getColumn destination + getColumn range)))
                   (sheets w (getSheet destination))) w).

(** [range.getCell(row, column)], relative to the range. *)
Definition getCell (range : Range) (row column : Z) : M Range :=
  if (1 <=? row) && (row <=? getNumRows range)
     && (1 <=? column) && (column <=? getNumColumns range)
  then ret (mkRange (getSheet range) (getRow range + row - 1)
                    (getColumn range + column - 1) 1 1)
  else throw (BadArgument "getCell").

Definition setValue (range : Range) (v : Value) : M unit :=
  call (CSetValue range v) ;;
  modify (fun w =>
    set_sheet (getSheet range)
      (write_block (getRow range) (getColumn range) (getNumRows range)
                   (getNumColumns range) (fun _ _ => v)
                   (sheets w (getSheet range))) w).

(** [Logger.log(n)]. *)
Definition loggerLog (n : Z) : M unit := call (CLoggerLog n).

End HostApi.

(* ===================================================================== *)
(** ** [src/FormUtils.js] *)
(* ===================================================================== *)

Module FormUtils.

Import Js Host HostApi Utilities.

(** A [duplicateCallback]: [None] is the default [null]. *)
Definition Callback : Type := option (Range -> M unit).

(** [getDigest(range, skip=1, encoding=SHA_1)]. *)
Definition digest_of_values (row : list Value) (skip : Z) (encoding : DigestAlgorithm)
  : string :=
  let values := slice row skip in
  base64Encode (computeDigest encoding (join values)).

Definition getDigest (range : Range) (skip : Z) (encoding : DigestAlgorithm) : M string :=
  rows <- getValues range ;;
  match rows with
  | row0 :: _ => ret (digest_of_values row0 skip encoding)
  | [] => throw (TypeError "getValues()[0] is undefined")
  end.

(** [isDuplicate(range, sheet, useDigest=true, last=null, skip=1)]. *)
Definition isDuplicate (range : Range) (sheet : SheetId) (useDigest : bool)
    (last : option Z) (skip : Z) : M bool :=
  last <- match last with
          | Some l => ret l
          | None => getLastRow sheet
          end ;;
  if last =? 0 then ret false
  else if useDigest then
    digest <- getDigest range skip SHA_1 ;;
    let col := getNumColumns range + 1 in
    rg <- getRange sheet 1 col last 1 ;;
    data <- getValues rg ;;
    ret (includes (flat data) (VStr digest))
  else throw (JsThrow "Digest required for duplication check").

(** The earlier revision of [isDuplicate] kept in the repository: without a
    digest it falls off the end of the function and returns [undefined]
    ([None]). *)
Definition isDuplicate_legacy (range : Range) (sheet : SheetId) (useDigest : bool)
    (last : option Z) (skip : Z) : M (option bool) :=
  last <- match last with
          | Some l => ret l
          | None => getLastRow sheet
          end ;;
  loggerLog last ;;
  if last =? 0 then ret (Some false)
  else if useDigest then
    digest <- getDigest range skip SHA_1 ;;
    let col := getNumColumns range + 1 in
    rg <- getRange sheet 1 col last 1 ;;
    data <- getValues rg ;;
    ret (Some (includes (flat data) (VStr digest)))
  else ret None.

(** [addDigest(range, skip=1, digest=null)]. *)
Definition addDigest (range : Range) (skip : Z) (digest : option string) : M Range :=
  digest <- match digest with
            | None => getDigest range skip SHA_1
            | Some d => ret d
            end ;;
  range <- getRange (getSheet range) (getRow range) (getColumn range) 1
                    (getNumColumns range + 1) ;;
  cell <- getCell range 1 (getNumColumns range) ;;
  setValue cell (VStr digest) ;;
  ret range.

(** The loop of [isRangeEmpty] over the flattened values and rules.  A rule
    is looked at only when the value is not the empty string; looking at a
    rule past the end of the array is a [TypeError]. *)
Fixpoint isRangeEmpty_for (values : list Value) (validations : list (option CriteriaType))
  : Outcome bool :=
  match values with
  | [] => Ok true
  | v :: values' =>
      if is_empty_string v then isRangeEmpty_for values' (tl validations)
      else match validations with
           | [] => Throw (TypeError "validations[i] is undefined")
           | Some CHECKBOX :: validations' => isRangeEmpty_for values' validations'
           | _ :: _ => Ok false
           end
  end.

(** [isRangeEmpty(range, ignoreCheckbox=true)]. *)
Definition isRangeEmpty (range : Range) (ignoreCheckbox : bool) : M bool :=
  if negb ignoreCheckbox then isBlank range
  else
    vals <- getValues range ;;
    vds <- getDataValidations range ;;
    let values := flat vals in
    let validations := flat vds in
    fun w => (isRangeEmpty_for values validations, w).

(** [do{ i--; }while(i>=min && data[i] === "")].  The loop body runs before
    the test; [fuel] bounds the number of times the test lets it run
    again. *)
Fixpoint do_while_back (fuel : nat) (min : Z) (data : list Value) (i : Z) : Z :=
  let i := i - 1 in
  match fuel with
  | O => i
  | S fuel' =>
      if (i >=? min) && match index data i with
                        | Some v => is_empty_string v
                        | None => false
                        end
      then do_while_back fuel' min data i
      else i
  end.

(** [do{ i++; }while(i<max && !isRangeEmpty(getRow(i+1), ignoreCheckboxes))]. *)
Fixpoint do_while_forward (fuel : nat) (sheet : SheetId) (cols max : Z)
    (ignoreCheckboxes : bool) (i : Z) : M Z :=
  let i := i + 1 in
  match fuel with
  | O => ret i
  | S fuel' =>
      again <- (if i <? max then
                  row <- getRange sheet (i + 1) 1 1 cols ;;
                  empty <- isRangeEmpty row ignoreCheckboxes ;;
                  ret (negb empty)
                else ret false) ;;
      if again then do_while_forward fuel' sheet cols max ignoreCheckboxes i
      else ret i
  end.

(** [getFirstEmptyRow(sheet, index=1, ignoreCheckboxes=true)]. *)
Definition getFirstEmptyRow (sheet : SheetId) (index : Z) (ignoreCheckboxes : bool)
  : M Range :=
  row_max <-
    (if ignoreCheckboxes then
       last <- getLastRow sheet ;;
       max <- getMaxRows sheet ;;
       ret (last + 1, max)
     else
       cols <- getMaxColumns sheet ;;
       frozen <- getFrozenRows sheet ;;
       let min := frozen + 1 in
       max <- getLastRow sheet ;;
       range <- getRange sheet 1 index max 1 ;;
       vals <- getValues range ;;
       let data := flat vals in
       let i := max in
       let i := do_while_back (Z.to_nat max) min data i in
       let i := i - 1 in
       i <- do_while_forward (Z.to_nat (max - i)) sheet cols max ignoreCheckboxes i ;;
       ret (i + 1, max)) ;;
  let row := fst row_max in
  let max := snd row_max in
  if row >? max then
    insertRowAfter sheet max ;;
    getRange2 sheet (max + 1) 1
  else
    insertRowBefore sheet row ;;
    getRange2 sheet row 1.

(** [copyToFirstEmptyRow(range, sheet, digest=false, duplicateCallback=null,
    useLock=true, ignoreCheckboxes=true)]. *)
Definition copyToFirstEmptyRow (range : Range) (sheet : SheetId) (digest : bool)
    (duplicateCallback : Callback) (useLock : bool) (ignoreCheckboxes : bool)
  : M Range :=
  when useLock (waitLock 300000) ;;
  duplicate <- match duplicateCallback with
               | None => ret false
               | Some _ => isDuplicate range sheet digest None 1
               end ;;
  firstEmpty <- getFirstEmptyRow sheet 1 ignoreCheckboxes ;;
  destination <- getRange sheet (getRow firstEmpty) (getColumn firstEmpty) 1
                          (getNumColumns range) ;;
  copyTo range destination ;;
  destination <- (if digest then addDigest destination 1 None else ret destination) ;;
  when duplicate
       match duplicateCallback with
       | Some callback => callback destination
       | None => throw (TypeError "duplicateCallback is not a function")
       end ;;
  when useLock releaseLock ;;
  ret destination.

(** [moveToFirstEmptyRow(range, sheet, digest=false, duplicateCallback=null,
    useLock=true, ignoreCheckboxes=true)]. *)
Definition moveToFirstEmptyRow (range : Range) (sheet : SheetId) (digest : bool)
    (duplicateCallback : Callback) (useLock : bool) (ignoreCheckboxes : bool)
  : M Range :=
  when useLock (waitLock 300000) ;;
  destination <- copyToFirstEmptyRow range sheet digest duplicateCallback false
                                     ignoreCheckboxes ;;
  deleteRow (getSheet range) (getRow range) ;;
  when useLock releaseLock ;;
  ret destination.

(** The loop of [getRangesInUse]: [n] iterations are left, [i] is the loop
    variable, [ranges] the array built so far. *)
Fixpoint getRangesInUse_for (n : nat) (sheet : SheetId) (frozenRows maxCols : Z)
    (i : Z) (ranges : list Range) : M (list Range) :=
  match n with
  | O => ret ranges
  | S n' =>
      let row := i + 1 + frozenRows in
      range <- getRange sheet row 1 1 maxCols ;;
      vals <- getValues range ;;
      match vals with
      | row0 :: _ =>
          let ranges := if some (fun val => negb (is_empty_string val)) row0
                        then (ranges ++ [range])%list else ranges in
          getRangesInUse_for n' sheet frozenRows maxCols (i + 1) ranges
      | [] => throw (TypeError "getValues()[0] is undefined")
      end
  end.

(** [getRangesInUse(sheet, excludeFrozen=true)]. *)
Definition getRangesInUse (sheet : SheetId) (excludeFrozen : bool) : M (list Range) :=
  frozenRows <- (if excludeFrozen then getFrozenRows sheet else ret 0) ;;
  last <- getLastRow sheet ;;
  let rowsAmt := last - frozenRows in
  maxCols <- getLastColumn sheet ;;
  getRangesInUse_for (Z.to_nat rowsAmt) sheet frozenRows maxCols 0 [].

(** [arr.forEach(f)]. *)
Fixpoint forEach {A} (f : A -> M unit) (arr : list A) : M unit :=
  match arr with
  | [] => ret tt
  | x :: arr' => f x ;; forEach f arr'
  end.

(** [sweep(sheetFrom, sheetTo, deleteFromSource=true)]. *)
Definition sweep (sheetFrom sheetTo : SheetId) (deleteFromSource : bool) : M unit :=
  if deleteFromSource then
    ranges <- getRangesInUse sheetFrom true ;;
    forEach (fun range => moveToFirstEmptyRow range sheetTo false None true true ;; ret tt)
            (rev ranges)
  else
    ranges <- getRangesInUse sheetFrom true ;;
    forEach (fun range => copyToFirstEmptyRow range sheetTo false None true true ;; ret tt)
            ranges.

End FormUtils.

(* ===================================================================== *)
(** ** Concrete sheets for the examples *)
(* ===================================================================== *)

Module Fixtures.

Import Js Host.

(** A sheet given by its rows; a missing cell is empty. *)
Definition sheet_of (frozen : Z) (nrows ncols : Z) (rows : list (list Cell)) : Sheet :=
  mkSheet frozen nrows ncols
          (fun r c => nth (Z.to_nat (c - 1)) (nth (Z.to_nat (r - 1)) rows []) blankCell).

Definition str (s : string) : Cell := mkCell (VStr s) None.
Definition empty : Cell := blankCell.
Definition checkbox (b : bool) : Cell := mkCell (VBool b) (Some CHECKBOX).

(** The values of the whole grid, row by row. *)
Definition grid_values (s : Sheet) : list (list Value) :=
  map (map value) (range_cells s (mkRange "" 1 1 (maxRows s) (maxColumns s))).

Definition blank_sheet : Sheet := sheet_of 0 1 1 [].

(** A spreadsheet with the sheets listed, a free lock, no failure planned
    and an empty log. *)
Definition world_of (l : list (SheetId * Sheet)) : World :=
  mkWorld (fun id => match find (fun p => String.eqb (fst p) id) l with
                     | Some p => snd p
                     | None => blank_sheet
                     end)
          Free None [].

Definition with_faults (n : nat) (w : World) : World :=
  mkWorld (sheets w) (lock w) (Some n) (log w).

(** A sheet of form submissions with a gap at row 3, and the sheet the
    responses are gathered in. *)
Definition form_sheet : Sheet :=
  sheet_of 1 6 3
    [[str "Timestamp"; str "Name"; str "Score"];
     [str "2021-01-01"; str "alice"; str "42"];
     [];
     [str "2021-01-02"; str "bob"; str "7"];
     [str "2021-01-03"; str "carol"; str "9"]].

Definition responses_sheet : Sheet :=
  sheet_of 1 3 4
    [[str "Timestamp"; str "Name"; str "Score"; str "Digest"];
     [str "2020-12-31"; str "alice"; str "42"; str "9TPVvhoSC0N/p0/KU4HiWHxEkwc="]].

Definition two_sheets : World :=
  world_of [("Form", form_sheet); ("Responses", responses_sheet)].

Definition form_row (r : Z) : Range := mkRange "Form" r 1 1 3.

(** A callback that writes into the range it is given, and one that
    throws. *)
Definition mark_duplicate : Range -> M unit :=
  fun range => HostApi.setValue range (VStr "DUPLICATE").

Definition failing_callback : Range -> M unit :=
  fun _ => throw (UserThrow "callback failed").

(** One frozen row, data in rows 2 to 5, row 3 blank. *)
Definition gap_sheet : Sheet :=
  sheet_of 1 5 2 [[str "Name"]; [str "a"]; []; [str "c"]; [str "d"]].

Definition gap_world : World := world_of [("Data", gap_sheet)].

(** A sheet with a checkbox column; row 3 holds an unticked checkbox and
    nothing else. *)
Definition checkbox_sheet : Sheet :=
  sheet_of 1 3 2
    [[str "Name"; str "Done"];
     [str "alice"; checkbox true];
     [empty; checkbox false]].

Definition checkbox_world : World := world_of [("Tasks", checkbox_sheet)].

(** Two rows that differ after the first column and join to the same
    string. *)
Definition comma_sheet : Sheet :=
  sheet_of 0 2 3
    [[str "2021-01-01"; str "a,b"; str "c"];
     [str "2021-01-01"; str "a"; str "b,c"]].

Definition comma_world : World := world_of [("Answers", comma_sheet)].

(** Rows that differ after the first column and join to the same string
    without a comma in any value: a number and its digits as text, and an
    empty cell, which a range one column narrower leaves out. *)
Definition mixed_sheet : Sheet :=
  sheet_of 0 3 2
    [[str "2021-01-01"; mkCell (VNum 42) None];
     [str "2021-01-01"; str "42"];
     [str "2021-01-01"; empty]].

Definition mixed_world : World := world_of [("Answers", mixed_sheet)].

(** Two rows that differ in the first column only. *)
Definition resubmitted_sheet : Sheet :=
  sheet_of 0 2 3
    [[str "2021-01-01"; str "alice"; str "42"];
     [str "2021-01-02"; str "alice"; str "42"]].

Definition resubmitted_world : World := world_of [("Answers", resubmitted_sheet)].

End Fixtures.

(* ===================================================================== *)
(** ** Assertions about runs *)
(* ===================================================================== *)

Module Assertions.

Import Js Host HostApi.

(** [I] holds at the end of [m] when it holds at its start, whatever the
    outcome. *)
Definition inv {A} (I : World -> Prop) (m : M A) : Prop :=
  forall w, I w -> I (snd (m w)).

(** [m] runs from [w] to the value [a] and the world [w']. *)
Definition runs {A} (m : M A) (w : World) (a : A) (w' : World) : Prop :=
  m w = (Ok a, w').

(** The world after the call [c] has completed. *)
Definition logged (c : Call) (w : World) : World :=
  mkWorld (sheets w) (lock w) (faults w) (log w ++ [c]).

Definition is_delete (c : Call) : bool :=
  match c with
  | CDeleteRow _ _ => true
  | _ => false
  end.

(** The row deletions among the calls of a log, in order. *)
Definition deletions (l : list Call) : list Call := filter is_delete l.

(** The log has grown from [l0] by calls that all satisfy [P]. *)
Definition log_grows (P : Call -> Prop) (l0 : list Call) (w : World) : Prop :=
  exists delta, log w = (l0 ++ delta)%list /\ Forall P delta.

(** The call reads the values of a range of [sheet] that covers column
    [col]. *)
Definition reads_column (sheet : SheetId) (col : Z) (c : Call) : Prop :=
  match c with
  | CGetValues rg =>
      getSheet rg = sheet /\ getColumn rg <= col < getColumn rg + getNumColumns rg
  | _ => False
  end.

(** The range has a cell in column [col] of [sheet]. *)
Definition covers (rg : Range) (sheet : SheetId) (col : Z) : Prop :=
  getSheet rg = sheet /\ getColumn rg <= col < getColumn rg + getNumColumns rg.

(** The call asks the host about the cells of a range that has a cell in
    column [col] of [sheet]: for their values, for their rules, whether they
    are blank, or to copy their values elsewhere. *)
Definition reads_cells (sheet : SheetId) (col : Z) (c : Call) : Prop :=
  match c with
  | CGetValues rg | CGetDataValidations rg | CIsBlank rg | CCopyTo rg _ =>
      covers rg sheet col
  | _ => False
  end.

(** The world is as it was but for reads entered in the log. *)
Definition is_read (c : Call) : bool :=
  match c with
  | CGetLastRow _ | CGetLastColumn _ | CGetMaxRows _ | CGetMaxColumns _
  | CGetFrozenRows _ | CGetValues _ | CGetDataValidations _ | CIsBlank _ => true
  | _ => false
  end.

Definition same_but_log (w w' : World) : Prop :=
  sheets w' = sheets w /\ lock w' = lock w /\ faults w' = faults w
  /\ exists delta, log w' = (log w ++ delta)%list /\ forallb is_read delta = true.

(** [m] never ends with the exception [e]. *)
Definition avoids {A} (e : Exn) (m : M A) : Prop :=
  forall w, fst (m w) <> Throw e.

(** The string [isDuplicate] throws when asked to compare rows without a
    digest. *)
Definition digest_required : Exn := JsThrow "Digest required for duplication check".

(** The last row [isDuplicate] works with: its argument [last], or the last
    row of the sheet when the argument is [null]. *)
Definition effective_last (last : option Z) (s : Sheet) : Z :=
  match last with
  | Some l => l
  | None => lastRow s
  end.

(** [data[j] === ""], as the backward loop of [getFirstEmptyRow] tests it. *)
Definition empty_at (data : list Value) (j : Z) : bool :=
  match index data j with
  | Some v => is_empty_string v
  | None => false
  end.

(** The call that reserves row [row] when the last row is [max]. *)
Definition reserve_call (sheet : SheetId) (row max : Z) : Call :=
  if row >? max then CInsertRowAfter sheet max else CInsertRowBefore sheet row.

(** The range of row [r] that [getRangesInUse] builds. *)
Definition row_range (sheet : SheetId) (cols : Z) (r : Z) : Range :=
  mkRange sheet r 1 1 cols.

(** The rows of a sheet that [getRangesInUse] reports: the rows below the
    frozen ones, up to the last row, that have content. *)
Definition rows_in_use (s : Sheet) : list Z :=
  filter (row_has_content s) (seqZ (frozenRows s + 1) (lastRow s - frozenRows s)).

(** [rows] is strictly decreasing and lies between [F] and [b]. *)
Fixpoint desc_below (F b : Z) (rows : list Z) : Prop :=
  match rows with
  | [] => True
  | x :: t => F < x < b /\ desc_below F x t
  end.

(** What is assumed of a callback, which is code of the caller: it leaves
    the script lock as it is; it deletes no row; it leaves the sheet [id] as
    it is. *)
Definition callback_keeps_lock (cb : FormUtils.Callback) : Prop :=
  forall f rg l, cb = Some f -> inv (fun w => lock w = l) (f rg).

Definition callback_deletes_nothing (cb : FormUtils.Callback) : Prop :=
  forall f rg dl, cb = Some f -> inv (fun w => deletions (log w) = dl) (f rg).

Definition callback_keeps_sheet (id : SheetId) (cb : FormUtils.Callback) : Prop :=
  forall f rg s, cb = Some f -> inv (fun w => sheets w id = s) (f rg).

(** The first row of the values of a range. *)
Definition first_row (s : Sheet) (rg : Range) : list Value :=
  map (fun i => value (cellAt s (getRow rg) (getColumn rg + Z.of_nat i)))
      (seq 0 (Z.to_nat (getNumColumns rg))).

(** The string contains the delimiter of [join]. *)
Fixpoint has_comma (s : string) : bool :=
  match s with
  | EmptyString => false
  | String a s' => Ascii.eqb a "," || has_comma s'
  end.

(** A value whose string form holds no delimiter of [join] and is the one
    JavaScript gives it: a string without a comma, a boolean, or a number
    that is a safe integer. *)
Definition plain (v : Value) : bool :=
  match v with
  | VStr s => negb (has_comma s)
  | VNum n => is_safe_integer n
  | VBool _ => true
  end.

(** The values join to the empty string without holding a delimiter: there
    is no value, or one value whose string form is empty. *)
Definition no_text (l : list Value) : Prop :=
  map toString l = [] \/ map toString l = [""].

(** The digest algorithm returns bytes. *)
Definition returns_bytes (algorithm : Utilities.DigestAlgorithm) : Prop :=
  forall msg, Forall (fun b => 0 <= b < 256) (algorithm msg).

(** The cell is under a checkbox rule. *)
Definition is_checkbox (c : Cell) : bool :=
  match validation c with
  | Some CHECKBOX => true
  | _ => false
  end.

End Assertions.

From Stdlib Require DecimalZ DecimalPos.

(* ===================================================================== *)
(** ** The rest of [src/FormUtils.js] *)
(* ===================================================================== *)

(** The methods of JavaScript strings that the sheet names are built
    with. *)
Module JsString.

(** [str.substr(start, length)]: a negative [start] counts from the end, a
    [length] past the end is cut. *)
Definition substr (str : string) (start length : Z) : string :=
  let len := Z.of_nat (String.length str) in
  let from := if start <? 0 then Z.max (len + start) 0 else start in
  String.substring (Z.to_nat from) (Z.to_nat length) str.

(** [str.slice(start)]. *)
Definition slice (str : string) (start : Z) : string :=
  let len := Z.of_nat (String.length str) in
  let from := if start <? 0 then Z.max (len + start) 0 else start in
  String.substring (Z.to_nat from) (String.length str) str.

Definition upper (a : ascii) : ascii :=
  let n := nat_of_ascii a in
  if ((97 <=? n) && (n <=? 122))%nat then ascii_of_nat (n - 32) else a.

(** [str.toUpperCase()] on the letters a to z, the only ones in the names
    of the months. *)
Fixpoint toUpperCase (str : string) : string :=
  match str with
  | EmptyString => EmptyString
  | String a str' => String (upper a) (toUpperCase str')
  end.

End JsString.

(** The names of the periodic sheets. *)
Module Periodic.

Import Js Host.

(** What the code reads of a [Date]: the year, and the month from 0 for
    January to 11 for December. *)
Record Date : Type := mkDate { getFullYear : Z; getMonth : Z }.

Definition monthNames : list string :=
  ["January"; "February"; "March"; "April"; "May"; "June";
   "July"; "August"; "September"; "October"; "November"; "December"].

(** [getMonthlySheetName(abbreviated=true, shift=0)].  The first argument
    is the [new Date()] the function starts with.  [monthNames[monthNum]]
    is [None] for [undefined]: its [substr] is a [TypeError], and [+] turns
    it into the string ["undefined"]. *)
Definition getMonthlySheetName (date : Date) (abbreviated : bool) (shift : Z)
  : Outcome string :=
  let monthNum := getMonth date + shift in
  let year := getFullYear date in
  let (monthNum, year) :=
    if monthNum <? 0 then (11, year - 1)
    else if monthNum >? 11 then (0, year + 1)
    else (monthNum, year) in
  let month := index monthNames monthNum in
  if abbreviated then
    match month with
    | Some month =>
        Ok (JsString.toUpperCase (JsString.substr month 0 3)
            ++ JsString.slice (toString (VNum year)) (-2))%string
    | None => Throw (TypeError "month is undefined")
    end
  else
    Ok (match month with Some month => month | None => "undefined" end
        ++ " " ++ toString (VNum year))%string.

End Periodic.

(** Ranges cut to size. *)
Module Ranges.

Import Js Host HostApi.

(** [trimRowRange(range, amount)]. *)
Definition trimRowRange (range : Range) (amount : Z) : M Range :=
  if amount <? 0 then
    getRange (getSheet range) (getRow range) (getColumn range + amount) 1
             (getNumColumns range + amount)
  else
    getRange (getSheet range) (getRow range) (getColumn range) 1
             (getNumColumns range - amount).

End Ranges.

(** The earlier revision of [src/FormUtils.js] kept in the repository: the
    two functions that placement relied on then. *)
Module Legacy.

Import Js Host HostApi.

(** [getFirstEmptyRow(sheet)] of the earlier revision. *)
Definition getFirstEmptyRow (sheet : SheetId) : M Range :=
  last <- getLastRow sheet ;;
  let first_empty_row := last + 1 in
  insertRowBefore sheet first_empty_row ;;
  getRange2 sheet first_empty_row 1.

(** The callback that the earlier [isRangeEmpty] hands to [forEach]: it
    asks for the rules of the range when the value is not the empty string,
    and what it returns is dropped by [forEach]. *)
Definition isRangeEmpty_callback (range : Range) (val : Value) (i : Z) : M unit :=
  if negb (is_empty_string val) then
    vds <- getDataValidations range ;;
    match vds with
    | _ :: _ => ret tt
    | [] => throw (TypeError "getDataValidations()[0] is undefined")
    end
  else ret tt.

(** [arr.forEach((val, i) => ...)]. *)
Fixpoint forEach_indexed {A} (f : A -> Z -> M unit) (arr : list A) (i : Z) : M unit :=
  match arr with
  | [] => ret tt
  | x :: arr' => f x i ;; forEach_indexed f arr' (i + 1)
  end.

(** [isRangeEmpty(range, ignoreCheckbox=true)] of the earlier revision. *)
Definition isRangeEmpty (range : Range) (ignoreCheckbox : bool) : M bool :=
  if negb ignoreCheckbox then isBlank range
  else
    vals <- getValues range ;;
    match vals with
    | row0 :: _ =>
        forEach_indexed (isRangeEmpty_callback range) row0 0 ;;
        ret true
    | [] => throw (TypeError "getValues()[0] is undefined")
    end.

End Legacy.

(** What the properties of these functions are stated with. *)
Module Observations.

Import Js Host HostApi.

(** [rows] is strictly increasing and lies above [b]. *)
Fixpoint ascending_from (b : Z) (rows : list Z) : Prop :=
  match rows with
  | [] => True
  | x :: t => b < x /\ ascending_from x t
  end.

(** The sheet [reserved] (the destination, a row already inserted at [R])
    once the block of [range], read from the sheet [src], is pasted at the
    beginning of row [R]. *)
Definition pasted (src : Sheet) (range : Range) (R : Z) (reserved : Sheet) : Sheet :=
  write_block R 1 (getNumRows range) (getNumColumns range)
    (fun r c => value (cellAt src (r - R + getRow range) (c - 1 + getColumn range)))
    reserved.

(** The digest that [addDigest] computes for row [R] of the sheet [p], of
    [n] columns, and [p] with the digest in the cell after the row. *)
Definition row_digest (p : Sheet) (sheet : SheetId) (R n : Z) : string :=
  FormUtils.digest_of_values (Assertions.first_row p (mkRange sheet R 1 1 n)) 1
                             Utilities.SHA_1.

Definition signed (p : Sheet) (sheet : SheetId) (R n : Z) : Sheet :=
  write_block R (1 + n) 1 1 (fun _ _ => VStr (row_digest p sheet R n)) p.

(** The month whose abbreviation, or whose name and a space, a sheet name
    begins with. *)
Definition months : list Z := [0; 1; 2; 3; 4; 5; 6; 7; 8; 9; 10; 11].

Definition month_of (k : Z) : string := nth (Z.to_nat k) Periodic.monthNames "".

Definition abbreviation_of (k : Z) : string :=
  JsString.toUpperCase (JsString.substr (month_of k) 0 3).

Fixpoint begins_with (p s : string) : bool :=
  match p with
  | EmptyString => true
  | String a p' =>
      match s with
      | EmptyString => false
      | String b s' => Ascii.eqb a b && begins_with p' s'
      end
  end.

Definition abbreviated_month (name : string) : option Z :=
  find (fun k => begins_with (abbreviation_of k) name) months.

Definition full_month (name : string) : option Z :=
  find (fun k => begins_with (month_of k ++ " ") name) months.

End Observations.

(** More sheets and worlds for the examples. *)
Module Scenes.

Import Js Host Fixtures.

(** The two sheets while another execution holds the script lock. *)
Definition locked_out : World := set_lock HeldByOther two_sheets.

(** A spreadsheet whose sheets hold nothing yet. *)
Definition empty_world : World := world_of [].

(** New Year's Day of 2020, the date of the examples in the source. *)
Definition new_year_2020 : Periodic.Date := Periodic.mkDate 2020 0.

End Scenes.

Import Js Host HostApi FormUtils Fixtures Assertions.

(* ===================================================================== *)
(** ** The digest of the host: known answers *)
(* ===================================================================== *)

(** Known answers: the digests of the empty message and of ["abc"]. *)
Example sha1_empty :
  Utilities.base64Encode (Utilities.computeDigest Utilities.SHA_1 "")
  = "2jmj7l5rSw0yVb/vlWAYkK/YBwk=".
Proof. vm_compute. reflexivity. Qed.

Example sha1_abc :
  Utilities.base64Encode (Utilities.computeDigest Utilities.SHA_1 "abc")
  = "qZk+NkcGgWq6PiVxeFDCbJzQ2J0=".
Proof. vm_compute. reflexivity. Qed.

(* ===================================================================== *)
(** ** Facts about sheets *)
(* ===================================================================== *)

Module SheetFacts.

Lemma In_seqZ (a n x : Z) : In x (seqZ a n) <-> a <= x < a + n.
Proof.
  unfold seqZ. rewrite in_map_iff. split.
  - intros [i [<- Hi]]. apply in_seq in Hi. lia.
  - intros H. exists (Z.to_nat (x - a)). split; [lia|].
    apply in_seq. lia.
Qed.

Lemma existsb_seqZ_false (p : Z -> bool) (a n : Z) :
  existsb p (seqZ a n) = false <-> forall x, a <= x < a + n -> p x = false.
Proof.
  split.
  - intros H x Hx. destruct (p x) eqn:E; [|reflexivity].
    assert (existsb p (seqZ a n) = true) as H'
      by (apply existsb_exists; exists x; split; [apply In_seqZ; exact Hx|exact E]).
    congruence.
  - intros H. destruct (existsb p (seqZ a n)) eqn:E; [|reflexivity].
    apply existsb_exists in E. destruct E as [x [Hx Hp]].
    apply In_seqZ in Hx. rewrite (H x Hx) in Hp. discriminate.
Qed.

Lemma existsb_seqZ_true (p : Z -> bool) (a n : Z) :
  existsb p (seqZ a n) = true <-> exists x, a <= x < a + n /\ p x = true.
Proof.
  rewrite existsb_exists. split; intros [x [H1 H2]]; exists x; split; auto;
    apply In_seqZ; auto.
Qed.

Lemma find_last_bounds (p : Z -> bool) (n : nat) : 0 <= find_last p n <= Z.of_nat n.
Proof.
  induction n as [|n IH]; cbn [find_last]; [lia|].
  destruct (p (Z.of_nat (S n))); lia.
Qed.

Lemma find_last_holds (p : Z -> bool) (n : nat) :
  1 <= find_last p n -> p (find_last p n) = true.
Proof.
  induction n as [|n IH]; cbn [find_last]; [lia|].
  destruct (p (Z.of_nat (S n))) eqn:E; auto.
Qed.

Lemma find_last_above (p : Z -> bool) (n : nat) (x : Z) :
  find_last p n < x <= Z.of_nat n -> p x = false.
Proof.
  induction n as [|n IH]; cbn [find_last]; [lia|].
  destruct (p (Z.of_nat (S n))) eqn:E; [lia|].
  intros H. destruct (Z.eq_dec x (Z.of_nat (S n))) as [->|Hne]; [exact E|].
  apply IH. lia.
Qed.

Lemma cellAt_outside (s : Sheet) (r c : Z) :
  in_grid s r c = false -> cellAt s r c = blankCell.
Proof. unfold cellAt. intros ->. reflexivity. Qed.

Lemma cellAt_row_outside (s : Sheet) (r c : Z) :
  r < 1 \/ maxRows s < r -> cellAt s r c = blankCell.
Proof.
  intros H. apply cellAt_outside. unfold in_grid.
  destruct (Z.leb_spec 1 r); destruct (Z.leb_spec r (maxRows s)); simpl; auto; lia.
Qed.

Lemma cellAt_col_outside (s : Sheet) (r c : Z) :
  c < 1 \/ maxColumns s < c -> cellAt s r c = blankCell.
Proof.
  intros H. apply cellAt_outside. unfold in_grid.
  destruct (Z.leb_spec 1 r); destruct (Z.leb_spec r (maxRows s));
    destruct (Z.leb_spec 1 c); destruct (Z.leb_spec c (maxColumns s)); simpl; auto; lia.
Qed.

(** A row has no content exactly when none of its cells has. *)
Lemma row_has_content_false (s : Sheet) (r : Z) :
  row_has_content s r = false <-> forall c, has_content (cellAt s r c) = false.
Proof.
  unfold row_has_content. rewrite existsb_seqZ_false. split.
  - intros H c. destruct (Z_lt_dec c 1); [rewrite cellAt_col_outside; auto|].
    destruct (Z_lt_dec (maxColumns s) c); [rewrite cellAt_col_outside; auto|].
    apply H. lia.
  - intros H c _. apply H.
Qed.

Lemma row_has_content_true (s : Sheet) (r : Z) :
  row_has_content s r = true <-> exists c, has_content (cellAt s r c) = true.
Proof.
  split.
  - unfold row_has_content. rewrite existsb_seqZ_true. intros [c [_ H]]. eauto.
  - intros [c H]. destruct (row_has_content s r) eqn:E; [reflexivity|].
    rewrite row_has_content_false in E. rewrite E in H. discriminate.
Qed.

Lemma col_has_content_false (s : Sheet) (c : Z) :
  col_has_content s c = false <-> forall r, has_content (cellAt s r c) = false.
Proof.
  unfold col_has_content. rewrite existsb_seqZ_false. split.
  - intros H r. destruct (Z_lt_dec r 1); [rewrite cellAt_row_outside; auto|].
    destruct (Z_lt_dec (maxRows s) r); [rewrite cellAt_row_outside; auto|].
    apply H. lia.
  - intros H r _. apply H.
Qed.

Lemma lastRow_bounds (s : Sheet) : 0 <= lastRow s /\ lastRow s <= Z.max 0 (maxRows s).
Proof.
  unfold lastRow.
  pose proof (find_last_bounds (row_has_content s) (Z.to_nat (maxRows s))). lia.
Qed.

Lemma lastRow_has_content (s : Sheet) :
  1 <= lastRow s -> row_has_content s (lastRow s) = true.
Proof. unfold lastRow. apply find_last_holds. Qed.

Lemma lastRow_above (s : Sheet) (r : Z) :
  lastRow s < r -> row_has_content s r = false.
Proof.
  intros H. destruct (Z_le_dec r (maxRows s)) as [Hle|Hgt].
  - unfold lastRow in *. apply (find_last_above _ (Z.to_nat (maxRows s))).
    pose proof (find_last_bounds (row_has_content s) (Z.to_nat (maxRows s))). lia.
  - apply row_has_content_false. intros c. rewrite cellAt_row_outside; auto. lia.
Qed.

(** [lastRow] is the only position with content at it and none after it. *)
Lemma lastRow_unique (s : Sheet) (L : Z) :
  0 <= L ->
  (1 <= L -> row_has_content s L = true) ->
  (forall r, L < r -> row_has_content s r = false) ->
  lastRow s = L.
Proof.
  intros H0 Hat Habove.
  pose proof (lastRow_bounds s) as [Hb _].
  destruct (Z.lt_trichotomy (lastRow s) L) as [Hlt|[Heq|Hgt]]; [|exact Heq|].
  - rewrite (lastRow_above s L Hlt) in Hat. assert (1 <= L) by lia.
    specialize (Hat H). discriminate.
  - pose proof (lastRow_has_content s ltac:(lia)) as Hc.
    rewrite (Habove _ Hgt) in Hc. discriminate.
Qed.

Lemma lastColumn_bounds (s : Sheet) : 0 <= lastColumn s /\ lastColumn s <= Z.max 0 (maxColumns s).
Proof.
  unfold lastColumn.
  pose proof (find_last_bounds (col_has_content s) (Z.to_nat (maxColumns s))). lia.
Qed.

Lemma lastColumn_above (s : Sheet) (c : Z) :
  lastColumn s < c -> col_has_content s c = false.
Proof.
  intros H. destruct (Z_le_dec c (maxColumns s)) as [Hle|Hgt].
  - unfold lastColumn in *. apply (find_last_above _ (Z.to_nat (maxColumns s))).
    pose proof (find_last_bounds (col_has_content s) (Z.to_nat (maxColumns s))). lia.
  - apply col_has_content_false. intros r. rewrite cellAt_col_outside; auto. lia.
Qed.

(** No cell to the right of the last column has content. *)
Lemma no_content_right_of_lastColumn (s : Sheet) (r c : Z) :
  lastColumn s < c -> has_content (cellAt s r c) = false.
Proof.
  intros H. apply lastColumn_above in H.
  rewrite col_has_content_false in H. apply H.
Qed.

(** A row has content exactly when it has some in the columns up to the
    last column. *)
Lemma row_has_content_upto_lastColumn (s : Sheet) (r : Z) :
  existsb (fun c => has_content (cellAt s r c)) (seqZ 1 (lastColumn s))
  = row_has_content s r.
Proof.
  destruct (row_has_content s r) eqn:E.
  - apply row_has_content_true in E. destruct E as [c Hc].
    apply existsb_seqZ_true. exists c. split; [|exact Hc].
    destruct (Z_lt_dec c 1); [rewrite cellAt_col_outside in Hc by auto; discriminate|].
    destruct (Z_lt_dec (lastColumn s) c);
      [rewrite no_content_right_of_lastColumn in Hc by auto; discriminate|]. lia.
  - rewrite row_has_content_false in E. apply existsb_seqZ_false. intros c _. apply E.
Qed.

(** *** Cells after a row is inserted, deleted or written *)

Lemma cellAt_insert_row (k : Z) (s : Sheet) (r c : Z) :
  1 <= k <= maxRows s + 1 ->
  cellAt (insert_row k s) r c
  = if r <? k then cellAt s r c else if r =? k then blankCell else cellAt s (r - 1) c.
Proof.
  intros Hk. unfold cellAt at 1. destruct (in_grid (insert_row k s) r c) eqn:G.
  - reflexivity.
  - unfold in_grid in G. simpl in G.
    destruct (r <? k) eqn:E1; [|destruct (r =? k) eqn:E2]; [|reflexivity|];
      symmetry; apply cellAt_outside; unfold in_grid;
      repeat match goal with
             | |- context [?a <=? ?b] => destruct (Z.leb_spec a b)
             | H : context [?a <=? ?b] |- _ => destruct (Z.leb_spec a b)
             end; simpl in *; try reflexivity; try discriminate; lia.
Qed.

Lemma cellAt_delete_row (k : Z) (s : Sheet) (r c : Z) :
  1 <= k <= maxRows s ->
  cellAt (delete_row k s) r c = if r <? k then cellAt s r c else cellAt s (r + 1) c.
Proof.
  intros Hk. unfold cellAt at 1. destruct (in_grid (delete_row k s) r c) eqn:G.
  - reflexivity.
  - unfold in_grid in G. simpl in G.
    destruct (r <? k) eqn:E1;
      symmetry; apply cellAt_outside; unfold in_grid;
      repeat match goal with
             | |- context [?a <=? ?b] => destruct (Z.leb_spec a b)
             | H : context [?a <=? ?b] |- _ => destruct (Z.leb_spec a b)
             end; simpl in *; try reflexivity; try discriminate; lia.
Qed.

Lemma cellAt_write_block (r0 c0 nr nc : Z) (f : Z -> Z -> Value) (s : Sheet) (r c : Z) :
  1 <= r0 -> 1 <= c0 ->
  cellAt (write_block r0 c0 nr nc f s) r c
  = if in_block r0 c0 nr nc r c then mkCell (f r c) (validation (cellAt s r c))
    else cellAt s r c.
Proof.
  intros Hr Hc. unfold cellAt at 1.
  destruct (in_grid (write_block r0 c0 nr nc f s) r c) eqn:G.
  - reflexivity.
  - unfold in_grid in G. simpl in G.
    destruct (in_block r0 c0 nr nc r c) eqn:B.
    + exfalso. unfold in_block in B.
      repeat match goal with
             | H : context [?a <=? ?b] |- _ => destruct (Z.leb_spec a b)
             | H : context [?a <? ?b] |- _ => destruct (Z.ltb_spec a b)
             end; simpl in *; try discriminate; lia.
    + symmetry; apply cellAt_outside; unfold in_grid.
      repeat match goal with
             | |- context [?a <=? ?b] => destruct (Z.leb_spec a b)
             | H : context [?a <=? ?b] |- _ => destruct (Z.leb_spec a b)
             end; simpl in *; try reflexivity; try discriminate; lia.
Qed.

End SheetFacts.

Import SheetFacts.

(* ===================================================================== *)
(** ** Rules for runs *)
(* ===================================================================== *)

Module Rules.

Lemma bind_ok {A B} (m : M A) (k : A -> M B) w a w1 :
  m w = (Ok a, w1) -> bind m k w = k a w1.
Proof. unfold bind. intros ->. reflexivity. Qed.

Lemma bind_throw {A B} (m : M A) (k : A -> M B) w e w1 :
  m w = (Throw e, w1) -> bind m k w = (Throw e, w1).
Proof. unfold bind. intros ->. reflexivity. Qed.

Lemma runs_bind {A B} (m : M A) (k : A -> M B) w a w1 b w2 :
  runs m w a w1 -> runs (k a) w1 b w2 -> runs (bind m k) w b w2.
Proof. unfold runs. intros H1 H2. rewrite (bind_ok _ _ _ _ _ H1). exact H2. Qed.

Lemma runs_ret {A} (a : A) w : runs (ret a) w a w.
Proof. reflexivity. Qed.

(** Bind is associative, run by run. *)
Lemma bind_assoc {A B C} (m : M A) (k : A -> M B) (h : B -> M C) w :
  bind (bind m k) h w = bind m (fun a => bind (k a) h) w.
Proof. unfold bind. destruct (m w) as [[a|e] w1]; reflexivity. Qed.

Lemma bind_ext {A B} (m : M A) (k k' : A -> M B) w :
  (forall a w1, k a w1 = k' a w1) -> bind m k w = bind m k' w.
Proof. intros H. unfold bind. destruct (m w) as [[a|e] w1]; auto. Qed.

Lemma bind_ret_l {A B} (a : A) (k : A -> M B) w : bind (ret a) k w = k a w.
Proof. reflexivity. Qed.

(** *** Invariants *)

Section Inv.
Variable I : World -> Prop.

Lemma inv_ret {A} (a : A) : inv I (ret a).
Proof. intros w H. exact H. Qed.

Lemma inv_throw {A} e : inv I (@throw A e).
Proof. intros w H. exact H. Qed.

Lemma inv_gets {A} (f : World -> A) : inv I (gets f).
Proof. intros w H. exact H. Qed.

Lemma inv_pure {A} (o : Outcome A) : inv I (fun w => (o, w)).
Proof. intros w H. exact H. Qed.

Lemma inv_bind {A B} (m : M A) (k : A -> M B) :
  inv I m -> (forall a, inv I (k a)) -> inv I (bind m k).
Proof.
  intros Hm Hk w H. unfold bind. specialize (Hm w H).
  destruct (m w) as [[a|e] w1]; simpl in *; [apply Hk; exact Hm|exact Hm].
Qed.

Lemma inv_modify (f : World -> World) :
  (forall w, I w -> I (f w)) -> inv I (modify f).
Proof. intros Hf w H. apply Hf. exact H. Qed.

Lemma inv_call (c : Call) :
  (forall w f, I w -> I (mkWorld (sheets w) (lock w) f (log w ++ [c]))) ->
  inv I (call c).
Proof.
  intros Hc w H. unfold call. destruct (faults w) as [[|n]|]; simpl; auto.
Qed.

End Inv.

(** *** The world after a write *)

Lemma sheets_set_sheet_same id s w : sheets (set_sheet id s w) id = s.
Proof. simpl. rewrite String.eqb_refl. reflexivity. Qed.

Lemma sheets_set_sheet_other id s w id' :
  id' <> id -> sheets (set_sheet id s w) id' = sheets w id'.
Proof. intros H. simpl. apply String.eqb_neq in H. rewrite H. reflexivity. Qed.

(** *** Host calls that complete *)

Lemma call_runs c w : faults w = None -> runs (call c) w tt (logged c w).
Proof. unfold runs, call, logged. intros ->. reflexivity. Qed.

Ltac host_run :=
  unfold runs; intros;
  repeat (erewrite bind_ok; [|first [apply call_runs; assumption | reflexivity]]).

Lemma getLastRow_runs s w :
  faults w = None ->
  runs (getLastRow s) w (lastRow (sheets w s)) (logged (CGetLastRow s) w).
Proof. unfold getLastRow. host_run. reflexivity. Qed.

Lemma getLastColumn_runs s w :
  faults w = None ->
  runs (getLastColumn s) w (lastColumn (sheets w s)) (logged (CGetLastColumn s) w).
Proof. unfold getLastColumn. host_run. reflexivity. Qed.

Lemma getMaxRows_runs s w :
  faults w = None ->
  runs (getMaxRows s) w (maxRows (sheets w s)) (logged (CGetMaxRows s) w).
Proof. unfold getMaxRows. host_run. reflexivity. Qed.

Lemma getMaxColumns_runs s w :
  faults w = None ->
  runs (getMaxColumns s) w (maxColumns (sheets w s)) (logged (CGetMaxColumns s) w).
Proof. unfold getMaxColumns. host_run. reflexivity. Qed.

Lemma getFrozenRows_runs s w :
  faults w = None ->
  runs (getFrozenRows s) w (frozenRows (sheets w s)) (logged (CGetFrozenRows s) w).
Proof. unfold getFrozenRows. host_run. reflexivity. Qed.

Lemma getRange_runs s r c nr nc w :
  1 <= r -> 1 <= c -> 1 <= nr -> 1 <= nc ->
  runs (getRange s r c nr nc) w (mkRange s r c nr nc) w.
Proof.
  intros. unfold runs, getRange.
  destruct (Z.leb_spec 1 r); [|lia]. destruct (Z.leb_spec 1 c); [|lia].
  destruct (Z.leb_spec 1 nr); [|lia]. destruct (Z.leb_spec 1 nc); [|lia].
  reflexivity.
Qed.

Lemma valid_row_true w s k :
  1 <= k <= maxRows (sheets w s) -> valid_row w s k = true.
Proof.
  intros H. unfold valid_row.
  destruct (Z.leb_spec 1 k); [|lia].
  destruct (Z.leb_spec k (maxRows (sheets w s))); [|lia]. reflexivity.
Qed.

Lemma insertRowAfter_runs s k w :
  faults w = None -> 1 <= k <= maxRows (sheets w s) ->
  runs (insertRowAfter s k) w tt
       (set_sheet s (insert_row (k + 1) (sheets w s)) (logged (CInsertRowAfter s k) w)).
Proof.
  intros Hf Hk. unfold runs, insertRowAfter, bind, gets.
  rewrite (valid_row_true _ _ _ Hk). rewrite (call_runs _ _ Hf). reflexivity.
Qed.

Lemma insertRowBefore_runs s k w :
  faults w = None -> 1 <= k <= maxRows (sheets w s) ->
  runs (insertRowBefore s k) w tt
       (set_sheet s (insert_row k (sheets w s)) (logged (CInsertRowBefore s k) w)).
Proof.
  intros Hf Hk. unfold runs, insertRowBefore, bind, gets.
  rewrite (valid_row_true _ _ _ Hk). rewrite (call_runs _ _ Hf). reflexivity.
Qed.

Lemma deleteRow_runs s k w :
  faults w = None -> 1 <= k <= maxRows (sheets w s) ->
  runs (deleteRow s k) w tt
       (set_sheet s (delete_row k (sheets w s)) (logged (CDeleteRow s k) w)).
Proof.
  intros Hf Hk. unfold runs, deleteRow, bind, gets.
  rewrite (valid_row_true _ _ _ Hk). rewrite (call_runs _ _ Hf). reflexivity.
Qed.

Lemma getValues_runs rg w :
  faults w = None ->
  runs (getValues rg) w (map (map value) (range_cells (sheets w (getSheet rg)) rg))
       (logged (CGetValues rg) w).
Proof. unfold getValues. host_run. reflexivity. Qed.

Lemma isBlank_runs rg w :
  faults w = None ->
  runs (isBlank rg) w
       (forallb (forallb (fun c => negb (has_content c)))
                (range_cells (sheets w (getSheet rg)) rg))
       (logged (CIsBlank rg) w).
Proof. unfold isBlank. host_run. reflexivity. Qed.

Lemma waitLock_runs t w :
  faults w = None -> lock w <> HeldByOther ->
  runs (waitLock t) w tt (set_lock HeldByUs (logged (CWaitLock t) w)).
Proof.
  intros Hf Hl. unfold runs, waitLock, bind, gets. rewrite (call_runs _ _ Hf).
  simpl. destruct (lock w); try reflexivity. congruence.
Qed.

Lemma releaseLock_runs w :
  faults w = None -> lock w = HeldByUs ->
  runs releaseLock w tt (set_lock Free (logged CReleaseLock w)).
Proof.
  intros Hf Hl. unfold runs, releaseLock, bind, gets. rewrite (call_runs _ _ Hf).
  simpl. rewrite Hl. reflexivity.
Qed.

End Rules.

Import Rules.

(* ===================================================================== *)
(** ** Placement: [getFirstEmptyRow] *)
(* ===================================================================== *)

Module Placement.

(** The last step of [getFirstEmptyRow]: a row is inserted at [row]. *)
Lemma reserve_runs (sheet : SheetId) (row max : Z) (w : World) :
  faults w = None ->
  1 <= row -> 1 <= max <= maxRows (sheets w sheet) -> row <= max + 1 ->
  runs (if row >? max
        then insertRowAfter sheet max ;; getRange2 sheet (max + 1) 1
        else insertRowBefore sheet row ;; getRange2 sheet row 1)
       w (mkRange sheet row 1 1 1)
       (set_sheet sheet (insert_row row (sheets w sheet))
                  (logged (reserve_call sheet row max) w)).
Proof.
  intros Hf Hrow Hmax Hle. unfold reserve_call.
  destruct (Z.gtb_spec row max) as [Hgt|Hngt].
  - assert (row = max + 1) as -> by lia.
    eapply runs_bind; [apply insertRowAfter_runs; auto|].
    apply getRange_runs; lia.
  - eapply runs_bind; [apply insertRowBefore_runs; auto; lia|].
    apply getRange_runs; lia.
Qed.

(** The path taken when [ignoreCheckboxes] is set: the row after the last
    row with content is reserved. *)
Lemma getFirstEmptyRow_append_runs (sheet : SheetId) (index : Z) (w : World) :
  faults w = None ->
  1 <= maxRows (sheets w sheet) ->
  let s := sheets w sheet in
  runs (getFirstEmptyRow sheet index true) w
       (mkRange sheet (lastRow s + 1) 1 1 1)
       (set_sheet sheet (insert_row (lastRow s + 1) s)
          (logged (reserve_call sheet (lastRow s + 1) (maxRows s))
             (logged (CGetMaxRows sheet) (logged (CGetLastRow sheet) w)))).
Proof.
  intros Hf Hmax s. subst s. unfold getFirstEmptyRow.
  pose proof (lastRow_bounds (sheets w sheet)) as [HL0 HL1].
  eapply runs_bind.
  - eapply runs_bind; [apply getLastRow_runs; exact Hf|].
    eapply runs_bind; [apply getMaxRows_runs; exact Hf|].
    apply runs_ret.
  - cbn [fst snd sheets logged].
    apply (reserve_runs sheet (lastRow (sheets w sheet) + 1) (maxRows (sheets w sheet))
             (logged (CGetMaxRows sheet) (logged (CGetLastRow sheet) w)));
      cbn [sheets logged faults]; auto; lia.
Qed.

End Placement.

Import Placement.

(** C7.  On the path [getFirstEmptyRow] takes when [ignoreCheckboxes] is set
    (the append placement), for every sheet with at least one row and when
    no host call fails: the range returned is the cell in column 1 of the
    row after the last row with content; a blank row has been inserted at
    that position (the rows up to the last data row are unchanged, the rows
    after it have moved down by one); the sheet has one row more than
    before, and when the last data row was the last row of the sheet the row
    was allocated after it with [insertRowAfter], so the call does not
    fail. *)
Theorem getFirstEmptyRow_append_reserves_row_after_last
    (sheet : SheetId) (index : Z) (w : World) :
  faults w = None ->
  1 <= maxRows (sheets w sheet) ->
  let s := sheets w sheet in
  let L := lastRow s in
  let res := getFirstEmptyRow sheet index true w in
  let s' := sheets (snd res) sheet in
  fst res = Ok (mkRange sheet (L + 1) 1 1 1)
  /\ maxRows s' = maxRows s + 1
  /\ (forall c, cellAt s' (L + 1) c = blankCell)
  /\ (forall r c, r <= L -> cellAt s' r c = cellAt s r c)
  /\ (forall r c, L + 1 < r -> cellAt s' r c = cellAt s (r - 1) c)
  /\ (forall id, id <> sheet -> sheets (snd res) id = sheets w id)
  /\ (maxRows s < L + 1 ->
      log (snd res) = (log w ++ [CGetLastRow sheet; CGetMaxRows sheet;
                                 CInsertRowAfter sheet (maxRows s)])%list)
  /\ (L + 1 <= maxRows s ->
      log (snd res) = (log w ++ [CGetLastRow sheet; CGetMaxRows sheet;
                                 CInsertRowBefore sheet (L + 1)])%list).
Proof.
  intros Hf Hmax. cbv zeta.
  pose proof (Placement.getFirstEmptyRow_append_runs sheet index w Hf Hmax) as Hrun.
  cbv zeta in Hrun. unfold runs in Hrun. rewrite Hrun. cbn [fst snd].
  rewrite sheets_set_sheet_same.
  pose proof (lastRow_bounds (sheets w sheet)) as [HL0 HL1].
  set (s := sheets w sheet) in *. set (L := lastRow s) in *.
  assert (1 <= L + 1 <= maxRows s + 1) as Hk by lia.
  split; [reflexivity|].
  split; [reflexivity|].
  split; [intros c; rewrite cellAt_insert_row by exact Hk;
          rewrite Z.ltb_irrefl, Z.eqb_refl; reflexivity|].
  split; [intros r c Hr; rewrite cellAt_insert_row by exact Hk;
          destruct (Z.ltb_spec r (L + 1)); [reflexivity|lia]|].
  split; [intros r c Hr; rewrite cellAt_insert_row by exact Hk;
          destruct (Z.ltb_spec r (L + 1)); [lia|];
          destruct (Z.eqb_spec r (L + 1)); [lia|reflexivity]|].
  split; [intros id Hid; rewrite sheets_set_sheet_other by exact Hid; reflexivity|].
  split; intros Hcmp; cbn [log set_sheet logged];
    unfold reserve_call;
    (destruct (Z.gtb_spec (L + 1) (maxRows s)); [|try lia]; try lia);
    rewrite <- !app_assoc; reflexivity.
Qed.

(* ===================================================================== *)
(** ** The two scans of [getFirstEmptyRow] *)
(* ===================================================================== *)

Module Scan.

Lemma same_but_log_refl w : same_but_log w w.
Proof.
  repeat split; auto. exists []. split; [symmetry; apply app_nil_r|reflexivity].
Qed.

Lemma same_but_log_trans w1 w2 w3 :
  same_but_log w1 w2 -> same_but_log w2 w3 -> same_but_log w1 w3.
Proof.
  intros (Hs & Hl & Hf & d & Hd & Hr) (Hs' & Hl' & Hf' & d' & Hd' & Hr').
  repeat split; try congruence.
  exists (d ++ d')%list. split; [rewrite Hd', Hd, app_assoc; reflexivity|].
  rewrite forallb_app, Hr, Hr'. reflexivity.
Qed.

Lemma same_but_log_logged c w : is_read c = true -> same_but_log w (logged c w).
Proof.
  intros Hc. repeat split; auto. exists [c]. split; [reflexivity|].
  cbn [forallb]. rewrite Hc. reflexivity.
Qed.

Lemma same_but_log_logged_after c w w1 :
  is_read c = true -> same_but_log w w1 -> same_but_log w (logged c w1).
Proof.
  intros Hc H. eapply same_but_log_trans; [exact H|].
  apply same_but_log_logged. exact Hc.
Qed.

Lemma reads_delete_nothing (delta : list Call) :
  forallb is_read delta = true -> deletions delta = [].
Proof.
  induction delta as [|c l IH]; [reflexivity|]. cbn [forallb deletions filter].
  intros H. apply andb_prop in H. destruct H as [Hc Hl].
  destruct c; try discriminate; cbn [is_delete]; apply IH; exact Hl.
Qed.

Lemma same_but_log_deletions w w' :
  same_but_log w w' -> deletions (log w') = deletions (log w).
Proof.
  intros (_ & _ & _ & d & Hd & Hr). rewrite Hd. unfold deletions at 1.
  rewrite filter_app. fold (deletions (log w)). fold (deletions d).
  rewrite (reads_delete_nothing d Hr). apply app_nil_r.
Qed.

Ltac reads :=
  repeat (apply same_but_log_logged_after; [reflexivity|]);
  first [apply same_but_log_refl | assumption].

(** *** The backward loop *)

Lemma do_while_back_spec (fuel : nat) (min : Z) (data : list Value) (i : Z) :
  0 <= i -> (Z.to_nat i <= fuel)%nat ->
  let r := do_while_back fuel min data i in
  -1 <= r <= i - 1
  /\ (forall j, r < j <= i - 1 -> min <= j /\ empty_at data j = true)
  /\ (min <= r -> empty_at data r = false).
Proof.
  revert i. induction fuel as [|fuel IH]; intros i Hi Hfuel; cbn [do_while_back].
  - assert (i = 0) as -> by lia. cbv zeta. simpl. repeat split; try lia.
  - cbv zeta. fold (empty_at data (i - 1)).
    destruct (Z.geb_spec (i - 1) min) as [Hge|Hlt]; cbn [andb].
    + destruct (empty_at data (i - 1)) eqn:E.
      * assert (0 <= i - 1) as Hi'.
        { destruct (Z_lt_dec (i - 1) 0) as [Hneg|]; [|lia].
          unfold empty_at, index in E.
          destruct (Z.ltb_spec (i - 1) 0); [discriminate|lia]. }
        specialize (IH (i - 1) Hi' ltac:(lia)). cbv zeta in IH.
        destruct IH as (Hb & Hall & Hstop).
        split; [lia|]. split; [|exact Hstop].
        intros j Hj. destruct (Z.eq_dec j (i - 1)) as [->|Hne]; [split; [lia|exact E]|].
        apply Hall. lia.
      * split; [lia|]. split; [intros j Hj; lia|]. intros _. exact E.
    + split; [lia|]. split; [intros j Hj; lia|]. intros Hmin. lia.
Qed.

Lemma seqZ_one (a : Z) : seqZ a 1 = [a].
Proof. unfold seqZ. simpl. f_equal. lia. Qed.

(** The values of one column, as [getValues] and [flat] give them. *)
Lemma column_values (s : Sheet) (sheet : SheetId) (index max : Z) :
  flat (map (map value) (range_cells s (mkRange sheet 1 index max 1)))
  = map (fun r => value (cellAt s r index)) (seqZ 1 max).
Proof.
  unfold flat, range_cells. cbn [getRow getColumn getNumRows getNumColumns].
  rewrite seqZ_one, map_map.
  induction (seqZ 1 max) as [|r l IH]; [reflexivity|].
  cbn [map List.concat app] in *. rewrite IH. reflexivity.
Qed.

Lemma index_seqZ_map {A} (f : Z -> A) (n j : Z) :
  0 <= j < n -> index (map f (seqZ 1 n)) j = Some (f (j + 1)).
Proof.
  intros Hj. unfold index. destruct (Z.ltb_spec j 0); [lia|].
  unfold seqZ. rewrite map_map.
  rewrite nth_error_map. rewrite nth_error_seq.
  destruct (Nat.ltb_spec (Z.to_nat j) (Z.to_nat n)); [|lia].
  cbn [option_map]. f_equal. f_equal. lia.
Qed.

Lemma empty_at_column (s : Sheet) (index max j : Z) :
  0 <= j < max ->
  empty_at (map (fun r => value (cellAt s r index)) (seqZ 1 max)) j
  = is_empty_string (value (cellAt s (j + 1) index)).
Proof. intros Hj. unfold empty_at. rewrite index_seqZ_map by exact Hj. reflexivity. Qed.

(** *** The forward loop *)

Lemma forallb_negb_existsb {A} (p : A -> bool) (l : list A) :
  forallb (fun x => negb (p x)) l = negb (existsb p l).
Proof.
  induction l as [|x l IH]; [reflexivity|]. cbn [forallb existsb].
  rewrite IH, negb_orb. reflexivity.
Qed.

Lemma forallb_map_compose {A B} (p : B -> bool) (f : A -> B) (l : list A) :
  forallb p (map f l) = forallb (fun x => p (f x)) l.
Proof. induction l as [|x l IH]; [reflexivity|]. cbn [map forallb]. rewrite IH. reflexivity. Qed.

(** [isBlank] on a whole row of the grid. *)
Lemma row_isBlank (s : Sheet) (sheet : SheetId) (r : Z) :
  forallb (forallb (fun c => negb (has_content c)))
          (range_cells s (mkRange sheet r 1 1 (maxColumns s)))
  = negb (row_has_content s r).
Proof.
  unfold range_cells, row_has_content.
  cbn [getRow getColumn getNumRows getNumColumns].
  rewrite seqZ_one. cbn [map forallb].
  rewrite andb_true_r, forallb_map_compose.
  apply (forallb_negb_existsb (fun c => has_content (cellAt s r c))).
Qed.

Lemma do_while_forward_runs (fuel : nat) (sheet : SheetId) (max : Z) :
  forall (i : Z) (w : World),
    faults w = None ->
    1 <= maxColumns (sheets w sheet) -> 0 <= i + 1 ->
    fuel = Z.to_nat (max - i) ->
    let s := sheets w sheet in
    exists i' w',
      runs (do_while_forward fuel sheet (maxColumns s) max false i) w i' w'
      /\ same_but_log w w'
      /\ i + 1 <= i' <= Z.max (i + 1) max
      /\ (forall j, i + 1 <= j < i' -> row_has_content s (j + 1) = true)
      /\ (i' < max -> row_has_content s (i' + 1) = false).
Proof.
  induction fuel as [|fuel IH]; intros i w Hf Hcols Hi Hfuel s; cbn [do_while_forward].
  - exists (i + 1), w. split; [apply runs_ret|].
    split; [apply same_but_log_refl|]. repeat split; try lia.
  - cbv zeta. destruct (Z.ltb_spec (i + 1) max) as [Hlt|Hge];
      [|exists (i + 1), w; split; [reflexivity|]; split; [apply same_but_log_refl|];
        split; [lia|]; split; intros; lia].
    pose (w1 := logged (CIsBlank (mkRange sheet (i + 1 + 1) 1 1 (maxColumns s))) w).
    assert (runs (row <- getRange sheet (i + 1 + 1) 1 1 (maxColumns s) ;;
                  empty <- isRangeEmpty row false ;; ret (negb empty)) w
                 (row_has_content s (i + 1 + 1)) w1) as Hcond.
    { eapply runs_bind; [apply getRange_runs; subst s; lia|].
      eapply runs_bind; [unfold isRangeEmpty; cbn [negb]; apply isBlank_runs; exact Hf|].
      cbn [getSheet]. fold s. rewrite row_isBlank, negb_involutive. apply runs_ret. }
    destruct (row_has_content s (i + 1 + 1)) eqn:E.
    + destruct (IH (i + 1) w1) as (i' & w' & Hrun & Hsame & Hb & Hall & Hstop);
        [exact Hf|exact Hcols|lia|lia|].
      cbv zeta in Hrun. cbn [sheets w1 logged] in Hrun, Hall, Hstop. fold s in Hrun, Hall, Hstop.
      exists i', w'. split; [eapply runs_bind; [exact Hcond|exact Hrun]|].
      split; [eapply same_but_log_trans; [|exact Hsame]; apply same_but_log_logged; reflexivity|].
      split; [lia|]. split; [|exact Hstop].
      intros j Hj. destruct (Z.eq_dec j (i + 1)) as [->|Hne]; [exact E|].
      apply Hall. lia.
    + exists (i + 1), w1. split; [eapply runs_bind; [exact Hcond|apply runs_ret]|].
      split; [apply same_but_log_logged; reflexivity|].
      split; [lia|]. split; [intros j Hj; lia|]. intros _. exact E.
Qed.

End Scan.

Import Scan.

(** The scan as a whole. *)
Module GapScan.

(** The path taken when [ignoreCheckboxes] is not set. *)
Lemma getFirstEmptyRow_scan_runs (sheet : SheetId) (index : Z) (w : World) :
  let s := sheets w sheet in
  let F := frozenRows s in
  let L := lastRow s in
  faults w = None ->
  1 <= index -> 0 <= F -> 1 <= maxColumns s -> 1 <= L ->
  exists start R w1,
    runs (getFirstEmptyRow sheet index false) w (mkRange sheet R 1 1 1)
         (set_sheet sheet (insert_row R s) (logged (reserve_call sheet R L) w1))
    /\ same_but_log w w1
    /\ 1 <= start <= L
    /\ (forall r, start < r <= L ->
          F + 1 < r /\ is_empty_string (value (cellAt s r index)) = true)
    /\ (F + 1 < start -> is_empty_string (value (cellAt s start index)) = false)
    /\ start <= R <= L + 1
    /\ (forall r, start <= r < R -> row_has_content s r = true)
    /\ (R <= L -> row_has_content s R = false).
Proof.
  intros s F L Hf Hindex HF Hcols HL.
  set (rg := mkRange sheet 1 index L 1).
  set (wA := logged (CGetValues rg) (logged (CGetLastRow sheet)
               (logged (CGetFrozenRows sheet) (logged (CGetMaxColumns sheet) w)))).
  set (data := map (fun r => value (cellAt s r index)) (seqZ 1 L)).
  set (ib := do_while_back (Z.to_nat L) (F + 1) data L).
  pose proof (do_while_back_spec (Z.to_nat L) (F + 1) data L ltac:(lia) ltac:(lia))
    as (Hb & Hall & Hstop). fold ib in Hb, Hall, Hstop.
  assert (0 <= ib) as Hib0.
  { destruct (Z_lt_dec ib (L - 1)) as [Hlt|]; [|lia].
    destruct (Hall (ib + 1) ltac:(lia)). lia. }
  destruct (do_while_forward_runs (Z.to_nat (L - (ib - 1))) sheet L (ib - 1) wA)
    as (i' & w1 & Hrun & Hsame & Hb' & Hall' & Hstop');
    [exact Hf|exact Hcols|lia|reflexivity|].
  cbv zeta in Hrun. cbn [sheets wA logged] in Hrun, Hall', Hstop'.
  fold s in Hrun, Hall', Hstop'.
  assert (same_but_log w w1) as Hww1.
  { eapply same_but_log_trans; [|exact Hsame]. unfold wA. reads. }
  pose proof (lastRow_bounds s) as [_ HLmax]. fold L in HLmax.
  exists (ib + 1), (i' + 1), w1.
  split.
  { unfold getFirstEmptyRow. eapply runs_bind.
    - eapply runs_bind; [apply getMaxColumns_runs; exact Hf|].
      eapply runs_bind; [apply getFrozenRows_runs; exact Hf|].
      eapply runs_bind; [apply getLastRow_runs; exact Hf|].
      cbn [sheets logged]. fold s. fold L. fold F.
      eapply runs_bind; [apply getRange_runs; lia|].
      eapply runs_bind; [apply getValues_runs; exact Hf|].
      cbn [sheets logged getSheet]. fold s.
      rewrite column_values. fold data. cbv zeta. fold ib.
      eapply runs_bind; [exact Hrun|]. apply runs_ret.
    - cbn [fst snd]. destruct Hww1 as (Hs1 & _ & Hf1 & _).
      replace s with (sheets w1 sheet) by (rewrite Hs1; reflexivity).
      apply reserve_runs; rewrite ?Hs1; fold s; try lia. congruence. }
  split; [exact Hww1|].
  split; [lia|].
  split.
  { intros r Hr. destruct (Hall (r - 1) ltac:(lia)) as [Hmin He].
    split; [lia|]. unfold data in He. rewrite empty_at_column in He by lia.
    replace (r - 1 + 1) with r in He by lia. exact He. }
  split.
  { intros Hst. specialize (Hstop ltac:(lia)). unfold data in Hstop.
    rewrite empty_at_column in Hstop by lia. exact Hstop. }
  split; [lia|].
  split.
  { intros r Hr. specialize (Hall' (r - 1) ltac:(lia)).
    replace (r - 1 + 1) with r in Hall' by lia. exact Hall'. }
  intros HR. apply Hstop'. lia.
Qed.

End GapScan.

Import GapScan.

(* ===================================================================== *)
(** ** [getRangesInUse] and [sweep] *)
(* ===================================================================== *)

Module Sweep.

Lemma copyTo_runs (range destination : Range) (w : World) :
  faults w = None ->
  runs (copyTo range destination) w tt
       (set_sheet (getSheet destination)
          (write_block (getRow destination) (getColumn destination)
             (getNumRows range) (getNumColumns range)
             (fun r c => value (cellAt (sheets w (getSheet range))
                                       (r - getRow destination + getRow range)
                                       (c - getColumn destination + getColumn range)))
             (sheets w (getSheet destination)))
          (logged (CCopyTo range destination) w)).
Proof.
  intros Hf. unfold runs, copyTo. rewrite (bind_ok _ _ _ _ _ (call_runs _ _ Hf)).
  reflexivity.
Qed.

(** The values [getValues] reports for one row of a sheet. *)
Lemma row_values (s : Sheet) (sheet : SheetId) (r n : Z) :
  map (map value) (range_cells s (mkRange sheet r 1 1 n))
  = [map (fun c => value (cellAt s r c)) (seqZ 1 n)].
Proof.
  unfold range_cells. cbn [getRow getColumn getNumRows getNumColumns].
  rewrite seqZ_one. cbn [map]. rewrite map_map. reflexivity.
Qed.

Lemma existsb_map_compose {A B} (p : B -> bool) (f : A -> B) (l : list A) :
  existsb p (map f l) = existsb (fun x => p (f x)) l.
Proof. induction l as [|x l IH]; [reflexivity|]. cbn [map existsb]. rewrite IH. reflexivity. Qed.

Lemma seqZ_succ (a : Z) (n : nat) :
  seqZ a (Z.of_nat (S n)) = a :: seqZ (a + 1) (Z.of_nat n).
Proof.
  unfold seqZ. rewrite !Nat2Z.id. cbn [seq map]. f_equal; [lia|].
  rewrite <- seq_shift, map_map. apply map_ext. intros i. lia.
Qed.

Lemma content_within_lastColumn (s : Sheet) (r c : Z) :
  has_content (cellAt s r c) = true -> 1 <= c <= lastColumn s.
Proof.
  intros H. split.
  - destruct (Z_lt_dec c 1); [|lia]. rewrite cellAt_col_outside in H by auto. discriminate.
  - destruct (Z_lt_dec (lastColumn s) c); [|lia].
    rewrite no_content_right_of_lastColumn in H by auto. discriminate.
Qed.

Lemma no_content_value (c : Cell) : has_content c = false -> value c = VStr "".
Proof.
  unfold has_content. destruct (value c) as [x| |]; cbn; try discriminate.
  destruct (String.eqb_spec x ""); [intros _; subst; reflexivity|discriminate].
Qed.

Lemma getRangesInUse_for_runs (sheet : SheetId) (n : nat) :
  forall (i : Z) (acc : list Range) (w : World),
    let s := sheets w sheet in
    faults w = None -> 0 <= frozenRows s -> 0 <= i ->
    (n <> O -> 1 <= lastColumn s) ->
    exists w',
      runs (getRangesInUse_for n sheet (frozenRows s) (lastColumn s) i acc) w
           (acc ++ map (row_range sheet (lastColumn s))
                       (filter (row_has_content s)
                               (seqZ (i + 1 + frozenRows s) (Z.of_nat n))))%list
           w'
      /\ same_but_log w w'.
Proof.
  induction n as [|n IH]; intros i acc w s Hf HF Hi HLC.
  - exists w. split; [|apply same_but_log_refl].
    cbn [getRangesInUse_for]. unfold seqZ. cbn. rewrite app_nil_r. apply runs_ret.
  - specialize (HLC ltac:(discriminate)).
    set (rg := mkRange sheet (i + 1 + frozenRows s) 1 1 (lastColumn s)).
    set (w1 := logged (CGetValues rg) w).
    set (acc1 := if row_has_content s (i + 1 + frozenRows s)
                 then (acc ++ [rg])%list else acc).
    destruct (IH (i + 1) acc1 w1 Hf HF ltac:(lia) (fun _ => HLC)) as (w' & Hrun & Hsame).
    cbv zeta in Hrun. cbn [sheets w1 logged] in Hrun. fold s in Hrun.
    exists w'. split.
    + cbn [getRangesInUse_for]. cbv zeta.
      eapply runs_bind; [apply getRange_runs; lia|].
      eapply runs_bind; [apply getValues_runs; exact Hf|].
      cbn [getSheet]. fold s. rewrite row_values.
      unfold some. rewrite existsb_map_compose.
      change (existsb (fun x => negb (is_empty_string (value (cellAt s (i + 1 + frozenRows s) x))))
                      (seqZ 1 (lastColumn s)))
        with (existsb (fun c => has_content (cellAt s (i + 1 + frozenRows s) c))
                      (seqZ 1 (lastColumn s))).
      rewrite row_has_content_upto_lastColumn.
      fold rg. fold w1. fold acc1.
      rewrite seqZ_succ. cbn [filter].
      replace (i + 1 + frozenRows s + 1) with (i + 1 + 1 + frozenRows s) by lia.
      unfold acc1 in Hrun.
      destruct (row_has_content s (i + 1 + frozenRows s)).
      * cbn [map]. rewrite <- app_assoc in Hrun. exact Hrun.
      * exact Hrun.
    + eapply same_but_log_trans; [|exact Hsame]. apply same_but_log_logged; reflexivity.
Qed.

Lemma In_rows_in_use (s : Sheet) (r : Z) :
  In r (rows_in_use s) <-> frozenRows s < r /\ row_has_content s r = true.
Proof.
  unfold rows_in_use. rewrite filter_In, In_seqZ. split.
  - intros [H1 H2]. split; [lia|exact H2].
  - intros [H1 H2]. split; [|exact H2].
    destruct (Z_lt_dec (lastRow s) r) as [Hlt|]; [|lia].
    rewrite (lastRow_above s r Hlt) in H2. discriminate.
Qed.

Lemma getRangesInUse_runs (sheet : SheetId) (w : World) :
  let s := sheets w sheet in
  faults w = None -> 0 <= frozenRows s ->
  exists w',
    runs (getRangesInUse sheet true) w
         (map (row_range sheet (lastColumn s)) (rows_in_use s)) w'
    /\ same_but_log w w'.
Proof.
  intros s Hf HF.
  set (w3 := logged (CGetLastColumn sheet) (logged (CGetLastRow sheet)
               (logged (CGetFrozenRows sheet) w))).
  destruct (getRangesInUse_for_runs sheet (Z.to_nat (lastRow s - frozenRows s)) 0 [] w3)
    as (w' & Hrun & Hsame); auto; try lia.
  { cbn [sheets w3 logged]. fold s. intros Hn.
    assert (1 <= lastRow s) as HL by lia.
    pose proof (lastRow_has_content s HL) as Hc.
    apply row_has_content_true in Hc. destruct Hc as [c Hc].
    apply content_within_lastColumn in Hc. lia. }
  cbv zeta in Hrun. cbn [sheets w3 logged app] in Hrun. fold s in Hrun.
  exists w'. split.
  - unfold getRangesInUse.
    eapply runs_bind; [apply getFrozenRows_runs; exact Hf|].
    eapply runs_bind; [apply getLastRow_runs; exact Hf|].
    eapply runs_bind; [apply getLastColumn_runs; exact Hf|].
    cbn [sheets logged]. fold s. fold w3.
    unfold rows_in_use.
    replace (seqZ (frozenRows s + 1) (lastRow s - frozenRows s))
      with (seqZ (0 + 1 + frozenRows s) (Z.of_nat (Z.to_nat (lastRow s - frozenRows s)))).
    + exact Hrun.
    + unfold seqZ. rewrite Nat2Z.id. apply map_ext. intros; lia.
  - eapply same_but_log_trans; [|exact Hsame]. unfold w3. reads.
Qed.

End Sweep.

Import Sweep.

(** One move with the options [sweep] uses. *)
Module Move.

Lemma deletions_app (l1 l2 : list Call) :
  deletions (l1 ++ l2) = (deletions l1 ++ deletions l2)%list.
Proof. apply filter_app. Qed.

Lemma is_delete_reserve_call sheet row max :
  is_delete (reserve_call sheet row max) = false.
Proof. unfold reserve_call. destruct (row >? max); reflexivity. Qed.

(** One step of [sweep] with [deleteFromSource]: a whole row is moved with
    the default options. *)
Lemma move_runs (src dst : SheetId) (r cols : Z) (w : World) :
  let sS := sheets w src in
  let d := sheets w dst in
  let Ld := lastRow d in
  src <> dst -> faults w = None -> lock w <> HeldByOther ->
  1 <= r <= maxRows sS -> 1 <= cols -> 1 <= maxRows d ->
  exists w',
    runs (moveToFirstEmptyRow (row_range src cols r) dst false None true true) w
         (mkRange dst (Ld + 1) 1 1 cols) w'
    /\ sheets w' src = delete_row r sS
    /\ sheets w' dst
       = write_block (Ld + 1) 1 1 cols
           (fun r' c' => value (cellAt sS (r' - (Ld + 1) + r) (c' - 1 + 1)))
           (insert_row (Ld + 1) d)
    /\ (forall id, id <> src -> id <> dst -> sheets w' id = sheets w id)
    /\ lock w' = Free /\ faults w' = None
    /\ deletions (log w') = (deletions (log w) ++ [CDeleteRow src r])%list.
Proof.
  intros sS d Ld Hne Hf Hl Hr Hcols Hd.
  pose proof (lastRow_bounds d) as [HL0 HL1]. fold Ld in HL0, HL1.
  assert ((src =? dst)%string = false) as Hsd by (apply String.eqb_neq; exact Hne).
  assert ((dst =? src)%string = false) as Hds
    by (apply String.eqb_neq; intros E; apply Hne; symmetry; exact E).
  eexists. split.
  { unfold moveToFirstEmptyRow. cbn [when].
    eapply runs_bind; [apply waitLock_runs; assumption|].
    eapply runs_bind.
    { unfold copyToFirstEmptyRow. cbn [when].
      eapply runs_bind; [apply runs_ret|].
      eapply runs_bind; [apply runs_ret|].
      eapply runs_bind; [apply getFirstEmptyRow_append_runs; [exact Hf|exact Hd]|].
      cbv zeta. cbn [getRow getColumn getNumColumns row_range sheets set_lock logged].
      fold d. fold Ld.
      eapply runs_bind; [apply getRange_runs; lia|].
      eapply runs_bind; [apply copyTo_runs; exact Hf|].
      eapply runs_bind; [apply runs_ret|].
      eapply runs_bind; [apply runs_ret|].
      eapply runs_bind; [apply runs_ret|].
      apply runs_ret. }
    cbn [getSheet getRow getColumn getNumRows getNumColumns row_range].
    eapply runs_bind.
    { apply deleteRow_runs; [exact Hf|].
      cbn [sheets set_sheet set_lock logged]. rewrite Hsd. exact Hr. }
    eapply runs_bind; [apply releaseLock_runs; [exact Hf|reflexivity]|].
    apply runs_ret. }
  cbn [sheets set_sheet set_lock logged lock faults log].
  rewrite String.eqb_refl, !Hsd, ?Hds, ?String.eqb_refl.
  split; [reflexivity|].
  split; [reflexivity|].
  split.
  { intros id H1 H2. apply String.eqb_neq in H1, H2. rewrite H1, H2. reflexivity. }
  split; [reflexivity|]. split; [exact Hf|].
  rewrite !deletions_app. cbn [deletions filter is_delete].
  fold (deletions [reserve_call dst (Ld + 1) (maxRows d)]).
  unfold deletions at 2. cbn [filter]. rewrite is_delete_reserve_call.
  rewrite !app_nil_r. reflexivity.
Qed.

End Move.

Import Move.

(** The moves of a sweep, one after the other. *)
Module SweepLoop.

Lemma desc_below_In (F b : Z) (rows : list Z) (x : Z) :
  desc_below F b rows -> In x rows -> F < x < b.
Proof.
  revert b. induction rows as [|y t IH]; intros b H Hin; [destruct Hin|].
  destruct H as [Hy Ht]. destruct Hin as [<-|Hin]; [exact Hy|].
  specialize (IH y Ht Hin). lia.
Qed.

(** *** What one move does to the destination sheet *)

Section DestinationStep.
Variables (d sS : Sheet) (r cols : Z).
Local Abbreviation Ld := (lastRow d).
Local Abbreviation d' :=
  (write_block (Ld + 1) 1 1 cols
     (fun r' c' => value (cellAt sS (r' - (Ld + 1) + r) (c' - 1 + 1)))
     (insert_row (Ld + 1) d)).
Hypothesis Hrows : 1 <= maxRows d.

Lemma dst_cell (r' c : Z) :
  cellAt d' r' c
  = if in_block (Ld + 1) 1 1 cols r' c
    then mkCell (value (cellAt sS r c)) None
    else if r' <? Ld + 1 then cellAt d r' c
         else if r' =? Ld + 1 then blankCell
              else cellAt d (r' - 1) c.
Proof.
  pose proof (lastRow_bounds d) as [H0 H1].
  rewrite cellAt_write_block by lia.
  rewrite cellAt_insert_row by lia.
  destruct (in_block (Ld + 1) 1 1 cols r' c) eqn:B; [|reflexivity].
  unfold in_block in B.
  destruct (Z.leb_spec (Ld + 1) r'); [|discriminate].
  destruct (Z.ltb_spec r' (Ld + 1 + 1)); [|discriminate].
  assert (r' = Ld + 1) as -> by lia.
  rewrite Z.ltb_irrefl, Z.eqb_refl. cbn [validation blankCell].
  f_equal. f_equal. f_equal; lia.
Qed.

Lemma dst_below (r' c : Z) : r' <= Ld -> cellAt d' r' c = cellAt d r' c.
Proof.
  intros H. rewrite dst_cell. unfold in_block.
  destruct (Z.leb_spec (Ld + 1) r'); [lia|]. cbn [andb].
  destruct (Z.ltb_spec r' (Ld + 1)); [reflexivity|lia].
Qed.

Lemma dst_new_row (c : Z) :
  (forall c', cols < c' -> has_content (cellAt sS r c') = false) ->
  value (cellAt d' (Ld + 1) c) = value (cellAt sS r c).
Proof.
  intros Hright. rewrite dst_cell. unfold in_block.
  destruct (Z.leb_spec (Ld + 1) (Ld + 1)); [|lia].
  destruct (Z.ltb_spec (Ld + 1) (Ld + 1 + 1)); [|lia]. cbn [andb].
  destruct (Z.leb_spec 1 c); cbn [andb].
  - destruct (Z.ltb_spec c (1 + cols)); [reflexivity|].
    rewrite Z.ltb_irrefl, Z.eqb_refl.
    symmetry. apply no_content_value. apply Hright. lia.
  - rewrite Z.ltb_irrefl, Z.eqb_refl.
    rewrite (cellAt_col_outside sS r c) by lia. reflexivity.
Qed.

Lemma dst_lastRow :
  (exists c, 1 <= c <= cols /\ has_content (cellAt sS r c) = true) ->
  lastRow d' = Ld + 1.
Proof.
  intros (c0 & Hc0 & Hcontent).
  pose proof (lastRow_bounds d) as [H0 H1].
  apply lastRow_unique; [lia| |].
  - intros _. apply row_has_content_true. exists c0.
    rewrite dst_cell. unfold in_block.
    destruct (Z.leb_spec (Ld + 1) (Ld + 1)); [|lia].
    destruct (Z.ltb_spec (Ld + 1) (Ld + 1 + 1)); [|lia].
    destruct (Z.leb_spec 1 c0); [|lia].
    destruct (Z.ltb_spec c0 (1 + cols)); [|lia]. cbn [andb].
    exact Hcontent.
  - intros r' Hr'. apply row_has_content_false. intros c.
    rewrite dst_cell. unfold in_block.
    destruct (Z.ltb_spec r' (Ld + 1 + 1)); [lia|].
    rewrite andb_false_r. cbn [andb].
    destruct (Z.ltb_spec r' (Ld + 1)); [lia|].
    destruct (Z.eqb_spec r' (Ld + 1)); [lia|].
    assert (row_has_content d (r' - 1) = false) as Hnone
      by (apply lastRow_above; lia).
    rewrite row_has_content_false in Hnone. apply Hnone.
Qed.

End DestinationStep.

(** *** The loop of [sweep] that moves the rows *)

Section Loop.
Variables (src dst : SheetId) (s0 : Sheet).
Local Abbreviation F := (frozenRows s0).
Local Abbreviation LC := (lastColumn s0).
Hypothesis Hne : src <> dst.
Hypothesis HF : 0 <= F.

Lemma sweep_loop (rows : list Z) :
  forall (b : Z) (w : World),
    faults w = None -> lock w <> HeldByOther ->
    1 <= maxRows (sheets w dst) ->
    desc_below F b rows ->
    b - 1 <= Z.max 0 (maxRows (sheets w src)) ->
    frozenRows (sheets w src) = F ->
    (forall r' c, r' < b \/ r' <= F -> cellAt (sheets w src) r' c = cellAt s0 r' c) ->
    (forall r' c, b <= r' -> F < r' -> has_content (cellAt (sheets w src) r' c) = false) ->
    (forall r', F < r' < b -> row_has_content s0 r' = true -> In r' rows) ->
    (forall x, In x rows -> row_has_content s0 x = true) ->
    exists w',
      runs (forEach (fun range =>
                       moveToFirstEmptyRow range dst false None true true ;; ret tt)
                    (map (row_range src LC) rows)) w tt w'
      /\ (forall r' c, F < r' -> has_content (cellAt (sheets w' src) r' c) = false)
      /\ (forall r' c, r' <= F -> cellAt (sheets w' src) r' c = cellAt s0 r' c)
      /\ frozenRows (sheets w' src) = F
      /\ maxRows (sheets w' src) = maxRows (sheets w src) - Z.of_nat (List.length rows)
      /\ lastRow (sheets w' dst) = lastRow (sheets w dst) + Z.of_nat (List.length rows)
      /\ (forall r' c, r' <= lastRow (sheets w dst) ->
            cellAt (sheets w' dst) r' c = cellAt (sheets w dst) r' c)
      /\ (forall j, (j < List.length rows)%nat -> forall c,
            value (cellAt (sheets w' dst) (lastRow (sheets w dst) + 1 + Z.of_nat j) c)
            = value (cellAt s0 (nth j rows 0) c))
      /\ deletions (log w') = (deletions (log w) ++ map (CDeleteRow src) rows)%list
      /\ (forall id, id <> src -> id <> dst -> sheets w' id = sheets w id).
Proof.
  induction rows as [|r t IH];
    intros b w Hf Hl Hd Hdesc Hb Hfrozen Hsame Hempty Hcomplete Hcontent.
  - exists w. split; [reflexivity|].
    split.
    { intros r' c Hr'. destruct (Z_lt_dec r' b) as [Hlt|Hge]; [|apply Hempty; lia].
      rewrite Hsame by lia.
      destruct (row_has_content s0 r') eqn:E.
      - destruct (Hcomplete r' ltac:(lia) E).
      - rewrite row_has_content_false in E. apply E. }
    split; [intros r' c Hr'; apply Hsame; lia|].
    split; [exact Hfrozen|].
    split; [cbn [List.length]; lia|].
    split; [cbn [List.length]; lia|].
    split; [reflexivity|].
    split; [intros j Hj; cbn [List.length] in Hj; lia|].
    split; [cbn [map]; rewrite app_nil_r; reflexivity|].
    reflexivity.
  - destruct Hdesc as [Hr Hdesc].
    assert (1 <= r <= maxRows (sheets w src)) as Hvalid by lia.
    pose proof (Hcontent r (or_introl eq_refl)) as Hrc.
    apply row_has_content_true in Hrc. destruct Hrc as [c0 Hc0].
    pose proof (content_within_lastColumn s0 r c0 Hc0) as Hc0b.
    destruct (move_runs src dst r LC w Hne Hf Hl Hvalid ltac:(lia) Hd)
      as (w1 & Hrun1 & Hsrc1 & Hdst1 & Hother1 & Hlock1 & Hf1 & Hdel1).
    assert (forall c, cellAt (sheets w src) r c = cellAt s0 r c) as Hrow
      by (intros c; apply Hsame; lia).
    assert (lastRow (sheets w1 dst) = lastRow (sheets w dst) + 1) as HL1.
    { rewrite Hdst1. apply dst_lastRow; [exact Hd|].
      exists c0. split; [lia|]. rewrite Hrow. exact Hc0. }
    destruct (IH r w1)
      as (w' & Hrun & Hsrc & Hfroz & HfrozN & Hmax & HL & Hbelow & Hnew & Hdel & Hother).
    + exact Hf1.
    + rewrite Hlock1. discriminate.
    + rewrite Hdst1. cbn [maxRows write_block insert_row]. lia.
    + exact Hdesc.
    + rewrite Hsrc1. cbn [maxRows delete_row]. lia.
    + rewrite Hsrc1. cbn [frozenRows delete_row]. rewrite Hfrozen.
      destruct (Z.leb_spec r F); [lia|reflexivity].
    + intros r' c Hr'. rewrite Hsrc1, cellAt_delete_row by exact Hvalid.
      destruct (Z.ltb_spec r' r); [|lia]. apply Hsame. lia.
    + intros r' c Hr' HrF. rewrite Hsrc1, cellAt_delete_row by exact Hvalid.
      destruct (Z.ltb_spec r' r); [lia|].
      destruct (Z_lt_dec (r' + 1) b) as [Hlt|Hge]; [|apply Hempty; lia].
      rewrite Hsame by lia.
      destruct (row_has_content s0 (r' + 1)) eqn:E.
      * destruct (Hcomplete (r' + 1) ltac:(lia) E) as [Heq|Hin]; [lia|].
        pose proof (desc_below_In F r t (r' + 1) Hdesc Hin). lia.
      * rewrite row_has_content_false in E. apply E.
    + intros r' Hr' E. destruct (Hcomplete r' ltac:(lia) E) as [Heq|Hin]; [lia|exact Hin].
    + intros x Hx. apply Hcontent. right. exact Hx.
    + exists w'. split.
      { cbn [map forEach]. eapply runs_bind; [|exact Hrun].
        eapply runs_bind; [exact Hrun1|apply runs_ret]. }
      split; [exact Hsrc|]. split; [exact Hfroz|]. split; [exact HfrozN|].
      split; [rewrite Hmax, Hsrc1; cbn [maxRows delete_row List.length]; lia|].
      split; [rewrite HL, HL1; cbn [List.length]; lia|].
      split.
      { intros r' c Hr'. rewrite Hbelow by lia. rewrite Hdst1.
        apply dst_below; [exact Hd|exact Hr']. }
      split.
      { intros j Hj c. destruct j as [|j].
        - cbn [nth]. replace (lastRow (sheets w dst) + 1 + Z.of_nat 0)
            with (lastRow (sheets w dst) + 1) by lia.
          rewrite Hbelow by lia. rewrite Hdst1.
          rewrite dst_new_row; [rewrite Hrow; reflexivity|exact Hd|].
          intros c' Hc'. rewrite Hrow. apply no_content_right_of_lastColumn. exact Hc'.
        - cbn [nth]. cbn [List.length] in Hj.
          specialize (Hnew j ltac:(lia) c). rewrite HL1 in Hnew.
          replace (lastRow (sheets w dst) + 1 + Z.of_nat (S j))
            with (lastRow (sheets w dst) + 1 + 1 + Z.of_nat j) by lia.
          exact Hnew. }
      split.
      { rewrite Hdel, Hdel1. cbn [map]. rewrite <- app_assoc. reflexivity. }
      intros id H1 H2. rewrite Hother by assumption. apply Hother1; assumption.
Qed.

End Loop.

End SweepLoop.

Import SweepLoop.

(** The order in which a sweep takes the rows. *)
Module SweepOrder.

Lemma seqZ_snoc (a : Z) (n : nat) :
  seqZ a (Z.of_nat (S n)) = (seqZ a (Z.of_nat n) ++ [a + Z.of_nat n])%list.
Proof.
  unfold seqZ. rewrite !Nat2Z.id, seq_S, map_app. reflexivity.
Qed.

(** The rows in use, taken from the last to the first, are decreasing. *)
Lemma desc_below_rev_filter (p : Z -> bool) (F : Z) (n : nat) :
  forall b, F + Z.of_nat n < b ->
  desc_below F b (rev (filter p (seqZ (F + 1) (Z.of_nat n)))).
Proof.
  induction n as [|n IH]; intros b Hb.
  - unfold seqZ. cbn. exact I.
  - rewrite seqZ_snoc, filter_app, rev_app_distr. cbn [filter].
    destruct (p (F + 1 + Z.of_nat n)); cbn [rev app].
    + split; [lia|]. apply IH. lia.
    + apply IH. lia.
Qed.

Lemma desc_below_rows_in_use (s : Sheet) :
  desc_below (frozenRows s) (lastRow s + 1) (rev (rows_in_use s)).
Proof.
  unfold rows_in_use.
  destruct (Z_le_dec (lastRow s - frozenRows s) 0) as [Hle|Hgt].
  - unfold seqZ. replace (Z.to_nat (lastRow s - frozenRows s)) with O by lia.
    cbn. exact I.
  - replace (lastRow s - frozenRows s)
      with (Z.of_nat (Z.to_nat (lastRow s - frozenRows s))) by lia.
    apply desc_below_rev_filter. lia.
Qed.

End SweepOrder.

Import SweepOrder.

(** C9.  [sweep(sheetFrom, sheetTo, true)] between two different sheets,
    when no host call fails and the script lock can be taken.  The rows in
    use of the source are its rows below the frozen ones that have content,
    wherever they are.  After the sweep: no row of the source below the
    frozen rows has content any more and the source has lost exactly that
    many rows (its frozen rows are as before); the destination holds every
    one of these rows, with its values, right after what was its last row,
    in reverse order, above an unchanged old part; and the rows were deleted
    from the source from the last one to the first one. *)
Theorem sweep_moves_every_row_in_use (sheetFrom sheetTo : SheetId) (w : World) :
  sheetFrom <> sheetTo ->
  faults w = None ->
  lock w <> HeldByOther ->
  0 <= frozenRows (sheets w sheetFrom) ->
  1 <= maxRows (sheets w sheetTo) ->
  let s := sheets w sheetFrom in
  let d := sheets w sheetTo in
  let rows := rows_in_use s in
  let n := List.length rows in
  let res := sweep sheetFrom sheetTo true w in
  let s' := sheets (snd res) sheetFrom in
  let d' := sheets (snd res) sheetTo in
  fst res = Ok tt
  /\ (forall r c, frozenRows s < r -> has_content (cellAt s' r c) = false)
  /\ (forall r c, r <= frozenRows s -> cellAt s' r c = cellAt s r c)
  /\ frozenRows s' = frozenRows s
  /\ maxRows s' = maxRows s - Z.of_nat n
  /\ lastRow d' = lastRow d + Z.of_nat n
  /\ (forall r c, r <= lastRow d -> cellAt d' r c = cellAt d r c)
  /\ (forall j, (j < n)%nat -> forall c,
        value (cellAt d' (lastRow d + 1 + Z.of_nat j) c)
        = value (cellAt s (nth j (rev rows) 0) c))
  /\ deletions (log (snd res))
     = (deletions (log w) ++ map (CDeleteRow sheetFrom) (rev rows))%list.
Proof.
  intros Hne Hf Hl HF Hd. cbv zeta.
  set (s := sheets w sheetFrom). set (d := sheets w sheetTo).
  destruct (Sweep.getRangesInUse_runs sheetFrom w Hf HF) as (w1 & Hrun1 & Hreads).
  pose proof (Scan.same_but_log_deletions _ _ Hreads) as Hdel1.
  destruct Hreads as (Hs1 & Hl1 & Hf1 & _).
  fold s in Hrun1.
  destruct (SweepLoop.sweep_loop sheetFrom sheetTo s Hne HF
              (rev (rows_in_use s)) (lastRow s + 1) w1)
    as (w' & Hrun & Hsrc & Hfroz & HfrozN & Hmax & HL & Hbelow & Hnew & Hdel & _).
  - congruence.
  - congruence.
  - rewrite Hs1. exact Hd.
  - apply SweepOrder.desc_below_rows_in_use.
  - rewrite Hs1. fold s. pose proof (lastRow_bounds s). lia.
  - rewrite Hs1. reflexivity.
  - intros r' c _. rewrite Hs1. reflexivity.
  - intros r' c Hr' _. rewrite Hs1. fold s.
    assert (row_has_content s r' = false) as E by (apply lastRow_above; lia).
    rewrite row_has_content_false in E. apply E.
  - intros r' Hr' E. apply in_rev. rewrite rev_involutive.
    apply Sweep.In_rows_in_use. split; [lia|exact E].
  - intros x Hx. apply in_rev in Hx. apply Sweep.In_rows_in_use in Hx. apply Hx.
  - assert (sweep sheetFrom sheetTo true w = (Ok tt, w')) as Hsweep.
    { unfold sweep. eapply runs_bind; [exact Hrun1|].
      rewrite <- map_rev. exact Hrun. }
    rewrite Hsweep. cbn [fst snd].
    rewrite length_rev in Hmax, HL, Hnew.
    rewrite Hs1 in Hmax, HL, Hbelow, Hnew. fold s in Hmax. fold d in HL, Hbelow, Hnew.
    split; [reflexivity|].
    split; [exact Hsrc|]. split; [exact Hfroz|]. split; [exact HfrozN|].
    split; [exact Hmax|]. split; [exact HL|]. split; [exact Hbelow|].
    split; [exact Hnew|].
    rewrite Hdel, Hdel1. reflexivity.
Qed.

(* ===================================================================== *)
(** ** What the functions leave alone *)
(* ===================================================================== *)

Module Frames.

Lemma inv_bind_ret {A B} I (a : A) (k : A -> M B) : inv I (k a) -> inv I (bind (ret a) k).
Proof. intros H w Hw. exact (H w Hw). Qed.

Lemma inv_bind_throw {A B} I e (k : A -> M B) : inv I (bind (throw e) k).
Proof. intros w Hw. exact Hw. Qed.

Lemma inv_bind_gets {A B} I (f : World -> A) (k : A -> M B) :
  (forall a, inv I (k a)) -> inv I (bind (gets f) k).
Proof. intros H w Hw. exact (H (f w) w Hw). Qed.

(** One step of a proof that a computation keeps an invariant; [side]
    settles what is asked about a call or a write. *)
Ltac inv_step side :=
  match goal with
  | |- inv _ (ret _) => apply inv_ret
  | |- inv _ (throw _) => apply inv_throw
  | |- inv _ (gets _) => apply inv_gets
  | |- inv _ (fun w => (_, w)) => apply inv_pure
  | |- inv _ (call _) => side
  | |- inv _ (modify _) => side
  | |- inv _ (bind (ret _) _) => apply inv_bind_ret
  | |- inv _ (bind (throw _) _) => apply inv_bind_throw
  | |- inv _ (bind (gets _) _) => apply inv_bind_gets; intros
  | |- inv _ (bind (if ?b then _ else _) _) => destruct b
  | |- inv _ (bind (match ?x with _ => _ end) _) => destruct x
  | |- inv _ (bind _ _) => apply inv_bind; [|intros]
  | |- inv _ (when ?b _) => destruct b; unfold when
  | |- inv _ (if ?b then _ else _) => destruct b
  | |- inv _ (match ?x with _ => _ end) => destruct x
  | |- inv _ _ => progress cbv zeta
  | |- inv _ _ => assumption
  end.

Ltac unfold_host :=
  unfold getLastRow, getLastColumn, getMaxRows, getMaxColumns, getFrozenRows,
    getRange2, getRange, insertRowAfter, insertRowBefore, deleteRow, getValues,
    getDataValidations, isBlank, copyTo, getCell, setValue in *.

(** *** Invariants kept by every call but a row deletion, and by a write to
    the destination sheet *)

Section Generic.
Variable I : World -> Prop.
Variable sheet : SheetId.
Hypothesis Hcall : forall c, is_delete c = false -> inv I (call c).
Hypothesis Hwrite : forall g, inv I (modify (fun w => set_sheet sheet (g w) w)).

Ltac side := first [apply Hcall; reflexivity | apply Hwrite].
Ltac go := unfold_host; repeat (inv_step side).

Lemma getDigest_inv range skip encoding : inv I (getDigest range skip encoding).
Proof. unfold getDigest. go. Qed.

Lemma isDuplicate_inv range sh useDigest last skip :
  inv I (isDuplicate range sh useDigest last skip).
Proof.
  unfold isDuplicate.
  apply inv_bind; [destruct last; go|intros l].
  destruct (l =? 0); [apply inv_ret|].
  destruct useDigest; [|apply inv_throw].
  apply inv_bind; [apply getDigest_inv|intros]. go.
Qed.

Lemma isRangeEmpty_inv range ic : inv I (isRangeEmpty range ic).
Proof. unfold isRangeEmpty. go. Qed.

Lemma do_while_forward_inv fuel sh cols max ic :
  forall i, inv I (do_while_forward fuel sh cols max ic i).
Proof.
  induction fuel as [|fuel IH]; intros i; cbn [do_while_forward]; cbv zeta.
  - apply inv_ret.
  - apply inv_bind.
    + destruct (i + 1 <? max); [|apply inv_ret].
      apply inv_bind; [unfold getRange; go|intros].
      apply inv_bind; [apply isRangeEmpty_inv|intros; apply inv_ret].
    + intros again. destruct again; [apply IH|apply inv_ret].
Qed.

Lemma getFirstEmptyRow_inv index ic : inv I (getFirstEmptyRow sheet index ic).
Proof.
  unfold getFirstEmptyRow. apply inv_bind.
  - destruct ic; [go|].
    apply inv_bind; [go|intros cols].
    apply inv_bind; [go|intros frozen].
    apply inv_bind; [go|intros max].
    apply inv_bind; [go|intros range].
    apply inv_bind; [go|intros vals].
    cbv zeta.
    apply inv_bind; [apply do_while_forward_inv|intros; apply inv_ret].
  - intros row_max. go.
Qed.

Lemma addDigest_inv range skip digest :
  getSheet range = sheet -> inv I (addDigest range skip digest).
Proof.
  intros Hs. unfold addDigest. apply inv_bind.
  - destruct digest; [apply inv_ret|apply getDigest_inv].
  - intros d. rewrite Hs. go.
Qed.

Lemma copyToFirstEmptyRow_inv range digest (cb : Callback) ic :
  (forall f rg, cb = Some f -> inv I (f rg)) ->
  inv I (copyToFirstEmptyRow range sheet digest cb false ic).
Proof.
  intros Hcb. unfold copyToFirstEmptyRow. unfold when at 1.
  apply inv_bind_ret.
  apply inv_bind; [destruct cb; [apply isDuplicate_inv|apply inv_ret]|intros duplicate].
  apply inv_bind; [apply getFirstEmptyRow_inv|intros firstEmpty].
  unfold getRange.
  destruct ((1 <=? getRow firstEmpty) && (1 <=? getColumn firstEmpty) && (1 <=? 1)
            && (1 <=? getNumColumns range)); [|apply inv_bind_throw].
  apply inv_bind_ret.
  apply inv_bind; [unfold copyTo; cbn [getSheet]; repeat (inv_step side)|intros _].
  apply inv_bind.
  - destruct digest; [apply addDigest_inv; reflexivity|apply inv_ret].
  - intros destination. apply inv_bind.
    + destruct duplicate; unfold when; [|apply inv_ret].
      destruct cb as [f|]; [apply (Hcb f); reflexivity|apply inv_throw].
    + intros _. unfold when. apply inv_bind_ret. apply inv_ret.
Qed.

End Generic.

End Frames.

Import Frames.

(* ===================================================================== *)
(** ** The script lock *)
(* ===================================================================== *)

Module Locking.

(** [copyToFirstEmptyRow] with the lock is [copyToFirstEmptyRow] without it
    between [waitLock] and [releaseLock]. *)
Lemma copy_with_lock range sheet digest cb ic w :
  copyToFirstEmptyRow range sheet digest cb true ic w
  = (waitLock 300000 ;;
     destination <- copyToFirstEmptyRow range sheet digest cb false ic ;;
     releaseLock ;;
     ret destination) w.
Proof.
  unfold copyToFirstEmptyRow. unfold when.
  apply bind_ext. intros _ w1.
  rewrite bind_assoc. rewrite bind_ret_l.
  repeat (rewrite bind_assoc; apply bind_ext; intros ? ?).
  reflexivity.
Qed.

Lemma waitLock_acquires t w w1 : waitLock t w = (Ok tt, w1) -> lock w1 = HeldByUs.
Proof.
  unfold waitLock, bind, call, gets, modify, throw.
  destruct (faults w) as [[|n]|]; cbn; destruct (lock w); cbn;
    intros H; inversion H; reflexivity.
Qed.

Lemma releaseLock_outcome w :
  lock w = HeldByUs ->
  match fst (releaseLock w) with
  | Ok _ => lock (snd (releaseLock w)) = Free
  | Throw _ => lock (snd (releaseLock w)) = HeldByUs
  end.
Proof.
  intros Hl. unfold releaseLock, bind, call, gets, modify.
  destruct (faults w) as [[|n]|]; cbn; rewrite ?Hl; cbn; auto.
Qed.

Section KeepsLock.
Variable l : LockState.

Lemma lock_call c : inv (fun w => lock w = l) (call c).
Proof. apply inv_call. intros w f H. exact H. Qed.

Lemma lock_write sheet g :
  inv (fun w => lock w = l) (modify (fun w => set_sheet sheet (g w) w)).
Proof. apply inv_modify. intros w H. exact H. Qed.

Lemma copy_keeps_lock range sheet digest cb ic :
  (forall f rg, cb = Some f -> inv (fun w => lock w = l) (f rg)) ->
  inv (fun w => lock w = l) (copyToFirstEmptyRow range sheet digest cb false ic).
Proof.
  intros Hcb. apply copyToFirstEmptyRow_inv; auto.
  - intros c _. apply lock_call.
  - apply lock_write.
Qed.

Lemma deleteRow_keeps_lock sheet k : inv (fun w => lock w = l) (deleteRow sheet k).
Proof.
  unfold deleteRow. apply inv_bind_gets. intros ok. destruct ok; [|apply inv_throw].
  apply inv_bind; [apply lock_call|intros _; apply lock_write].
Qed.

End KeepsLock.

(** What holds of the lock at the end of a computation that runs between
    [waitLock] and [releaseLock]. *)
Lemma locked_section {A} (body : M A) w w1 :
  inv (fun w => lock w = HeldByUs) body ->
  waitLock 300000 w = (Ok tt, w1) ->
  let res := (waitLock 300000 ;; a <- body ;; releaseLock ;; ret a) w in
  match fst res with
  | Ok _ => lock (snd res) = Free
  | Throw _ => lock (snd res) = HeldByUs
  end.
Proof.
  intros Hbody Hwait. cbv zeta. rewrite (bind_ok _ _ _ _ _ Hwait).
  pose proof (waitLock_acquires _ _ _ Hwait) as Hl1.
  specialize (Hbody w1 Hl1).
  destruct (body w1) as [[a|e] w2] eqn:Eb; cbn [fst snd] in Hbody.
  - rewrite (bind_ok _ _ _ _ _ Eb).
    pose proof (releaseLock_outcome w2 Hbody) as Hrel.
    destruct (releaseLock w2) as [[[]|e] w3] eqn:Er; cbn [fst snd] in Hrel.
    + rewrite (bind_ok _ _ _ _ _ Er). exact Hrel.
    + rewrite (bind_throw _ _ _ _ _ Er). exact Hrel.
  - rewrite (bind_throw _ _ _ _ _ Eb). exact Hbody.
Qed.

End Locking.

Import Locking.

(** C1, as the code has it.  With [useLock] set and the lock acquired, a
    call of [copyToFirstEmptyRow] or [moveToFirstEmptyRow] that returns has
    released the lock; when a step after the acquisition raises, the error
    reaches the caller with the lock still held: there is no release on the
    way out.  (The callback is assumed to leave the lock alone.) *)
Theorem lock_released_on_return_held_on_error
    (range : Range) (sheet : SheetId) (digest : bool) (cb : Callback) (ic : bool)
    (w w1 : World) :
  callback_keeps_lock cb ->
  waitLock 300000 w = (Ok tt, w1) ->
  let copied := copyToFirstEmptyRow range sheet digest cb true ic w in
  let moved := moveToFirstEmptyRow range sheet digest cb true ic w in
  match fst copied with
  | Ok _ => lock (snd copied) = Free
  | Throw _ => lock (snd copied) = HeldByUs
  end
  /\ match fst moved with
     | Ok _ => lock (snd moved) = Free
     | Throw _ => lock (snd moved) = HeldByUs
     end.
Proof.
  intros Hcb Hwait. cbv zeta. split.
  - rewrite Locking.copy_with_lock.
    apply (Locking.locked_section (copyToFirstEmptyRow range sheet digest cb false ic)
             w w1); [|exact Hwait].
    apply Locking.copy_keeps_lock. intros f rg E. apply (Hcb f rg _ E).
  - assert (forall w0, moveToFirstEmptyRow range sheet digest cb true ic w0
              = (waitLock 300000 ;;
                 a <- (destination <- copyToFirstEmptyRow range sheet digest cb false ic ;;
                       deleteRow (getSheet range) (getRow range) ;; ret destination) ;;
                 releaseLock ;; ret a) w0) as Heq.
    { intros w0. unfold moveToFirstEmptyRow. unfold when.
      apply bind_ext. intros _ w2.
      repeat (rewrite bind_assoc; apply bind_ext; intros ? ?).
      reflexivity. }
    rewrite Heq.
    apply (Locking.locked_section _ w w1); [|exact Hwait].
    apply inv_bind.
    + apply Locking.copy_keeps_lock. intros f rg E. apply (Hcb f rg _ E).
    + intros d. apply inv_bind; [apply Locking.deleteRow_keeps_lock|intros; apply inv_ret].
Qed.

(* ===================================================================== *)
(** ** Moves: the deletion comes last *)
(* ===================================================================== *)

Module MoveOrder.

Section Deletions.
Variable dl : list Call.

Lemma deletions_call c :
  is_delete c = false -> inv (fun w => deletions (log w) = dl) (call c).
Proof.
  intros Hc. apply inv_call. intros w f H. cbn [log].
  rewrite deletions_app, H. cbn [deletions filter]. rewrite Hc. apply app_nil_r.
Qed.

Lemma deletions_write sheet g :
  inv (fun w => deletions (log w) = dl) (modify (fun w => set_sheet sheet (g w) w)).
Proof. apply inv_modify. intros w H. exact H. Qed.

Lemma deletions_lock l :
  inv (fun w => deletions (log w) = dl) (modify (set_lock l)).
Proof. apply inv_modify. intros w H. exact H. Qed.

Lemma copy_deletes_nothing range sheet digest cb ic :
  callback_deletes_nothing cb ->
  inv (fun w => deletions (log w) = dl) (copyToFirstEmptyRow range sheet digest cb false ic).
Proof.
  intros Hcb. apply copyToFirstEmptyRow_inv.
  - apply deletions_call.
  - apply deletions_write.
  - intros f rg E. apply (Hcb f rg dl E).
Qed.

Lemma waitLock_deletes_nothing t : inv (fun w => deletions (log w) = dl) (waitLock t).
Proof.
  unfold waitLock. apply inv_bind; [apply deletions_call; reflexivity|intros _].
  apply inv_bind_gets. intros l. destruct l; try apply deletions_lock. apply inv_throw.
Qed.

Lemma releaseLock_deletes_nothing : inv (fun w => deletions (log w) = dl) releaseLock.
Proof.
  unfold releaseLock. apply inv_bind; [apply deletions_call; reflexivity|intros _].
  apply inv_bind_gets. intros l. destruct l; try apply deletions_lock; apply inv_ret.
Qed.

End Deletions.

Section KeepsSheet.
Variables (id : SheetId) (s : Sheet).

Lemma sheet_call c : inv (fun w => sheets w id = s) (call c).
Proof. apply inv_call. intros w f H. exact H. Qed.

Lemma sheet_write sheet g :
  id <> sheet ->
  inv (fun w => sheets w id = s) (modify (fun w => set_sheet sheet (g w) w)).
Proof.
  intros Hne. apply inv_modify. intros w H.
  rewrite sheets_set_sheet_other by exact Hne. exact H.
Qed.

Lemma copy_keeps_sheet range sheet digest cb ic :
  id <> sheet ->
  callback_keeps_sheet id cb ->
  inv (fun w => sheets w id = s) (copyToFirstEmptyRow range sheet digest cb false ic).
Proof.
  intros Hne Hcb. apply copyToFirstEmptyRow_inv.
  - intros c _. apply sheet_call.
  - intros g. apply sheet_write. exact Hne.
  - intros f rg E. apply (Hcb f rg s E).
Qed.

Lemma waitLock_keeps_sheet t : inv (fun w => sheets w id = s) (waitLock t).
Proof.
  unfold waitLock. apply inv_bind; [apply sheet_call|intros _].
  apply inv_bind_gets. intros l.
  destruct l; first [apply inv_throw | apply inv_modify; intros w H; exact H].
Qed.

End KeepsSheet.

(** What a deletion does to the log. *)
Lemma deleteRow_deletions sheet k w :
  let res := deleteRow sheet k w in
  match fst res with
  | Ok _ => deletions (log (snd res)) = (deletions (log w) ++ [CDeleteRow sheet k])%list
  | Throw _ => snd res = w
  end.
Proof.
  cbv zeta. unfold deleteRow, bind, gets, call, modify, throw.
  destruct (valid_row w sheet k); [|reflexivity].
  destruct (faults w) as [[|n]|]; cbn; try reflexivity;
    rewrite deletions_app; reflexivity.
Qed.

(** A move, after the lock step: what the outcome of the copy entails. *)
Lemma move_after_lock_step
    (range : Range) (sheet : SheetId) (digest : bool) (cb : Callback)
    (useLock ic : bool) (w w1 : World) :
  callback_deletes_nothing cb ->
  when useLock (waitLock 300000) w = (Ok tt, w1) ->
  let copied := copyToFirstEmptyRow range sheet digest cb false ic w1 in
  let moved := moveToFirstEmptyRow range sheet digest cb useLock ic w in
  match fst copied with
  | Throw e =>
      moved = (Throw e, snd copied)
      /\ deletions (log (snd moved)) = deletions (log w)
      /\ (getSheet range <> sheet -> callback_keeps_sheet (getSheet range) cb ->
          sheets (snd moved) (getSheet range) = sheets w (getSheet range))
  | Ok destination =>
      deletions (log (snd copied)) = deletions (log w)
      /\ (deletions (log (snd moved)) = deletions (log w)
          \/ deletions (log (snd moved))
             = (deletions (log w) ++ [CDeleteRow (getSheet range) (getRow range)])%list)
      /\ (fst moved = Ok destination ->
          deletions (log (snd moved))
          = (deletions (log w) ++ [CDeleteRow (getSheet range) (getRow range)])%list)
  end.
Proof.
  intros Hcb Hlock. cbv zeta.
  assert (deletions (log w1) = deletions (log w)) as Hd1.
  { destruct useLock; unfold when in Hlock.
    - pose proof (waitLock_deletes_nothing (deletions (log w)) 300000 w eq_refl) as H.
      rewrite Hlock in H. exact H.
    - inversion Hlock. reflexivity. }
  assert (forall id, sheets w1 id = sheets w id) as Hs1.
  { intros id. destruct useLock; unfold when in Hlock.
    - pose proof (waitLock_keeps_sheet id (sheets w id) 300000 w eq_refl) as H.
      rewrite Hlock in H. exact H.
    - inversion Hlock. reflexivity. }
  pose proof (copy_deletes_nothing (deletions (log w1)) range sheet digest cb ic
                Hcb w1 eq_refl) as Hcopy.
  unfold moveToFirstEmptyRow. rewrite (bind_ok _ _ _ _ _ Hlock).
  destruct (copyToFirstEmptyRow range sheet digest cb false ic w1) as [[d|e] w2] eqn:Ec;
    cbn [fst snd] in *.
  - rewrite (bind_ok _ _ _ _ _ Ec).
    split; [congruence|].
    pose proof (deleteRow_deletions (getSheet range) (getRow range) w2) as Hdel.
    cbv zeta in Hdel.
    destruct (deleteRow (getSheet range) (getRow range) w2) as [[[]|e] w3] eqn:Ed;
      cbn [fst snd] in Hdel.
    + rewrite (bind_ok _ _ _ _ _ Ed).
      assert (deletions (log (snd ((when useLock releaseLock ;; ret d) w3)))
              = (deletions (log w) ++ [CDeleteRow (getSheet range) (getRow range)])%list) as Hfin.
      { assert (inv (fun w => deletions (log w) = deletions (log w3))
                    (when useLock releaseLock ;; ret d)) as Hinv.
        { apply inv_bind; [|intros; apply inv_ret].
          destruct useLock; unfold when;
            [apply releaseLock_deletes_nothing|apply inv_ret]. }
        rewrite (Hinv w3 eq_refl), Hdel. congruence. }
      split; [right; exact Hfin|intros _; exact Hfin].
    + rewrite (bind_throw _ _ _ _ _ Ed). cbn [fst snd]. subst w3.
      split; [left; congruence|intros H; discriminate].
  - rewrite (bind_throw _ _ _ _ _ Ec). cbn [snd].
    split; [reflexivity|]. split; [congruence|].
    intros Hne Hkeep.
    pose proof (copy_keeps_sheet (getSheet range) (sheets w1 (getSheet range))
                  range sheet digest cb ic Hne Hkeep w1 eq_refl) as H.
    rewrite Ec in H. cbn [snd] in H. rewrite H. apply Hs1.
Qed.

(** A move whose lock step fails does nothing else. *)
Lemma move_without_lock range sheet digest cb useLock ic w e w1 :
  when useLock (waitLock 300000) w = (Throw e, w1) ->
  moveToFirstEmptyRow range sheet digest cb useLock ic w = (Throw e, w1)
  /\ deletions (log w1) = deletions (log w).
Proof.
  intros Hlock. unfold moveToFirstEmptyRow. rewrite (bind_throw _ _ _ _ _ Hlock).
  split; [reflexivity|].
  destruct useLock; unfold when in Hlock; [|discriminate].
  pose proof (waitLock_deletes_nothing (deletions (log w)) 300000 w eq_refl) as H.
  rewrite Hlock in H. exact H.
Qed.

End MoveOrder.

Import MoveOrder.

(** C5.  [moveToFirstEmptyRow] deletes the source row only after
    [copyToFirstEmptyRow] has returned.  For every call: either no row
    deletion is performed at all, or the lock step and the copy (duplicate
    check, placement, copy into the destination, digest write, duplicate
    callback) have both returned, with no deletion so far, and the one
    deletion performed is that of the source row.  When the copy raises, the
    move raises the same error in the world the copy left: no row has been
    deleted, and a source sheet other than the destination is as it was.
    When the move returns, the source row has been deleted.  (The callback
    is code of the caller: it is assumed to delete no row, and not to write
    to the source sheet where that sheet is compared.) *)
Theorem move_deletes_only_after_copy
    (range : Range) (sheet : SheetId) (digest : bool) (cb : Callback)
    (useLock ic : bool) (w : World) :
  callback_deletes_nothing cb ->
  let moved := moveToFirstEmptyRow range sheet digest cb useLock ic w in
  let deletion := CDeleteRow (getSheet range) (getRow range) in
  (deletions (log (snd moved)) = deletions (log w)
   \/ exists w1 destination w2,
        when useLock (waitLock 300000) w = (Ok tt, w1)
        /\ copyToFirstEmptyRow range sheet digest cb false ic w1 = (Ok destination, w2)
        /\ deletions (log w2) = deletions (log w)
        /\ deletions (log (snd moved)) = (deletions (log w) ++ [deletion])%list)
  /\ (forall w1 e w2,
        when useLock (waitLock 300000) w = (Ok tt, w1) ->
        copyToFirstEmptyRow range sheet digest cb false ic w1 = (Throw e, w2) ->
        moved = (Throw e, w2)
        /\ deletions (log w2) = deletions (log w)
        /\ (getSheet range <> sheet -> callback_keeps_sheet (getSheet range) cb ->
            sheets w2 (getSheet range) = sheets w (getSheet range)))
  /\ (forall destination,
        fst moved = Ok destination ->
        deletions (log (snd moved)) = (deletions (log w) ++ [deletion])%list).
Proof.
  intros Hcb. cbv zeta.
  destruct (when useLock (waitLock 300000) w) as [[[]|e0] w1] eqn:Hlock.
  - pose proof (MoveOrder.move_after_lock_step range sheet digest cb useLock ic w w1
                  Hcb Hlock) as H.
    cbv zeta in H.
    destruct (copyToFirstEmptyRow range sheet digest cb false ic w1) as [[d|e] w2] eqn:Ec;
      cbn [fst snd] in H.
    + destruct H as (H1 & H2 & H3). split; [|split].
      * destruct H2 as [H2|H2]; [left; exact H2|right].
        exists w1, d, w2. repeat split; assumption.
      * intros w1' e w2' E1 E2. inversion E1; subst w1'. rewrite Ec in E2. discriminate.
      * intros d' Hd'.
        unfold moveToFirstEmptyRow in Hd'.
        rewrite (bind_ok _ _ _ _ _ Hlock), (bind_ok _ _ _ _ _ Ec) in Hd'.
        apply H3. unfold moveToFirstEmptyRow.
        rewrite (bind_ok _ _ _ _ _ Hlock), (bind_ok _ _ _ _ _ Ec).
        destruct (deleteRow (getSheet range) (getRow range) w2) as [[[]|e] w3] eqn:Ed.
        -- rewrite (bind_ok _ _ _ _ _ Ed) in *.
           destruct (when useLock releaseLock w3) as [[[]|e] w4] eqn:Er.
           ++ rewrite (bind_ok _ _ _ _ _ Er). reflexivity.
           ++ rewrite (bind_throw _ _ _ _ _ Er) in Hd'. discriminate.
        -- rewrite (bind_throw _ _ _ _ _ Ed) in Hd'. discriminate.
    + destruct H as (H1 & H2 & H3). split; [|split].
      * left. exact H2.
      * intros w1' e' w2' E1 E2. inversion E1; subst w1'. rewrite Ec in E2.
        inversion E2; subst e' w2'. rewrite H1 in H2, H3. cbn [snd] in H2, H3.
        split; [exact H1|]. split; [exact H2|exact H3].
      * intros d' Hd'. rewrite H1 in Hd'. discriminate.
  - destruct (MoveOrder.move_without_lock range sheet digest cb useLock ic w e0 w1 Hlock)
      as [Hm Hd].
    rewrite Hm. cbn [fst snd]. split; [left; exact Hd|]. split.
    + intros w1' e w2 E. discriminate.
    + intros d' Hd'. discriminate.
Qed.

(* ===================================================================== *)
(** ** The duplicate check *)
(* ===================================================================== *)

Module NoCheck.

(** *** Computations that never throw a given string *)

Section Avoids.
Variable msg : string.
Local Abbreviation e := (JsThrow msg).

Lemma avoids_ret {A} (a : A) : avoids e (ret a).
Proof. intros w. discriminate. Qed.

Lemma avoids_gets {A} (f : World -> A) : avoids e (gets f).
Proof. intros w. discriminate. Qed.

Lemma avoids_modify f : avoids e (modify f).
Proof. intros w. discriminate. Qed.

Lemma avoids_call c : avoids e (call c).
Proof. intros w. unfold call. destruct (faults w) as [[|n]|]; discriminate. Qed.

Lemma avoids_bind {A B} (m : M A) (k : A -> M B) :
  avoids e m -> (forall a, avoids e (k a)) -> avoids e (bind m k).
Proof.
  intros Hm Hk w. unfold bind. specialize (Hm w).
  destruct (m w) as [[a|e'] w1]; cbn [fst] in *; [apply Hk|].
  intros H. apply Hm. inversion H. reflexivity.
Qed.

Lemma isRangeEmpty_for_avoids values validations :
  isRangeEmpty_for values validations <> Throw e.
Proof.
  revert validations. induction values as [|v values IH]; intros validations;
    cbn [isRangeEmpty_for]; [discriminate|].
  destruct (is_empty_string v); [apply IH|].
  destruct validations as [|[[]|] validations]; try discriminate. apply IH.
Qed.

Ltac av_step :=
  match goal with
  | |- avoids _ (ret _) => apply avoids_ret
  | |- avoids _ (throw _) => intros ?; discriminate
  | |- avoids _ (gets _) => apply avoids_gets
  | |- avoids _ (call _) => apply avoids_call
  | |- avoids _ (modify _) => apply avoids_modify
  | |- avoids _ (fun w => (isRangeEmpty_for _ _, w)) =>
      intros ?; apply isRangeEmpty_for_avoids
  | |- avoids _ (bind _ _) => apply avoids_bind; [|intros]
  | |- avoids _ (when ?b _) => destruct b; unfold when
  | |- avoids _ (if ?b then _ else _) => destruct b
  | |- avoids _ (match ?x with _ => _ end) => destruct x
  | |- avoids _ _ => progress cbv zeta
  end.

Ltac av := unfold_host; repeat av_step.

Lemma waitLock_avoids t : avoids e (waitLock t).
Proof. unfold waitLock. av. Qed.

Lemma releaseLock_avoids : avoids e releaseLock.
Proof. unfold releaseLock. av. Qed.

Lemma getDigest_avoids range skip enc : avoids e (getDigest range skip enc).
Proof. unfold getDigest. av. Qed.

Lemma addDigest_avoids range skip digest : avoids e (addDigest range skip digest).
Proof.
  unfold addDigest. apply avoids_bind; [destruct digest; [av|apply getDigest_avoids]|].
  intros. av.
Qed.

Lemma isRangeEmpty_avoids range ic : avoids e (isRangeEmpty range ic).
Proof. unfold isRangeEmpty. av. Qed.

Lemma do_while_forward_avoids fuel sheet cols max ic :
  forall i, avoids e (do_while_forward fuel sheet cols max ic i).
Proof.
  induction fuel as [|fuel IH]; intros i; cbn [do_while_forward]; cbv zeta.
  - apply avoids_ret.
  - apply avoids_bind.
    + destruct (i + 1 <? max); [|apply avoids_ret].
      apply avoids_bind; [av|intros].
      apply avoids_bind; [apply isRangeEmpty_avoids|intros; apply avoids_ret].
    + intros again. destruct again; [apply IH|apply avoids_ret].
Qed.

Lemma getFirstEmptyRow_avoids sheet index ic : avoids e (getFirstEmptyRow sheet index ic).
Proof.
  unfold getFirstEmptyRow. apply avoids_bind.
  - destruct ic; [av|].
    repeat (apply avoids_bind; [solve [av]|intros]).
    cbv zeta. apply avoids_bind; [apply do_while_forward_avoids|intros; apply avoids_ret].
  - intros. av.
Qed.

(** Without a callback no step of [copyToFirstEmptyRow] throws a string. *)
Lemma copy_without_callback_avoids range sheet digest useLock ic :
  avoids e (copyToFirstEmptyRow range sheet digest None useLock ic).
Proof.
  unfold copyToFirstEmptyRow.
  apply avoids_bind; [destruct useLock; unfold when; [apply waitLock_avoids|apply avoids_ret]|].
  intros _. apply avoids_bind; [apply avoids_ret|intros duplicate].
  apply avoids_bind; [apply getFirstEmptyRow_avoids|intros firstEmpty].
  apply avoids_bind; [av|intros destination].
  apply avoids_bind; [av|intros _].
  apply avoids_bind; [destruct digest; [apply addDigest_avoids|apply avoids_ret]|intros d].
  apply avoids_bind.
  - destruct duplicate; unfold when; [intros ?; discriminate|apply avoids_ret].
  - intros _. apply avoids_bind; [|intros; apply avoids_ret].
    destruct useLock; unfold when; [apply releaseLock_avoids|apply avoids_ret].
Qed.

Lemma move_without_callback_avoids range sheet digest useLock ic :
  avoids e (moveToFirstEmptyRow range sheet digest None useLock ic).
Proof.
  unfold moveToFirstEmptyRow.
  apply avoids_bind; [destruct useLock; unfold when; [apply waitLock_avoids|apply avoids_ret]|].
  intros _. apply avoids_bind; [apply copy_without_callback_avoids|intros destination].
  apply avoids_bind; [av|intros _].
  apply avoids_bind; [|intros; apply avoids_ret].
  destruct useLock; unfold when; [apply releaseLock_avoids|apply avoids_ret].
Qed.

End Avoids.

(** *** Runs whose log never shows a read of a given column *)

Section NoRead.
Variables (sheet : SheetId) (col : Z) (l0 : list Call).
Hypothesis Hcol : 2 <= col.
Local Abbreviation I := (log_grows (fun c => ~ reads_column sheet col c) l0).

Lemma noread_call c : ~ reads_column sheet col c -> inv I (call c).
Proof.
  intros Hc. apply inv_call. intros w f (delta & Hd & HP).
  exists (delta ++ [c])%list. cbn [log]. split; [rewrite Hd, app_assoc; reflexivity|].
  apply Forall_app. split; [exact HP|]. constructor; [exact Hc|constructor].
Qed.

Lemma noread_modify f : (forall w, log (f w) = log w) -> inv I (modify f).
Proof.
  intros Hf. apply inv_modify. intros w (delta & Hd & HP).
  exists delta. rewrite Hf. split; assumption.
Qed.

Ltac side :=
  first [ apply noread_modify; reflexivity
        | apply noread_call; cbn [reads_column getSheet getColumn getNumColumns];
          first [ solve [intros []] | intros [_ ?]; lia ] ].
Ltac go := unfold_host; repeat (inv_step side).

Lemma waitLock_noread t : inv I (waitLock t).
Proof. unfold waitLock. go. Qed.

Lemma releaseLock_noread : inv I releaseLock.
Proof. unfold releaseLock. go. Qed.

Lemma do_while_forward_noread fuel cols max :
  forall i, inv I (do_while_forward fuel sheet cols max false i).
Proof.
  induction fuel as [|fuel IH]; intros i; cbn [do_while_forward]; cbv zeta.
  - apply inv_ret.
  - apply inv_bind.
    + destruct (i + 1 <? max); [|apply inv_ret]. unfold isRangeEmpty. cbn [negb]. go.
    + intros again. destruct again; [apply IH|apply inv_ret].
Qed.

Lemma getFirstEmptyRow_noread ic : inv I (getFirstEmptyRow sheet 1 ic).
Proof.
  unfold getFirstEmptyRow. apply inv_bind.
  - destruct ic; [go|].
    apply inv_bind; [go|intros cols].
    apply inv_bind; [go|intros frozen].
    apply inv_bind; [go|intros max].
    unfold getRange.
    destruct ((1 <=? 1) && (1 <=? 1) && (1 <=? max) && (1 <=? 1)); [|apply inv_bind_throw].
    apply inv_bind_ret.
    apply inv_bind; [go|intros vals].
    cbv zeta. apply inv_bind; [apply do_while_forward_noread|intros; apply inv_ret].
  - intros row_max. go.
Qed.

(** The range [getFirstEmptyRow] returns is in column 1. *)
Lemma getFirstEmptyRow_column index ic w rg w' :
  getFirstEmptyRow sheet index ic w = (Ok rg, w') -> getColumn rg = 1.
Proof.
  unfold getFirstEmptyRow. unfold bind at 1.
  match goal with |- context [match ?m w with _ => _ end] => destruct (m w) as [[rm|e] w1] end;
    [|discriminate].
  destruct (fst rm >? snd rm); unfold bind;
    match goal with |- context [match ?m w1 with _ => _ end] =>
      destruct (m w1) as [[[]|e] w2] end; try discriminate;
    unfold getRange2, getRange;
    match goal with |- context [if ?b then _ else _] => destruct b end;
    intros H; inversion H; reflexivity.
Qed.

Lemma inv_bind_with {A B} (P : A -> Prop) (m : M A) (k : A -> M B) :
  inv I m -> (forall w a w', m w = (Ok a, w') -> P a) ->
  (forall a, P a -> inv I (k a)) -> inv I (bind m k).
Proof.
  intros Hm HP Hk w Hw. unfold bind. specialize (Hm w Hw).
  destruct (m w) as [[a|e] w1] eqn:E; cbn [snd] in *; [|exact Hm].
  apply (Hk a (HP _ _ _ E) w1 Hm).
Qed.

(** The digest is computed from the cells of the new row, which stop one
    column before the digest column. *)
Lemma addDigest_noread row n :
  col = n + 1 -> inv I (addDigest (mkRange sheet row 1 1 n) 1 None).
Proof.
  intros Hn. unfold addDigest, getDigest.
  cbn [getSheet getRow getColumn getNumColumns]. go.
Qed.

Lemma copy_without_callback_noread range digest useLock ic :
  col = getNumColumns range + 1 ->
  inv I (copyToFirstEmptyRow range sheet digest None useLock ic).
Proof.
  intros Hn. unfold copyToFirstEmptyRow.
  apply inv_bind; [destruct useLock; unfold when; [apply waitLock_noread|apply inv_ret]|].
  intros _. apply inv_bind_ret.
  apply (inv_bind_with (fun rg => getColumn rg = 1));
    [apply getFirstEmptyRow_noread|intros w a w'; apply getFirstEmptyRow_column|].
  intros firstEmpty Hc1. rewrite Hc1.
  unfold getRange.
  destruct ((1 <=? getRow firstEmpty) && (1 <=? 1) && (1 <=? 1)
            && (1 <=? getNumColumns range)) eqn:Hvalid; [|apply inv_bind_throw].
  apply inv_bind_ret.
  apply inv_bind; [go|intros _].
  apply inv_bind.
  - destruct digest; [|apply inv_ret].
    apply addDigest_noread. exact Hn.
  - intros d. unfold when at 1. apply inv_bind_ret.
    apply inv_bind; [|intros; apply inv_ret].
    destruct useLock; unfold when; [apply releaseLock_noread|apply inv_ret].
Qed.

Lemma move_without_callback_noread range digest useLock ic :
  col = getNumColumns range + 1 ->
  inv I (moveToFirstEmptyRow range sheet digest None useLock ic).
Proof.
  intros Hn. unfold moveToFirstEmptyRow.
  apply inv_bind; [destruct useLock; unfold when; [apply waitLock_noread|apply inv_ret]|].
  intros _. apply inv_bind; [apply copy_without_callback_noread; exact Hn|intros destination].
  apply inv_bind; [go|intros _].
  apply inv_bind; [|intros; apply inv_ret].
  destruct useLock; unfold when; [apply releaseLock_noread|apply inv_ret].
Qed.

End NoRead.

(** *** Runs with the default placement, whose log shows no call at all on
    the cells of a given column *)

Section NoCellRead.
Variables (sheet : SheetId) (col : Z) (l0 : list Call).
Local Abbreviation J := (log_grows (fun c => ~ reads_cells sheet col c) l0).

Lemma nocell_call c : ~ reads_cells sheet col c -> inv J (call c).
Proof.
  intros Hc. apply inv_call. intros w f (delta & Hd & HP).
  exists (delta ++ [c])%list. cbn [log]. split; [rewrite Hd, app_assoc; reflexivity|].
  apply Forall_app. split; [exact HP|]. constructor; [exact Hc|constructor].
Qed.

Lemma nocell_modify f : (forall w, log (f w) = log w) -> inv J (modify f).
Proof.
  intros Hf. apply inv_modify. intros w (delta & Hd & HP).
  exists delta. rewrite Hf. split; assumption.
Qed.

Ltac side :=
  first [ apply nocell_modify; reflexivity
        | apply nocell_call;
          cbn [reads_cells]; unfold covers; cbn [getSheet getColumn getNumColumns];
          first [ solve [intros []] | intros [_ ?]; lia | assumption ] ].
Ltac go := unfold_host; repeat (inv_step side).

Lemma waitLock_nocell t : inv J (waitLock t).
Proof. unfold waitLock. go. Qed.

Lemma releaseLock_nocell : inv J releaseLock.
Proof. unfold releaseLock. go. Qed.

(** The default placement asks for the last row and the number of rows of
    the sheet and inserts a row: it looks at no cell. *)
Lemma getFirstEmptyRow_nocell : inv J (getFirstEmptyRow sheet 1 true).
Proof. unfold getFirstEmptyRow. go. Qed.

Lemma inv_bind_where {A B} (P : A -> Prop) (m : M A) (k : A -> M B) :
  inv J m -> (forall w a w', m w = (Ok a, w') -> P a) ->
  (forall a, P a -> inv J (k a)) -> inv J (bind m k).
Proof.
  intros Hm HP Hk w Hw. unfold bind. specialize (Hm w Hw).
  destruct (m w) as [[a|e] w1] eqn:E; cbn [snd] in *; [|exact Hm].
  apply (Hk a (HP _ _ _ E) w1 Hm).
Qed.

Lemma addDigest_nocell row n :
  col = n + 1 -> inv J (addDigest (mkRange sheet row 1 1 n) 1 None).
Proof.
  intros Hn. unfold addDigest, getDigest.
  cbn [getSheet getRow getColumn getNumColumns]. go.
Qed.

(** The one call of a copy on cells it does not write is [copyTo], on the
    range that is copied. *)
Lemma copy_default_nocell range digest useLock :
  col = getNumColumns range + 1 -> ~ covers range sheet col ->
  inv J (copyToFirstEmptyRow range sheet digest None useLock true).
Proof.
  intros Hn Hsrc. unfold copyToFirstEmptyRow.
  apply inv_bind; [destruct useLock; unfold when; [apply waitLock_nocell|apply inv_ret]|].
  intros _. apply inv_bind_ret.
  apply (inv_bind_where (fun rg => getColumn rg = 1));
    [apply getFirstEmptyRow_nocell|intros w a w'; apply getFirstEmptyRow_column|].
  intros firstEmpty Hc1. rewrite Hc1.
  unfold getRange.
  destruct ((1 <=? getRow firstEmpty) && (1 <=? 1) && (1 <=? 1)
            && (1 <=? getNumColumns range)) eqn:Hvalid; [|apply inv_bind_throw].
  apply inv_bind_ret.
  apply inv_bind.
  { unfold copyTo. apply inv_bind; [|intros _; apply nocell_modify; reflexivity].
    apply nocell_call. exact Hsrc. }
  intros _. apply inv_bind.
  - destruct digest; [|apply inv_ret].
    apply addDigest_nocell. exact Hn.
  - intros d. unfold when at 1. apply inv_bind_ret.
    apply inv_bind; [|intros; apply inv_ret].
    destruct useLock; unfold when; [apply releaseLock_nocell|apply inv_ret].
Qed.

Lemma move_default_nocell range digest useLock :
  col = getNumColumns range + 1 -> ~ covers range sheet col ->
  inv J (moveToFirstEmptyRow range sheet digest None useLock true).
Proof.
  intros Hn Hsrc. unfold moveToFirstEmptyRow.
  apply inv_bind; [destruct useLock; unfold when; [apply waitLock_nocell|apply inv_ret]|].
  intros _. apply inv_bind; [apply copy_default_nocell; assumption|intros destination].
  apply inv_bind; [go|intros _].
  apply inv_bind; [|intros; apply inv_ret].
  destruct useLock; unfold when; [apply releaseLock_nocell|apply inv_ret].
Qed.

End NoCellRead.

End NoCheck.

Import NoCheck.

(** The check without a digest. *)
Module RawMode.

Lemma call_sheets c w : sheets (snd (call c w)) = sheets w.
Proof. unfold call. destruct (faults w) as [[|n]|]; reflexivity. Qed.

Lemma waitLock_sheets t w : sheets (snd (waitLock t w)) = sheets w.
Proof.
  unfold waitLock, bind, call, gets, modify, throw.
  destruct (faults w) as [[|n]|]; cbn; try reflexivity; destruct (lock w); reflexivity.
Qed.

Lemma waitLock_faults t w a w1 :
  waitLock t w = (Ok a, w1) -> faults w = None -> faults w1 = None.
Proof.
  unfold waitLock, bind, call, gets, modify, throw. intros H Hf. rewrite Hf in H.
  cbn in H. destruct (lock w); inversion H; reflexivity.
Qed.

Lemma when_waitLock_sheets useLock w :
  sheets (snd (when useLock (waitLock 300000) w)) = sheets w.
Proof. destruct useLock; unfold when; [apply waitLock_sheets|reflexivity]. Qed.

Lemma when_waitLock_runs useLock w :
  faults w = None -> lock w <> HeldByOther ->
  exists w1, when useLock (waitLock 300000) w = (Ok tt, w1)
             /\ faults w1 = None /\ sheets w1 = sheets w.
Proof.
  intros Hf Hl. destruct useLock; unfold when.
  - eexists. split; [apply waitLock_runs; assumption|]. split; [exact Hf|reflexivity].
  - exists w. repeat split; auto.
Qed.

(** [isDuplicate] without a digest. *)
Lemma isDuplicate_raw range sheet last skip w :
  let res := isDuplicate range sheet false last skip w in
  sheets (snd res) = sheets w
  /\ (effective_last last (sheets w sheet) <> 0 -> exists e, fst res = Throw e)
  /\ (faults w = None -> effective_last last (sheets w sheet) <> 0 ->
      fst res = Throw digest_required)
  /\ (faults w = None -> effective_last last (sheets w sheet) = 0 -> fst res = Ok false).
Proof.
  cbv zeta. unfold isDuplicate, effective_last. destruct last as [l|].
  - rewrite bind_ret_l. destruct (Z.eqb_spec l 0) as [->|Hl]; cbn;
      repeat split; intros; try contradiction; try discriminate; eauto.
  - unfold getLastRow, bind, call, gets.
    destruct (faults w) as [[|n]|]; cbn [fst snd sheets];
      [|destruct (Z.eqb_spec (lastRow (sheets w sheet)) 0) as [E|E]; cbn..];
      repeat split; intros; try contradiction; try discriminate; eauto.
Qed.

(** The earlier revision returned [undefined] where the current one
    throws. *)
Lemma isDuplicate_legacy_falls_through range sheet skip w :
  faults w = None -> lastRow (sheets w sheet) <> 0 ->
  fst (isDuplicate_legacy range sheet false None skip w) = Ok None.
Proof.
  intros Hf HL. unfold isDuplicate_legacy.
  rewrite (bind_ok _ _ _ _ _ (getLastRow_runs sheet w Hf)).
  unfold loggerLog. erewrite bind_ok; [|apply call_runs; exact Hf].
  destruct (Z.eqb_spec (lastRow (sheets w sheet)) 0); [contradiction|reflexivity].
Qed.

(** With a callback and without a digest, on a sheet that has a last row:
    what follows the lock step. *)
Lemma check_raises_first {A} range sheet (k : bool -> M A) w :
  1 <= lastRow (sheets w sheet) ->
  let res := (duplicate <- isDuplicate range sheet false None 1 ;; k duplicate) w in
  (exists e, fst res = Throw e) /\ sheets (snd res) = sheets w
  /\ (faults w = None -> fst res = Throw digest_required).
Proof.
  intros HL. cbv zeta.
  destruct (isDuplicate_raw range sheet None 1 w) as (Hs & Hex & Hthrow & _).
  cbn [effective_last] in *. destruct (Hex ltac:(lia)) as [e He].
  destruct (isDuplicate range sheet false None 1 w) as [o w1] eqn:E.
  cbn [fst snd] in *. subst o.
  rewrite (bind_throw _ _ _ _ _ E). cbn [fst snd].
  split; [eauto|]. split; [exact Hs|]. intros Hf.
  specialize (Hthrow Hf ltac:(lia)). inversion Hthrow. reflexivity.
Qed.

Lemma after_lock_step {A} useLock (body : M A) w :
  (forall w1, sheets w1 = sheets w ->
     (exists e, fst (body w1) = Throw e) /\ sheets (snd (body w1)) = sheets w1
     /\ (faults w1 = None -> fst (body w1) = Throw digest_required)) ->
  let res := (when useLock (waitLock 300000) ;; body) w in
  (exists e, fst res = Throw e) /\ sheets (snd res) = sheets w
  /\ (faults w = None -> lock w <> HeldByOther -> fst res = Throw digest_required).
Proof.
  intros Hbody. cbv zeta.
  pose proof (when_waitLock_sheets useLock w) as Hs.
  destruct (when useLock (waitLock 300000) w) as [[[]|e] w1] eqn:E; cbn [snd] in Hs.
  - rewrite (bind_ok _ _ _ _ _ E).
    destruct (Hbody w1 Hs) as (Hex & Hsh & Hthrow).
    split; [exact Hex|]. split; [congruence|].
    intros Hf Hl. apply Hthrow.
    destruct (when_waitLock_runs useLock w Hf Hl) as (w1' & E' & Hf' & _).
    congruence.
  - rewrite (bind_throw _ _ _ _ _ E). cbn [fst snd].
    split; [eauto|]. split; [exact Hs|].
    intros Hf Hl.
    destruct (when_waitLock_runs useLock w Hf Hl) as (w1' & E' & _). congruence.
Qed.

End RawMode.

Import RawMode.

(** C6, as the code has it.  [isDuplicate] with [useDigest] false, when no
    host call fails: it throws the string "Digest required for duplication
    check", and leaves every sheet as it was, whenever the last row it works
    with (the argument [last], or the sheet's last data row when [last] is
    [null]) is not 0; when that row is 0 it returns [false]. *)
Theorem isDuplicate_without_digest_throws
    (range : Range) (sheet : SheetId) (last : option Z) (skip : Z) (w : World) :
  faults w = None ->
  let res := isDuplicate range sheet false last skip w in
  (effective_last last (sheets w sheet) <> 0 ->
     fst res = Throw digest_required /\ sheets (snd res) = sheets w)
  /\ (effective_last last (sheets w sheet) = 0 -> fst res = Ok false).
Proof.
  intros Hf. cbv zeta.
  destruct (RawMode.isDuplicate_raw range sheet last skip w) as (Hs & _ & Hthrow & Hfalse).
  split.
  - intros H. split; [apply Hthrow; assumption|exact Hs].
  - intros H. apply Hfalse; assumption.
Qed.

(** C10, as the code has it.  [copyToFirstEmptyRow] and
    [moveToFirstEmptyRow] check for a duplicate only when a callback is
    given.  Without a callback, whatever [digest] and [ignoreCheckboxes]
    are, the run never ends with the string the check without a digest
    throws, and its log shows no [getValues] on a range of the destination
    sheet that covers the digest column (the column after the columns of
    the range), which is how [isDuplicate] reads it.  With the default
    placement ([ignoreCheckboxes] true) and a range that does not itself
    hold a cell of that column, the log shows no call at all on cells of
    the digest column: no [getValues], [getDataValidations], [isBlank] or
    [copyTo] from a range that covers it.  With the other placement the
    scan does look at it: see [placement_scan_reads_the_digest_column].
    With a callback and [digest] false, on a destination sheet whose last
    row is at least 1, the call raises and every sheet is as it was before
    the call: no row was reserved, copied or written; the error is the
    string of the check when no host call fails and the lock can be
    taken. *)
Theorem duplicate_check_only_with_callback
    (range : Range) (sheet : SheetId) (useLock ic : bool) (w : World) :
  (forall digest, 1 <= getNumColumns range ->
     let copied := copyToFirstEmptyRow range sheet digest None useLock ic w in
     let moved := moveToFirstEmptyRow range sheet digest None useLock ic w in
     let column := getNumColumns range + 1 in
     (fst copied <> Throw digest_required
      /\ log_grows (fun c => ~ reads_column sheet column c) (log w) (snd copied)
      /\ (ic = true -> ~ covers range sheet column ->
          log_grows (fun c => ~ reads_cells sheet column c) (log w) (snd copied)))
     /\ (fst moved <> Throw digest_required
         /\ log_grows (fun c => ~ reads_column sheet column c) (log w) (snd moved)
         /\ (ic = true -> ~ covers range sheet column ->
             log_grows (fun c => ~ reads_cells sheet column c) (log w) (snd moved))))
  /\ (forall callback, 1 <= lastRow (sheets w sheet) ->
        let copied := copyToFirstEmptyRow range sheet false (Some callback) useLock ic w in
        let moved := moveToFirstEmptyRow range sheet false (Some callback) useLock ic w in
        ((exists e, fst copied = Throw e) /\ sheets (snd copied) = sheets w
         /\ (faults w = None -> lock w <> HeldByOther -> fst copied = Throw digest_required))
        /\ ((exists e, fst moved = Throw e) /\ sheets (snd moved) = sheets w
            /\ (faults w = None -> lock w <> HeldByOther ->
                fst moved = Throw digest_required))).
Proof.
  split.
  - intros digest Hn. cbv zeta.
    assert (log_grows (fun c => ~ reads_column sheet (getNumColumns range + 1) c)
                      (log w) w) as Hstart
      by (exists []; split; [symmetry; apply app_nil_r|constructor]).
    assert (log_grows (fun c => ~ reads_cells sheet (getNumColumns range + 1) c)
                      (log w) w) as Hstart'
      by (exists []; split; [symmetry; apply app_nil_r|constructor]).
    split; split; [| split | | split].
    + apply (NoCheck.copy_without_callback_avoids
               "Digest required for duplication check").
    + apply (NoCheck.copy_without_callback_noread sheet (getNumColumns range + 1) (log w));
        [lia|reflexivity|exact Hstart].
    + intros -> Hsrc.
      apply (NoCheck.copy_default_nocell sheet (getNumColumns range + 1) (log w));
        [reflexivity|exact Hsrc|exact Hstart'].
    + apply (NoCheck.move_without_callback_avoids
               "Digest required for duplication check").
    + apply (NoCheck.move_without_callback_noread sheet (getNumColumns range + 1) (log w));
        [lia|reflexivity|exact Hstart].
    + intros -> Hsrc.
      apply (NoCheck.move_default_nocell sheet (getNumColumns range + 1) (log w));
        [reflexivity|exact Hsrc|exact Hstart'].
  - intros callback HL. cbv zeta. split.
    + unfold copyToFirstEmptyRow.
      apply (RawMode.after_lock_step useLock). intros w1 Hs1.
      apply RawMode.check_raises_first. rewrite Hs1. exact HL.
    + unfold moveToFirstEmptyRow.
      apply (RawMode.after_lock_step useLock). intros w1 Hs1.
      unfold copyToFirstEmptyRow. cbn [when]. rewrite bind_assoc, bind_ret_l.
      rewrite bind_assoc.
      apply RawMode.check_raises_first. rewrite Hs1. exact HL.
Qed.

(* ===================================================================== *)
(** ** The digest *)
(* ===================================================================== *)

Module Digest.

Import Utilities.
Lemma range_values_first_row (s : Sheet) (rg : Range) :
  1 <= getNumRows rg ->
  exists rest, map (map value) (range_cells s rg) = first_row s rg :: rest.
Proof.
  intros Hn. unfold range_cells, first_row, seqZ.
  destruct (Z.to_nat (getNumRows rg)) as [|n] eqn:E; [lia|].
  cbn [seq map]. eexists. f_equal.
  rewrite !map_map. replace (getRow rg + Z.of_nat 0) with (getRow rg) by lia.
  reflexivity.
Qed.

Lemma getDigest_runs (rg : Range) (skip : Z) (enc : DigestAlgorithm) (w : World) :
  faults w = None -> 1 <= getNumRows rg ->
  runs (getDigest rg skip enc) w
       (digest_of_values (first_row (sheets w (getSheet rg)) rg) skip enc)
       (logged (CGetValues rg) w).
Proof.
  intros Hf Hn. unfold getDigest.
  eapply runs_bind; [apply getValues_runs; exact Hf|].
  destruct (range_values_first_row (sheets w (getSheet rg)) rg Hn) as [rest ->].
  apply runs_ret.
Qed.

Lemma slice_first_row (s : Sheet) (rg : Range) (k : Z) :
  0 <= k ->
  slice (first_row s rg) k
  = map (fun i => value (cellAt s (getRow rg) (getColumn rg + Z.of_nat i)))
        (seq (Z.to_nat k) (Z.to_nat (getNumColumns rg) - Z.to_nat k)).
Proof.
  intros Hk. unfold slice, first_row.
  destruct (Z.ltb_spec k 0); [lia|].
  rewrite skipn_map, skipn_seq. reflexivity.
Qed.

(** *** [join] on strings without the delimiter *)

Lemma append_comma_inj (a b x y : string) :
  has_comma a = false -> has_comma b = false ->
  (a ++ "," ++ x)%string = (b ++ "," ++ y)%string -> a = b /\ x = y.
Proof.
  revert b. induction a as [|c a IH]; intros b Ha Hb H.
  - destruct b as [|c' b]; cbn in H.
    + inversion H. auto.
    + inversion H. subst c'. cbn in Hb. discriminate.
  - destruct b as [|c' b]; cbn in H.
    + inversion H. subst c. cbn in Ha. discriminate.
    + inversion H. subst c'. cbn in Ha, Hb.
      apply orb_false_elim in Ha, Hb. destruct Ha as [_ Ha]. destruct Hb as [_ Hb].
      destruct (IH b Ha Hb H2) as [-> ->]. auto.
Qed.

(** *** Values without the delimiter *)

Lemma has_comma_digits (d : Decimal.uint) :
  has_comma (NilEmpty.string_of_uint d) = false.
Proof. induction d; cbn; auto. Qed.

Lemma has_comma_number (n : Z) : has_comma (toString (VNum n)) = false.
Proof.
  cbn [toString]. unfold NilZero.string_of_int, NilZero.string_of_uint.
  destruct (Z.to_int n) as [d|d]; destruct d; cbn [has_comma Ascii.eqb orb];
    try reflexivity; cbn; apply has_comma_digits.
Qed.

Lemma plain_no_comma (x : Value) : plain x = true -> has_comma (toString x) = false.
Proof.
  destruct x as [s|n|[|]]; intros H.
  - cbn in *. apply negb_true_iff. exact H.
  - apply has_comma_number.
  - reflexivity.
  - reflexivity.
Qed.

Lemma has_comma_app (a b : string) : has_comma (a ++ "," ++ b) = true.
Proof.
  induction a as [|c a IH]; [reflexivity|].
  change (String c a ++ "," ++ b) with (String c (a ++ "," ++ b)).
  cbn [has_comma]. rewrite IH. apply orb_true_r.
Qed.

(** Two lists of strings without the delimiter, neither of them empty,
    that join to the same string are the same list. *)
Lemma concat_comma_same (l1 : list string) :
  forall l2, l1 <> [] -> l2 <> [] ->
  Forall (fun s => has_comma s = false) l1 ->
  Forall (fun s => has_comma s = false) l2 ->
  String.concat "," l1 = String.concat "," l2 -> l1 = l2.
Proof.
  induction l1 as [|x xs IH]; intros l2 Hn1 Hn2 H1 H2 Heq; [contradiction|].
  destruct l2 as [|y ys]; [contradiction|].
  inversion H1 as [|? ? Hx Hxs]. inversion H2 as [|? ? Hy Hys]. subst.
  destruct xs as [|x' xs]; destruct ys as [|y' ys]; cbn [String.concat] in Heq.
  - subst. reflexivity.
  - subst x. rewrite has_comma_app in Hx. discriminate.
  - subst y. rewrite has_comma_app in Hy. discriminate.
  - destruct (append_comma_inj _ _ _ _ Hx Hy Heq) as [-> Hrest].
    f_equal. apply IH; try assumption; discriminate.
Qed.

Lemma concat_comma_empty (l : list string) :
  String.concat "," l = "" -> l = [] \/ l = [""].
Proof.
  destruct l as [|x [|y l]]; cbn [String.concat]; intros H.
  - left. reflexivity.
  - right. subst. reflexivity.
  - exfalso. destruct x; cbn in H; discriminate.
Qed.

(** When no string holds the delimiter, the joined strings are equal for
    the same list only, or for two lists that join to the empty string. *)
Lemma concat_comma_eq (l1 l2 : list string) :
  Forall (fun s => has_comma s = false) l1 ->
  Forall (fun s => has_comma s = false) l2 ->
  (String.concat "," l1 = String.concat "," l2
   <-> l1 = l2 \/ ((l1 = [] \/ l1 = [""]) /\ (l2 = [] \/ l2 = [""]))).
Proof.
  intros H1 H2. split.
  - intros Heq. destruct l1 as [|x xs].
    + right. split; [left; reflexivity|]. apply concat_comma_empty. symmetry. exact Heq.
    + destruct l2 as [|y ys].
      * right. split; [apply concat_comma_empty; exact Heq|left; reflexivity].
      * left. apply concat_comma_same; try assumption; discriminate.
  - intros [->|[[->| ->] [->| ->]]]; reflexivity.
Qed.

(** *** The bytes of a string *)

Lemma list_ascii_of_string_inj (s t : string) :
  list_ascii_of_string s = list_ascii_of_string t -> s = t.
Proof.
  intros H. rewrite <- (string_of_list_ascii_of_string s), H.
  apply string_of_list_ascii_of_string.
Qed.

Lemma bytes_of_string_inj (s t : string) :
  bytes_of_string s = bytes_of_string t -> s = t.
Proof.
  unfold bytes_of_string. intros H. apply list_ascii_of_string_inj.
  revert H. generalize (list_ascii_of_string s) (list_ascii_of_string t).
  induction l as [|a l IH]; intros [|b l'] H; try discriminate; [reflexivity|].
  cbn [map] in H. injection H as Hab Hl. f_equal; [|apply IH; exact Hl].
  apply N2Z.inj in Hab.
  rewrite <- (ascii_N_embedding a), Hab. apply ascii_N_embedding.
Qed.

End Digest.

Import Digest.

(** C4.  [getDigest] reads nothing but the values of its range after the
    skipped columns.  For two ranges of one row or more, with the same
    number of columns, in any two worlds where no host call fails, and a
    skip count [k]: when the first rows agree at every position from [k] on
    (they may differ in the first [k] cells, and the worlds in everything
    else), both calls return the same digest string, and the call leaves the
    sheets as they are, so a repeated call returns it again. *)
Theorem getDigest_depends_only_on_values_after_skip
    (r1 r2 : Range) (w1 w2 : World) (k : Z) (encoding : Utilities.DigestAlgorithm) :
  faults w1 = None -> faults w2 = None ->
  1 <= getNumRows r1 -> 1 <= getNumRows r2 ->
  getNumColumns r1 = getNumColumns r2 ->
  (forall j, k <= j < getNumColumns r1 ->
     value (cellAt (sheets w1 (getSheet r1)) (getRow r1) (getColumn r1 + j))
     = value (cellAt (sheets w2 (getSheet r2)) (getRow r2) (getColumn r2 + j))) ->
  exists d,
    fst (getDigest r1 k encoding w1) = Ok d
    /\ fst (getDigest r2 k encoding w2) = Ok d
    /\ sheets (snd (getDigest r1 k encoding w1)) = sheets w1
    /\ fst (getDigest r1 k encoding (snd (getDigest r1 k encoding w1))) = Ok d.
Proof.
  intros Hf1 Hf2 Hn1 Hn2 Hcols Hagree.
  pose proof (Digest.getDigest_runs r1 k encoding w1 Hf1 Hn1) as Hrun1.
  pose proof (Digest.getDigest_runs r2 k encoding w2 Hf2 Hn2) as Hrun2.
  pose proof (Digest.getDigest_runs r1 k encoding (logged (CGetValues r1) w1) Hf1 Hn1)
    as Hrun3.
  unfold runs in *. rewrite Hrun1, Hrun2. cbn [fst snd]. rewrite Hrun3. cbn [fst].
  exists (digest_of_values (first_row (sheets w1 (getSheet r1)) r1) k encoding).
  split; [reflexivity|]. split; [|split; reflexivity].
  unfold digest_of_values.
  cut (slice (first_row (sheets w2 (getSheet r2)) r2) k
       = slice (first_row (sheets w1 (getSheet r1)) r1) k);
    [intros ->; reflexivity|].
  destruct (Z_le_dec 0 k) as [Hk|Hk].
  - rewrite !Digest.slice_first_row by exact Hk. rewrite <- Hcols.
    apply map_ext_in. intros i Hi. apply in_seq in Hi. symmetry. apply Hagree. lia.
  - f_equal. unfold first_row. rewrite <- Hcols.
    apply map_ext_in. intros i Hi. apply in_seq in Hi. symmetry. apply Hagree. lia.
Qed.

Module Base64.

Import Utilities.
Local Abbreviation byte b := (0 <= b < 256).

Lemma each_byte (P : Z -> bool) :
  forallb P (seqZ 0 256) = true -> forall a, byte a -> P a = true.
Proof.
  intros H a Ha. rewrite forallb_forall in H. apply H. apply In_seqZ. lia.
Qed.

Lemma each_two_bytes (P : Z -> Z -> bool) :
  forallb (fun a => forallb (P a) (seqZ 0 256)) (seqZ 0 256) = true ->
  forall a b, byte a -> byte b -> P a b = true.
Proof.
  intros H a b Ha Hb.
  apply (each_byte (P a)); [|exact Hb].
  apply (each_byte (fun a => forallb (P a) (seqZ 0 256))); assumption.
Qed.

(** The characters of the alphabet are distinct, and none is the padding
    character. *)
Lemma b64_char_inj (i j : Z) :
  0 <= i < 64 -> 0 <= j < 64 -> b64_char i = b64_char j -> i = j.
Proof.
  intros Hi Hj H.
  assert (forallb (fun i => forallb (fun j =>
            implb (Ascii.eqb (b64_char i) (b64_char j)) (i =? j)) (seqZ 0 64)) (seqZ 0 64)
          = true) as Hall by (vm_compute; reflexivity).
  rewrite forallb_forall in Hall. specialize (Hall i ltac:(apply In_seqZ; lia)).
  rewrite forallb_forall in Hall. specialize (Hall j ltac:(apply In_seqZ; lia)).
  rewrite H, Ascii.eqb_refl in Hall. cbn [implb] in Hall. apply Z.eqb_eq. exact Hall.
Qed.

Lemma b64_char_not_padding (i : Z) : 0 <= i < 64 -> b64_char i <> "="%char.
Proof.
  intros Hi H.
  assert (forallb (fun i => negb (Ascii.eqb (b64_char i) "=")) (seqZ 0 64) = true) as Hall
    by (vm_compute; reflexivity).
  rewrite forallb_forall in Hall. specialize (Hall i ltac:(apply In_seqZ; lia)).
  rewrite H in Hall. discriminate.
Qed.

(** The four groups of six bits that three bytes are cut into. *)
Local Abbreviation six1 a := (Z.shiftr a 2).
Local Abbreviation six2 a b := (Z.lor (Z.shiftl (Z.land a 3) 4) (Z.shiftr b 4)).
Local Abbreviation six3 b c := (Z.lor (Z.shiftl (Z.land b 15) 2) (Z.shiftr c 6)).
Local Abbreviation six4 c := (Z.land c 63).
Local Abbreviation six2_last a := (Z.shiftl (Z.land a 3) 4).
Local Abbreviation six3_last b := (Z.shiftl (Z.land b 15) 2).

Lemma six_range (a b : Z) :
  byte a -> byte b ->
  0 <= six1 a < 64 /\ 0 <= six2 a b < 64 /\ 0 <= six3 a b < 64 /\ 0 <= six4 a < 64
  /\ 0 <= six2_last a < 64 /\ 0 <= six3_last a < 64.
Proof.
  intros Ha Hb.
  pose proof (each_two_bytes
    (fun a b => (0 <=? six1 a) && (six1 a <? 64) && (0 <=? six2 a b) && (six2 a b <? 64)
                && (0 <=? six3 a b) && (six3 a b <? 64) && (0 <=? six4 a) && (six4 a <? 64)
                && (0 <=? six2_last a) && (six2_last a <? 64)
                && (0 <=? six3_last a) && (six3_last a <? 64))
    ltac:(vm_compute; reflexivity) a b Ha Hb) as H.
  cbv beta in H. repeat (apply andb_prop in H; destruct H as [H ?]).
  repeat match goal with
         | H : (_ <=? _) = true |- _ => apply Z.leb_le in H
         | H : (_ <? _) = true |- _ => apply Z.ltb_lt in H
         end.
  lia.
Qed.

(** The bytes are read back from their groups. *)
Lemma first_byte (a b : Z) :
  byte a -> byte b ->
  Z.lor (Z.shiftl (six1 a) 2) (Z.shiftr (six2 a b) 4) = a
  /\ Z.lor (Z.shiftl (six1 a) 2) (Z.shiftr (six2_last a) 4) = a.
Proof.
  intros Ha Hb.
  pose proof (each_two_bytes
    (fun a b => (Z.lor (Z.shiftl (six1 a) 2) (Z.shiftr (six2 a b) 4) =? a)
                && (Z.lor (Z.shiftl (six1 a) 2) (Z.shiftr (six2_last a) 4) =? a))
    ltac:(vm_compute; reflexivity) a b Ha Hb) as H.
  cbv beta in H. apply andb_prop in H. destruct H as [H1 H2].
  split; apply Z.eqb_eq; assumption.
Qed.

Lemma second_byte (a b c : Z) :
  byte a -> byte b -> byte c ->
  Z.lor (Z.shiftl (Z.land (six2 a b) 15) 4) (Z.shiftr (six3 b c) 2) = b
  /\ Z.lor (Z.shiftl (Z.land (six2 a b) 15) 4) (Z.shiftr (six3_last b) 2) = b.
Proof.
  intros Ha Hb Hc.
  pose proof (each_two_bytes (fun a b => Z.land (six2 a b) 15 =? Z.shiftr b 4)
    ltac:(vm_compute; reflexivity) a b Ha Hb) as H1.
  pose proof (each_two_bytes
    (fun b c => (Z.shiftr (six3 b c) 2 =? Z.land b 15)
                && (Z.shiftr (six3_last b) 2 =? Z.land b 15)
                && (Z.lor (Z.shiftl (Z.shiftr b 4) 4) (Z.land b 15) =? b))
    ltac:(vm_compute; reflexivity) b c Hb Hc) as H2.
  cbv beta in H1, H2. apply Z.eqb_eq in H1.
  apply andb_prop in H2. destruct H2 as [H2 H4].
  apply andb_prop in H2. destruct H2 as [H2 H3].
  apply Z.eqb_eq in H2, H3, H4. rewrite H1, H2, H3. split; exact H4.
Qed.

Lemma third_byte (b c : Z) :
  byte b -> byte c ->
  Z.lor (Z.shiftl (Z.land (six3 b c) 3) 6) (six4 c) = c.
Proof.
  intros Hb Hc.
  pose proof (each_two_bytes
    (fun b c => Z.lor (Z.shiftl (Z.land (six3 b c) 3) 6) (six4 c) =? c)
    ltac:(vm_compute; reflexivity) b c Hb Hc) as H.
  apply Z.eqb_eq. exact H.
Qed.

Lemma b64_groups_nil (n : nat) (l : list Z) :
  (List.length l <= n)%nat -> b64_groups n l = [] -> l = [].
Proof.
  destruct n as [|n]; destruct l as [|a [|b [|c rest]]]; cbn [List.length b64_groups];
    intros Hlen H; try reflexivity; try discriminate; lia.
Qed.

Lemma cons_eq {A} (x y : A) (l l' : list A) : x :: l = y :: l' -> x = y /\ l = l'.
Proof. intros H. inversion H. auto. Qed.

Ltac uncons H :=
  repeat (apply cons_eq in H; let Hc := fresh "Hc" in destruct H as [Hc H]).

Ltac chars_to_groups :=
  repeat match goal with
         | H : b64_char _ = "="%char |- _ =>
             exfalso; revert H; apply b64_char_not_padding; lia
         | H : "="%char = b64_char _ |- _ =>
             exfalso; symmetry in H; revert H; apply b64_char_not_padding; lia
         | H : b64_char _ = b64_char _ |- _ => apply b64_char_inj in H; [|lia|lia]
         end.

(** Bytes are read back from their encoding: two lists of bytes with the
    same encoding are the same list. *)
Lemma b64_groups_inj (n : nat) :
  forall (l : list Z) (n' : nat) (l' : list Z),
  (List.length l <= n)%nat -> (List.length l' <= n')%nat ->
  Forall (fun b => byte b) l -> Forall (fun b => byte b) l' ->
  b64_groups n l = b64_groups n' l' -> l = l'.
Proof.
  induction n as [|n IH]; intros l n' l' Hlen Hlen' Hl Hl' H.
  - destruct l; [|cbn in Hlen; lia]. cbn in H. symmetry.
    apply (b64_groups_nil n'); [exact Hlen'|symmetry; exact H].
  - destruct l as [|a l].
    { cbn in H. symmetry. apply (b64_groups_nil n'); [exact Hlen'|symmetry; exact H]. }
    destruct l' as [|a' l'].
    { assert (b64_groups n' [] = []) as E by (destruct n'; reflexivity).
      rewrite E in H. destruct l as [|b [|c l]]; cbn [b64_groups] in H; discriminate. }
    destruct n' as [|n']; [cbn in Hlen'; lia|].
    inversion Hl as [|? ? Ha Hl1]. inversion Hl' as [|? ? Ha' Hl1']. subst.
    pose proof (six_range a a Ha Ha) as Ra. pose proof (six_range a' a' Ha' Ha') as Ra'.
    destruct l as [|b l]; destruct l' as [|b' l'].
    + cbn [b64_groups] in H. uncons H. chars_to_groups.
      f_equal. rewrite <- (proj2 (first_byte a a Ha Ha)), Hc, Hc0.
      apply (proj2 (first_byte a' a' Ha' Ha')).
    + inversion Hl1' as [|? ? Hb' Hl2']. subst.
      pose proof (six_range b' b' Hb' Hb') as Rb'.
      destruct l' as [|c' l']; cbn [b64_groups] in H; uncons H.
      * chars_to_groups.
      * inversion Hl2' as [|? ? Hcb' Hl3']. subst.
        pose proof (six_range b' c' Hb' Hcb') as Rbc'. chars_to_groups.
    + inversion Hl1 as [|? ? Hb Hl2]. subst.
      pose proof (six_range b b Hb Hb) as Rb.
      destruct l as [|c l]; cbn [b64_groups] in H; uncons H.
      * chars_to_groups.
      * inversion Hl2 as [|? ? Hcb Hl3]. subst.
        pose proof (six_range b c Hb Hcb) as Rbc. chars_to_groups.
    + inversion Hl1 as [|? ? Hb Hl2]. inversion Hl1' as [|? ? Hb' Hl2']. subst.
      pose proof (six_range b b Hb Hb) as Rb. pose proof (six_range b' b' Hb' Hb') as Rb'.
      pose proof (six_range a b Ha Hb) as Rab. pose proof (six_range a' b' Ha' Hb') as Rab'.
      destruct l as [|c l]; destruct l' as [|c' l'].
      * cbn [b64_groups] in H. uncons H. chars_to_groups.
        assert (a = a') as <-.
        { rewrite <- (proj1 (first_byte a b Ha Hb)), Hc, Hc0.
          apply (proj1 (first_byte a' b' Ha' Hb')). }
        f_equal. f_equal.
        rewrite <- (proj2 (second_byte a b b Ha Hb Hb)), Hc0, Hc1.
        apply (proj2 (second_byte a b' b' Ha Hb' Hb')).
      * inversion Hl2' as [|? ? Hcb' Hl3']. subst.
        pose proof (six_range c' c' Hcb' Hcb') as Rc'.
        pose proof (six_range b' c' Hb' Hcb') as Rbc'.
        cbn [b64_groups] in H. uncons H. chars_to_groups.
      * inversion Hl2 as [|? ? Hcb Hl3]. subst.
        pose proof (six_range c c Hcb Hcb) as Rc.
        pose proof (six_range b c Hb Hcb) as Rbc.
        cbn [b64_groups] in H. uncons H. chars_to_groups.
      * inversion Hl2 as [|? ? Hcb Hl3]. inversion Hl2' as [|? ? Hcb' Hl3']. subst.
        pose proof (six_range c c Hcb Hcb) as Rc. pose proof (six_range c' c' Hcb' Hcb') as Rc'.
        pose proof (six_range b c Hb Hcb) as Rbc. pose proof (six_range b' c' Hb' Hcb') as Rbc'.
        cbn [b64_groups] in H. uncons H. chars_to_groups.
        assert (a = a') as <-.
        { rewrite <- (proj1 (first_byte a b Ha Hb)), Hc, Hc0.
          apply (proj1 (first_byte a' b' Ha' Hb')). }
        assert (b = b') as <-.
        { rewrite <- (proj1 (second_byte a b c Ha Hb Hcb)), Hc0, Hc1.
          apply (proj1 (second_byte a b' c' Ha Hb' Hcb')). }
        assert (c = c') as <-.
        { rewrite <- (third_byte b c Hb Hcb), Hc1, Hc2. apply (third_byte b c' Hb Hcb'). }
        f_equal. f_equal. f_equal.
        apply (IH l n' l'); [cbn in Hlen; lia|cbn in Hlen'; lia|assumption|assumption|exact H].
Qed.

Lemma string_of_list_ascii_inj (l l' : list ascii) :
  string_of_list_ascii l = string_of_list_ascii l' -> l = l'.
Proof.
  intros H. rewrite <- (list_ascii_of_string_of_list_ascii l), H.
  apply list_ascii_of_string_of_list_ascii.
Qed.

Lemma base64Encode_inj (l l' : list Z) :
  Forall (fun b => byte b) l -> Forall (fun b => byte b) l' ->
  base64Encode l = base64Encode l' -> l = l'.
Proof.
  intros Hl Hl' H. unfold base64Encode in H. apply string_of_list_ascii_inj in H.
  apply (b64_groups_inj _ _ _ _ (Nat.le_refl _) (Nat.le_refl _) Hl Hl' H).
Qed.

(** SHA-1 returns bytes. *)
Lemma be_bytes_are_bytes (n : nat) (x : Z) : Forall (fun b => byte b) (be_bytes n x).
Proof.
  induction n as [|n IH]; cbn [be_bytes]; constructor; [|exact IH].
  change 255 with (Z.ones 8). rewrite Z.land_ones by lia.
  apply Z.mod_pos_bound. reflexivity.
Qed.

Lemma SHA_1_returns_bytes : returns_bytes SHA_1.
Proof.
  intros msg. unfold SHA_1, sha1. cbv zeta.
  repeat (apply Forall_app; split); apply be_bytes_are_bytes.
Qed.

End Base64.

Import Base64.

(** C3, as the code has it.  [getDigest] feeds the hash the bytes of the
    string forms of the first row's values after the skipped ones, joined
    with a comma, and returns the base64 text of what the hash returns.
    Take two ranges, in any two worlds, whose values after the skipped ones
    are plain: strings without a comma, booleans, safe integers.  The bytes
    fed to the hash are the same exactly when the two rows have the same
    string forms, or each of them joins to the empty string (no value at
    all, or one value whose string form is empty).  And for an algorithm
    that returns bytes, the two digests are the same exactly when the
    algorithm returns the same bytes for the two inputs: rows with other
    string forms share a digest only where the hash itself collides.
    Nothing of this holds for values with a comma: see
    [getDigest_collides_on_distinct_rows]. *)
Theorem getDigest_separates_plain_rows
    (r1 r2 : Range) (w1 w2 : World) (row1 row2 : list Js.Value)
    (rest1 rest2 : list (list Js.Value)) (skip : Z)
    (encoding : Utilities.DigestAlgorithm) :
  fst (getValues r1 w1) = Ok (row1 :: rest1) ->
  fst (getValues r2 w2) = Ok (row2 :: rest2) ->
  let u := Js.slice row1 skip in
  let v := Js.slice row2 skip in
  (forall x, In x u \/ In x v -> plain x = true) ->
  let fed1 := Utilities.bytes_of_string (Js.join u) in
  let fed2 := Utilities.bytes_of_string (Js.join v) in
  fst (getDigest r1 skip encoding w1) = Ok (Utilities.base64Encode (encoding fed1))
  /\ fst (getDigest r2 skip encoding w2) = Ok (Utilities.base64Encode (encoding fed2))
  /\ (fed1 = fed2
      <-> map Js.toString u = map Js.toString v \/ (no_text u /\ no_text v))
  /\ (returns_bytes encoding ->
      (fst (getDigest r1 skip encoding w1) = fst (getDigest r2 skip encoding w2)
       <-> encoding fed1 = encoding fed2)).
Proof.
  intros Hv1 Hv2 u v Hplain fed1 fed2.
  assert (fst (getDigest r1 skip encoding w1)
          = Ok (Utilities.base64Encode (encoding fed1))) as Hd1.
  { unfold getDigest, bind. destruct (getValues r1 w1) as [[rows|e] w']; cbn [fst] in Hv1;
      [|discriminate]. injection Hv1 as ->. reflexivity. }
  assert (fst (getDigest r2 skip encoding w2)
          = Ok (Utilities.base64Encode (encoding fed2))) as Hd2.
  { unfold getDigest, bind. destruct (getValues r2 w2) as [[rows|e] w']; cbn [fst] in Hv2;
      [|discriminate]. injection Hv2 as ->. reflexivity. }
  split; [exact Hd1|]. split; [exact Hd2|]. split.
  - assert (Forall (fun s => has_comma s = false) (map Js.toString u)) as Hu.
    { apply Forall_map. apply Forall_forall. intros x Hx.
      apply Digest.plain_no_comma. apply Hplain. left. exact Hx. }
    assert (Forall (fun s => has_comma s = false) (map Js.toString v)) as Hv.
    { apply Forall_map. apply Forall_forall. intros x Hx.
      apply Digest.plain_no_comma. apply Hplain. right. exact Hx. }
    unfold fed1, fed2, no_text. rewrite <- (Digest.concat_comma_eq _ _ Hu Hv). split.
    + intros H. apply Digest.bytes_of_string_inj. exact H.
    + intros H. unfold Js.join. rewrite H. reflexivity.
  - intros Hbytes. rewrite Hd1, Hd2. split.
    + intros H. injection H as H.
      apply Base64.base64Encode_inj; [apply Hbytes|apply Hbytes|exact H].
    + intros ->. reflexivity.
Qed.

(* ===================================================================== *)
(** ** Checkbox rows and the gap scan *)
(* ===================================================================== *)

Module Checkbox.

(** The loop of [isRangeEmpty] accepts the cells that are empty or under a
    checkbox rule. *)
Lemma isRangeEmpty_for_cells (cells : list Cell) :
  isRangeEmpty_for (map value cells) (map validation cells)
  = Ok (forallb (fun c => is_empty_string (value c) || is_checkbox c) cells).
Proof.
  induction cells as [|c cells IH]; [reflexivity|].
  cbn [map isRangeEmpty_for forallb tl]. unfold is_checkbox at 1.
  destruct (is_empty_string (value c)); cbn [orb andb]; [exact IH|].
  destruct (validation c) as [[]|]; cbn [andb]; [exact IH|reflexivity|reflexivity].
Qed.

(** [isRangeEmpty] with [ignoreCheckbox] set: the range counts as empty
    when each of its cells is empty or under a checkbox rule. *)
Lemma isRangeEmpty_checkbox_runs (range : Range) (w : World) :
  faults w = None ->
  runs (isRangeEmpty range true) w
       (forallb (fun c => is_empty_string (value c) || is_checkbox c)
                (flat (range_cells (sheets w (getSheet range)) range)))
       (logged (CGetDataValidations range) (logged (CGetValues range) w)).
Proof.
  intros Hf. unfold isRangeEmpty. cbn [negb].
  eapply runs_bind; [apply getValues_runs; exact Hf|].
  eapply runs_bind.
  { unfold getDataValidations.
    eapply runs_bind; [apply call_runs; exact Hf|]. reflexivity. }
  cbn [sheets logged]. unfold runs, flat.
  rewrite <- !concat_map, isRangeEmpty_for_cells. reflexivity.
Qed.

End Checkbox.

Import Checkbox.

(** C2, as the code has it.  On the path [getFirstEmptyRow] takes when
    [ignoreCheckboxes] is not set, for a sheet whose last data row [L] is at
    least 1 and when no host call fails: the backward scan over column
    [index] stops at a row [start], the last row below row [frozen + 1]
    whose cell in that column is not empty, or row [frozen + 1] (or [L],
    when [L] is smaller) when there is none; the forward scan begins there,
    not at the first unfrozen row.  The row returned, and reserved by an
    inserted row, is the first row from [start] to [L] without content, or
    [L + 1] when they all have some. *)
Theorem getFirstEmptyRow_scan_begins_where_backward_scan_stopped
    (sheet : SheetId) (index : Z) (w : World) :
  faults w = None ->
  1 <= index ->
  0 <= frozenRows (sheets w sheet) ->
  1 <= maxColumns (sheets w sheet) ->
  1 <= lastRow (sheets w sheet) ->
  let s := sheets w sheet in
  let F := frozenRows s in
  let L := lastRow s in
  let res := getFirstEmptyRow sheet index false w in
  exists start R,
    1 <= start <= L
    /\ (forall r, start < r <= L ->
          F + 1 < r /\ is_empty_string (value (cellAt s r index)) = true)
    /\ (F + 1 < start -> is_empty_string (value (cellAt s start index)) = false)
    /\ start <= R <= L + 1
    /\ (forall r, start <= r < R -> row_has_content s r = true)
    /\ (R <= L -> row_has_content s R = false)
    /\ fst res = Ok (mkRange sheet R 1 1 1)
    /\ sheets (snd res) sheet = insert_row R s.
Proof.
  intros Hf Hindex HF Hcols HL. cbv zeta.
  destruct (GapScan.getFirstEmptyRow_scan_runs sheet index w Hf Hindex HF Hcols HL)
    as (start & R & w1 & Hrun & _ & H1 & H2 & H3 & H4 & H5 & H6).
  exists start, R. unfold runs in Hrun. rewrite Hrun. cbn [fst snd].
  rewrite sheets_set_sheet_same. repeat (split; [assumption|]). split; reflexivity.
Qed.

(** The sheet of the example: the scan returns row 6 and leaves the gap at
    row 3. *)
Lemma gap_at_row_3_is_not_reused :
  frozenRows gap_sheet = 1
  /\ lastRow gap_sheet = 5
  /\ map (row_has_content gap_sheet) [2; 3; 4; 5] = [true; false; true; true]
  /\ fst (getFirstEmptyRow "Data" 1 false gap_world) = Ok (mkRange "Data" 6 1 1 1)
  /\ fst (getFirstEmptyRow "Data" 1 false gap_world) <> Ok (mkRange "Data" 3 1 1 1).
Proof.
  repeat split; try (vm_compute; reflexivity). vm_compute. discriminate.
Qed.

Lemma getFirstEmptyRow_scan_on_gap_sheet :
  faults gap_world = None
  /\ 1 <= 1
  /\ 0 <= frozenRows (sheets gap_world "Data")
  /\ 1 <= maxColumns (sheets gap_world "Data")
  /\ 1 <= lastRow (sheets gap_world "Data")
  /\ exists start R,
       1 <= start <= lastRow (sheets gap_world "Data")
       /\ start <= R <= lastRow (sheets gap_world "Data") + 1
       /\ fst (getFirstEmptyRow "Data" 1 false gap_world) = Ok (mkRange "Data" R 1 1 1).
Proof.
  assert (faults gap_world = None) as H1 by reflexivity.
  assert (1 <= 1) as H2 by lia.
  assert (0 <= frozenRows (sheets gap_world "Data")) as H3 by (vm_compute; discriminate).
  assert (1 <= maxColumns (sheets gap_world "Data")) as H4 by (vm_compute; discriminate).
  assert (1 <= lastRow (sheets gap_world "Data")) as H5 by (vm_compute; discriminate).
  repeat (split; [assumption|]).
  destruct (getFirstEmptyRow_scan_begins_where_backward_scan_stopped
              "Data" 1 gap_world H1 H2 H3 H4 H5)
    as (start & R & Ha & _ & _ & Hb & _ & _ & Hc & _).
  exists start, R. repeat split; try apply Ha; try apply Hb; exact Hc.
Defined.

(** C8.  A row whose only content is an unticked checkbox passes the test
    of [isRangeEmpty] with [ignoreCheckbox] set, yet [getFirstEmptyRow]
    does not place the new row there, with [ignoreCheckboxes] set or not:
    on the sheet below it reserves row 4, after the checkbox row 3. *)
Theorem checkbox_row_is_not_a_placement_target :
  lastRow checkbox_sheet = 3
  /\ fst (isRangeEmpty (mkRange "Tasks" 3 1 1 2) true checkbox_world) = Ok true
  /\ fst (getFirstEmptyRow "Tasks" 1 true checkbox_world) = Ok (mkRange "Tasks" 4 1 1 1)
  /\ fst (getFirstEmptyRow "Tasks" 1 false checkbox_world) = Ok (mkRange "Tasks" 4 1 1 1).
Proof. repeat split; vm_compute; reflexivity. Qed.

(** C1: the check without a digest throws after the lock was taken, and the
    lock is still held when the error reaches the caller. *)
Lemma lock_still_held_when_check_throws :
  lock two_sheets = Free
  /\ fst (copyToFirstEmptyRow (form_row 2) "Responses" false (Some mark_duplicate)
                              true true two_sheets)
     = Throw digest_required
  /\ lock (snd (copyToFirstEmptyRow (form_row 2) "Responses" false (Some mark_duplicate)
                                    true true two_sheets))
     = HeldByUs
  /\ log (snd (copyToFirstEmptyRow (form_row 2) "Responses" false (Some mark_duplicate)
                                   true true two_sheets))
     = [CWaitLock 300000; CGetLastRow "Responses"].
Proof. repeat split; vm_compute; reflexivity. Qed.

Lemma mark_duplicate_keeps_lock : callback_keeps_lock (Some mark_duplicate).
Proof.
  intros f rg l E. injection E as <-. unfold mark_duplicate, setValue.
  apply inv_bind; [apply Locking.lock_call|intros _; apply Locking.lock_write].
Defined.

Lemma lock_after_copy_and_move_of_row_2 :
  callback_keeps_lock (Some mark_duplicate)
  /\ waitLock 300000 two_sheets
     = (Ok tt, set_lock HeldByUs (logged (CWaitLock 300000) two_sheets))
  /\ lock (snd (copyToFirstEmptyRow (form_row 2) "Responses" true (Some mark_duplicate)
                                    true true two_sheets)) = Free
  /\ lock (snd (moveToFirstEmptyRow (form_row 2) "Responses" false (Some mark_duplicate)
                                    true true two_sheets)) = HeldByUs.
Proof.
  assert (waitLock 300000 two_sheets
          = (Ok tt, set_lock HeldByUs (logged (CWaitLock 300000) two_sheets))) as Hw
    by reflexivity.
  split; [exact mark_duplicate_keeps_lock|]. split; [exact Hw|].
  destruct (lock_released_on_return_held_on_error
              (form_row 2) "Responses" true (Some mark_duplicate) true two_sheets _
              mark_duplicate_keeps_lock Hw) as [Hcopy _].
  destruct (lock_released_on_return_held_on_error
              (form_row 2) "Responses" false (Some mark_duplicate) true two_sheets _
              mark_duplicate_keeps_lock Hw) as [_ Hmove].
  split; [exact Hcopy|exact Hmove].
Defined.

(* ===================================================================== *)
(** ** Instances *)
(* ===================================================================== *)

(** C3: rows whose values differ after the first column and that get the
    same digest.  In the first pair a value holds the delimiter: the string
    forms differ and join to the same bytes.  In the second a number stands
    against the text of its digits; in the third a row of one empty cell
    against a range that stops before it. *)
Lemma getDigest_collides_on_distinct_rows :
  (fst (getValues (mkRange "Answers" 1 1 1 3) comma_world)
   = Ok [[VStr "2021-01-01"; VStr "a,b"; VStr "c"]]
   /\ fst (getValues (mkRange "Answers" 2 1 1 3) comma_world)
      = Ok [[VStr "2021-01-01"; VStr "a"; VStr "b,c"]]
   /\ map toString (slice [VStr "2021-01-01"; VStr "a,b"; VStr "c"] 1)
      <> map toString (slice [VStr "2021-01-01"; VStr "a"; VStr "b,c"] 1)
   /\ Utilities.bytes_of_string (join (slice [VStr "2021-01-01"; VStr "a,b"; VStr "c"] 1))
      = Utilities.bytes_of_string (join (slice [VStr "2021-01-01"; VStr "a"; VStr "b,c"] 1))
   /\ fst (getDigest (mkRange "Answers" 1 1 1 3) 1 Utilities.SHA_1 comma_world)
      = Ok "nKqRFXQh4kMoE0awv3qCtSAOZ+I="
   /\ fst (getDigest (mkRange "Answers" 2 1 1 3) 1 Utilities.SHA_1 comma_world)
      = Ok "nKqRFXQh4kMoE0awv3qCtSAOZ+I=")
  /\ (fst (getValues (mkRange "Answers" 1 1 1 2) mixed_world)
      = Ok [[VStr "2021-01-01"; VNum 42]]
      /\ fst (getValues (mkRange "Answers" 2 1 1 2) mixed_world)
         = Ok [[VStr "2021-01-01"; VStr "42"]]
      /\ slice [VStr "2021-01-01"; VNum 42] 1 <> slice [VStr "2021-01-01"; VStr "42"] 1
      /\ fst (getDigest (mkRange "Answers" 1 1 1 2) 1 Utilities.SHA_1 mixed_world)
         = fst (getDigest (mkRange "Answers" 2 1 1 2) 1 Utilities.SHA_1 mixed_world))
  /\ (fst (getValues (mkRange "Answers" 3 1 1 2) mixed_world)
      = Ok [[VStr "2021-01-01"; VStr ""]]
      /\ fst (getValues (mkRange "Answers" 3 1 1 1) mixed_world)
         = Ok [[VStr "2021-01-01"]]
      /\ slice [VStr "2021-01-01"; VStr ""] 1 <> slice [VStr "2021-01-01"] 1
      /\ fst (getDigest (mkRange "Answers" 3 1 1 2) 1 Utilities.SHA_1 mixed_world)
         = fst (getDigest (mkRange "Answers" 3 1 1 1) 1 Utilities.SHA_1 mixed_world)).
Proof.
  repeat split; try (vm_compute; reflexivity); vm_compute; discriminate.
Qed.

Lemma getDigest_separates_two_form_rows :
  fst (getValues (form_row 2) two_sheets)
  = Ok [[VStr "2021-01-01"; VStr "alice"; VStr "42"]]
  /\ fst (getValues (form_row 4) two_sheets)
     = Ok [[VStr "2021-01-02"; VStr "bob"; VStr "7"]]
  /\ (forall x, In x (slice [VStr "2021-01-01"; VStr "alice"; VStr "42"] 1)
                \/ In x (slice [VStr "2021-01-02"; VStr "bob"; VStr "7"] 1) ->
                plain x = true)
  /\ Utilities.bytes_of_string (join (slice [VStr "2021-01-01"; VStr "alice"; VStr "42"] 1))
     <> Utilities.bytes_of_string (join (slice [VStr "2021-01-02"; VStr "bob"; VStr "7"] 1))
  /\ fst (getDigest (form_row 2) 1 Utilities.SHA_1 two_sheets)
     <> fst (getDigest (form_row 4) 1 Utilities.SHA_1 two_sheets).
Proof.
  assert (fst (getValues (form_row 2) two_sheets)
          = Ok [[VStr "2021-01-01"; VStr "alice"; VStr "42"]]) as H1 by reflexivity.
  assert (fst (getValues (form_row 4) two_sheets)
          = Ok [[VStr "2021-01-02"; VStr "bob"; VStr "7"]]) as H2 by reflexivity.
  assert (forall x, In x (slice [VStr "2021-01-01"; VStr "alice"; VStr "42"] 1)
                    \/ In x (slice [VStr "2021-01-02"; VStr "bob"; VStr "7"] 1) ->
                    plain x = true) as H3.
  { intros x [H|H]; cbn in H;
      repeat (destruct H as [<-|H]; [reflexivity|]); destruct H. }
  split; [exact H1|]. split; [exact H2|]. split; [exact H3|].
  destruct (getDigest_separates_plain_rows
              (form_row 2) (form_row 4) two_sheets two_sheets _ _ _ _ 1 Utilities.SHA_1
              H1 H2 H3) as (_ & _ & Hfed & Hdigest).
  split.
  - intros H. apply Hfed in H. destruct H as [H|[[H|H] _]]; vm_compute in H; discriminate.
  - intros H. apply (Hdigest Base64.SHA_1_returns_bytes) in H.
    vm_compute in H. discriminate.
Defined.

Lemma getDigest_of_resubmitted_row :
  faults resubmitted_world = None
  /\ fst (getDigest (mkRange "Answers" 1 1 1 3) 1 Utilities.SHA_1 resubmitted_world)
     = fst (getDigest (mkRange "Answers" 2 1 1 3) 1 Utilities.SHA_1 resubmitted_world)
  /\ fst (getDigest (mkRange "Answers" 1 1 1 3) 1 Utilities.SHA_1 resubmitted_world)
     = Ok "9TPVvhoSC0N/p0/KU4HiWHxEkwc=".
Proof.
  assert (faults resubmitted_world = None) as Hf by reflexivity.
  split; [exact Hf|].
  destruct (getDigest_depends_only_on_values_after_skip
              (mkRange "Answers" 1 1 1 3) (mkRange "Answers" 2 1 1 3)
              resubmitted_world resubmitted_world 1 Utilities.SHA_1
              Hf Hf ltac:(cbn; lia) ltac:(cbn; lia) eq_refl)
    as (d & H1 & H2 & _).
  - intros j Hj. cbn [getNumColumns] in Hj.
    assert (j = 1 \/ j = 2) as [-> | ->] by lia; reflexivity.
  - split; [rewrite H1, H2; reflexivity|]. vm_compute. reflexivity.
Defined.

(** C6: with an explicit [last] of 0 the call returns [false] on a sheet
    that has rows. *)
Lemma isDuplicate_returns_false_for_last_0 :
  lastRow (sheets two_sheets "Responses") = 2
  /\ fst (isDuplicate (form_row 2) "Responses" false (Some 0) 1 two_sheets) = Ok false.
Proof. split; vm_compute; reflexivity. Qed.

Lemma isDuplicate_without_digest_on_responses :
  faults two_sheets = None
  /\ effective_last None (sheets two_sheets "Responses") <> 0
  /\ fst (isDuplicate (form_row 2) "Responses" false None 1 two_sheets)
     = Throw digest_required.
Proof.
  assert (faults two_sheets = None) as Hf by reflexivity.
  assert (effective_last None (sheets two_sheets "Responses") <> 0) as Hl
    by (vm_compute; discriminate).
  split; [exact Hf|]. split; [exact Hl|].
  destruct (isDuplicate_without_digest_throws (form_row 2) "Responses" None 1 two_sheets Hf)
    as [H _].
  apply (H Hl).
Defined.

Lemma getFirstEmptyRow_append_on_responses :
  faults two_sheets = None
  /\ 1 <= maxRows (sheets two_sheets "Responses")
  /\ fst (getFirstEmptyRow "Responses" 1 true two_sheets)
     = Ok (mkRange "Responses" 3 1 1 1)
  /\ maxRows (sheets (snd (getFirstEmptyRow "Responses" 1 true two_sheets)) "Responses")
     = 4.
Proof.
  assert (faults two_sheets = None) as Hf by reflexivity.
  assert (1 <= maxRows (sheets two_sheets "Responses")) as Hm by (vm_compute; discriminate).
  split; [exact Hf|]. split; [exact Hm|].
  destruct (getFirstEmptyRow_append_reserves_row_after_last "Responses" 1 two_sheets Hf Hm)
    as (H1 & H2 & _).
  split; [exact H1|exact H2].
Defined.

(** A move whose copy step fails on the host's side: the eighth host call,
    [copyTo], is refused.  The source row stays. *)
Lemma move_with_failing_copyTo :
  fst (moveToFirstEmptyRow (form_row 2) "Responses" true (Some mark_duplicate) true true
                           (with_faults 7 two_sheets))
  = Throw (HostFailure (CCopyTo (form_row 2) (mkRange "Responses" 3 1 1 3)))
  /\ deletions (log (snd (moveToFirstEmptyRow (form_row 2) "Responses" true
                             (Some mark_duplicate) true true
                             (with_faults 7 two_sheets)))) = []
  /\ grid_values (sheets (snd (moveToFirstEmptyRow (form_row 2) "Responses" true
                                 (Some mark_duplicate) true true
                                 (with_faults 7 two_sheets))) "Form")
     = grid_values form_sheet.
Proof. repeat split; vm_compute; reflexivity. Qed.

(** A move of a duplicate row whose callback throws. *)
Lemma move_with_failing_callback :
  callback_deletes_nothing (Some failing_callback)
  /\ fst (moveToFirstEmptyRow (form_row 2) "Responses" true (Some failing_callback)
                              true true two_sheets)
     = Throw (UserThrow "callback failed")
  /\ deletions (log (snd (moveToFirstEmptyRow (form_row 2) "Responses" true
                             (Some failing_callback) true true two_sheets))) = []
  /\ sheets (snd (moveToFirstEmptyRow (form_row 2) "Responses" true
                    (Some failing_callback) true true two_sheets)) "Form"
     = form_sheet.
Proof.
  assert (callback_deletes_nothing (Some failing_callback)) as Hcb
    by (intros f rg dl E; injection E as <-; apply inv_throw).
  split; [exact Hcb|].
  destruct (move_deletes_only_after_copy (form_row 2) "Responses" true
              (Some failing_callback) true true two_sheets Hcb) as (_ & Hfail & _).
  destruct (Hfail (snd (waitLock 300000 two_sheets)) (UserThrow "callback failed")
              (snd (copyToFirstEmptyRow (form_row 2) "Responses" true
                      (Some failing_callback) false true
                      (snd (waitLock 300000 two_sheets)))))
    as (H1 & H2 & H3).
  - reflexivity.
  - apply injective_projections; [vm_compute; reflexivity|reflexivity].
  - rewrite H1. cbn [fst snd]. split; [reflexivity|]. split; [exact H2|].
    apply H3; [discriminate|].
    intros f rg s E. injection E as <-. apply inv_throw.
Defined.

Lemma sweep_form_into_responses :
  "Form" <> "Responses"
  /\ faults two_sheets = None
  /\ lock two_sheets <> HeldByOther
  /\ 0 <= frozenRows (sheets two_sheets "Form")
  /\ 1 <= maxRows (sheets two_sheets "Responses")
  /\ rows_in_use form_sheet = [2; 4; 5]
  /\ fst (sweep "Form" "Responses" true two_sheets) = Ok tt
  /\ lastRow (sheets (snd (sweep "Form" "Responses" true two_sheets)) "Responses") = 5
  /\ deletions (log (snd (sweep "Form" "Responses" true two_sheets)))
     = [CDeleteRow "Form" 5; CDeleteRow "Form" 4; CDeleteRow "Form" 2].
Proof.
  assert ("Form" <> "Responses") as H1 by discriminate.
  assert (faults two_sheets = None) as H2 by reflexivity.
  assert (lock two_sheets <> HeldByOther) as H3 by discriminate.
  assert (0 <= frozenRows (sheets two_sheets "Form")) as H4 by (vm_compute; discriminate).
  assert (1 <= maxRows (sheets two_sheets "Responses")) as H5 by (vm_compute; discriminate).
  assert (rows_in_use form_sheet = [2; 4; 5]) as H6 by (vm_compute; reflexivity).
  repeat (split; [assumption|]).
  destruct (sweep_moves_every_row_in_use "Form" "Responses" two_sheets H1 H2 H3 H4 H5)
    as (Ha & _ & _ & _ & _ & Hb & _ & _ & Hc).
  split; [exact Ha|]. split; [exact Hb|exact Hc].
Defined.

Lemma duplicate_check_on_responses :
  1 <= getNumColumns (form_row 2)
  /\ 1 <= lastRow (sheets two_sheets "Responses")
  /\ ~ covers (form_row 2) "Responses" (getNumColumns (form_row 2) + 1)
  /\ fst (copyToFirstEmptyRow (form_row 2) "Responses" true None true true two_sheets)
     <> Throw digest_required
  /\ log_grows (fun c => ~ reads_cells "Responses" (getNumColumns (form_row 2) + 1) c)
               (log two_sheets)
               (snd (copyToFirstEmptyRow (form_row 2) "Responses" true None true true
                                         two_sheets))
  /\ fst (copyToFirstEmptyRow (form_row 2) "Responses" false (Some mark_duplicate)
                              true true two_sheets) = Throw digest_required
  /\ sheets (snd (copyToFirstEmptyRow (form_row 2) "Responses" false (Some mark_duplicate)
                                      true true two_sheets)) = sheets two_sheets.
Proof.
  assert (1 <= getNumColumns (form_row 2)) as Hn by (vm_compute; discriminate).
  assert (1 <= lastRow (sheets two_sheets "Responses")) as Hl by (vm_compute; discriminate).
  assert (~ covers (form_row 2) "Responses" (getNumColumns (form_row 2) + 1)) as Hsrc
    by (intros [H _]; discriminate).
  split; [exact Hn|]. split; [exact Hl|]. split; [exact Hsrc|].
  destruct (duplicate_check_only_with_callback (form_row 2) "Responses" true true two_sheets)
    as [Hnone Hsome].
  destruct (Hnone true Hn) as [(Ha & _ & Hcells) _].
  destruct (Hsome mark_duplicate Hl) as [(_ & Hb & Hc) _].
  split; [exact Ha|]. split; [exact (Hcells eq_refl Hsrc)|].
  split; [apply Hc; [reflexivity|discriminate]|exact Hb].
Defined.

(** C10: a copy without a callback that looks at the digest column.  With
    [ignoreCheckboxes] false the placement asks whether row 2 of the
    destination is blank, all its four columns, the digest column among
    them.  And a copy of cells 2 to 4 of a row of the destination itself
    reads the digest column as the source of the copy. *)
Lemma placement_scan_reads_the_digest_column :
  (fst (copyToFirstEmptyRow (form_row 2) "Responses" true None true false two_sheets)
   = Ok (mkRange "Responses" 3 1 1 4)
   /\ In (CIsBlank (mkRange "Responses" 2 1 1 4))
         (log (snd (copyToFirstEmptyRow (form_row 2) "Responses" true None true false
                                        two_sheets)))
   /\ reads_cells "Responses" (getNumColumns (form_row 2) + 1)
                  (CIsBlank (mkRange "Responses" 2 1 1 4)))
  /\ (fst (copyToFirstEmptyRow (mkRange "Responses" 2 2 1 3) "Responses" false None true
                               true two_sheets)
      = Ok (mkRange "Responses" 3 1 1 3)
      /\ In (CCopyTo (mkRange "Responses" 2 2 1 3) (mkRange "Responses" 3 1 1 3))
            (log (snd (copyToFirstEmptyRow (mkRange "Responses" 2 2 1 3) "Responses" false
                                           None true true two_sheets)))
      /\ reads_cells "Responses" (getNumColumns (mkRange "Responses" 2 2 1 3) + 1)
                     (CCopyTo (mkRange "Responses" 2 2 1 3) (mkRange "Responses" 3 1 1 3))).
Proof.
  split; (split; [vm_compute; reflexivity|]); split.
  - vm_compute. do 5 right. left. reflexivity.
  - split; [reflexivity|cbn; lia].
  - vm_compute. do 4 right. left. reflexivity.
  - split; [reflexivity|cbn; lia].
Qed.

(** The digest column at work: a resubmission of a row already in the
    destination is a duplicate whatever its timestamp, a row with another
    answer is not. *)
Example duplicate_detection_round_trip :
  fst (isDuplicate (form_row 2) "Responses" true None 1 two_sheets) = Ok true
  /\ fst (isDuplicate (form_row 4) "Responses" true None 1 two_sheets) = Ok false.
Proof. split; vm_compute; reflexivity. Qed.

Import Observations Scenes.

(* ===================================================================== *)
(** ** The cells a range covers *)
(* ===================================================================== *)

Module Cells.

Lemma forallb_flat {A} (p : A -> bool) (l : list (list A)) :
  forallb (forallb p) l = forallb p (flat l).
Proof.
  unfold flat. induction l as [|x l IH]; [reflexivity|].
  cbn [forallb List.concat]. rewrite forallb_app, IH. reflexivity.
Qed.

Lemma In_range_cells (s : Sheet) (rg : Range) (x : Cell) :
  In x (flat (range_cells s rg)) <->
  exists r c, getRow rg <= r < getRow rg + getNumRows rg
              /\ getColumn rg <= c < getColumn rg + getNumColumns rg
              /\ x = cellAt s r c.
Proof.
  unfold flat, range_cells. rewrite in_concat. split.
  - intros (row & Hrow & Hx). apply in_map_iff in Hrow. destruct Hrow as (r & <- & Hr).
    apply in_map_iff in Hx. destruct Hx as (c & <- & Hc).
    apply In_seqZ in Hr, Hc. exists r, c. auto.
  - intros (r & c & Hr & Hc & ->). eexists. split.
    + apply in_map_iff. exists r. split; [reflexivity|]. apply In_seqZ. exact Hr.
    + apply in_map_iff. exists c. split; [reflexivity|]. apply In_seqZ. exact Hc.
Qed.

Lemma is_empty_string_true (v : Value) : is_empty_string v = true <-> v = VStr "".
Proof.
  destruct v as [x| |]; cbn; split; try discriminate.
  - intros H. apply String.eqb_eq in H. subst. reflexivity.
  - intros H. injection H as ->. reflexivity.
Qed.

Lemma value_eqb_str (d : string) (v : Value) : value_eqb (VStr d) v = true <-> v = VStr d.
Proof.
  destruct v as [x| |]; cbn; split; try discriminate.
  - intros H. apply String.eqb_eq in H. subst. reflexivity.
  - intros H. injection H as ->. apply String.eqb_refl.
Qed.

(** The cells of a range pass a test when each cell of the block does. *)
Lemma forallb_range_cells (p : Cell -> bool) (s : Sheet) (rg : Range) :
  forallb p (flat (range_cells s rg)) = true <->
  forall r c, getRow rg <= r < getRow rg + getNumRows rg ->
              getColumn rg <= c < getColumn rg + getNumColumns rg ->
              p (cellAt s r c) = true.
Proof.
  rewrite forallb_forall. split.
  - intros H r c Hr Hc. apply H. apply In_range_cells. exists r, c. auto.
  - intros H x Hx. apply In_range_cells in Hx. destruct Hx as (r & c & Hr & Hc & ->). auto.
Qed.

End Cells.

Import Cells.

(** X1.  [isRangeEmpty] answers [true] exactly when every cell of the range
    holds the empty string or, with [ignoreCheckbox] set, is under a
    checkbox rule; it reads the sheet and changes nothing; the rules and the
    values it walks through have the same length, so it never throws
    when the host lets the reads through. *)
Theorem isRangeEmpty_true_iff_cells_empty_or_checkbox
    (range : Range) (ignoreCheckbox : bool) (w : World) :
  faults w = None ->
  let s := sheets w (getSheet range) in
  let res := isRangeEmpty range ignoreCheckbox w in
  exists b,
    fst res = Ok b
    /\ (b = true <->
        forall r c, getRow range <= r < getRow range + getNumRows range ->
                    getColumn range <= c < getColumn range + getNumColumns range ->
                    value (cellAt s r c) = VStr ""
                    \/ (ignoreCheckbox = true
                        /\ validation (cellAt s r c) = Some CHECKBOX))
    /\ sheets (snd res) = sheets w.
Proof.
  intros Hf s res. subst res. destruct ignoreCheckbox.
  - rewrite (Checkbox.isRangeEmpty_checkbox_runs range w Hf). cbn [fst snd].
    eexists. split; [reflexivity|]. split; [|reflexivity]. fold s.
    rewrite Cells.forallb_range_cells. split.
    + intros H r c Hr Hc. specialize (H r c Hr Hc).
      apply orb_true_iff in H. destruct H as [H|H].
      * left. apply Cells.is_empty_string_true. exact H.
      * right. split; [reflexivity|]. unfold is_checkbox in H.
        destruct (validation (cellAt s r c)) as [[|]|]; try discriminate. reflexivity.
    + intros H r c Hr Hc. apply orb_true_iff.
      destruct (H r c Hr Hc) as [E|[_ E]].
      * left. apply Cells.is_empty_string_true. exact E.
      * right. unfold is_checkbox. rewrite E. reflexivity.
  - unfold isRangeEmpty. cbn [negb]. rewrite (isBlank_runs range w Hf). cbn [fst snd].
    eexists. split; [reflexivity|]. split; [|reflexivity]. fold s.
    rewrite Cells.forallb_flat, Cells.forallb_range_cells. split.
    + intros H r c Hr Hc. left. specialize (H r c Hr Hc).
      apply Cells.is_empty_string_true. unfold has_content in H.
      apply negb_true_iff in H. apply negb_false_iff in H. exact H.
    + intros H r c Hr Hc. destruct (H r c Hr Hc) as [E|[E _]]; [|discriminate].
      unfold has_content. rewrite E. reflexivity.
Qed.

Lemma isRangeEmpty_on_checkbox_row :
  faults checkbox_world = None
  /\ exists b,
       fst (isRangeEmpty (mkRange "Tasks" 3 1 1 2) true checkbox_world) = Ok b
       /\ sheets (snd (isRangeEmpty (mkRange "Tasks" 3 1 1 2) true checkbox_world))
          = sheets checkbox_world.
Proof.
  assert (faults checkbox_world = None) as Hf by reflexivity.
  split; [exact Hf|].
  destruct (isRangeEmpty_true_iff_cells_empty_or_checkbox
              (mkRange "Tasks" 3 1 1 2) true checkbox_world Hf) as (b & Hb & _ & Hs).
  exists b. split; [exact Hb|exact Hs].
Defined.

(* ===================================================================== *)
(** ** The rows in use *)
(* ===================================================================== *)

Module RowsInUse.

(** The loop of [getRangesInUse] for any number [F] of rows left out at the
    top. *)
Lemma getRangesInUse_for_from (sheet : SheetId) (F : Z) (n : nat) :
  forall (i : Z) (acc : list Range) (w : World),
    let s := sheets w sheet in
    faults w = None -> 0 <= F -> 0 <= i ->
    (n <> O -> 1 <= lastColumn s) ->
    exists w',
      runs (getRangesInUse_for n sheet F (lastColumn s) i acc) w
           (acc ++ map (row_range sheet (lastColumn s))
                       (filter (row_has_content s) (seqZ (i + 1 + F) (Z.of_nat n))))%list
           w'
      /\ same_but_log w w'.
Proof.
  induction n as [|n IH]; intros i acc w s Hf HF Hi HLC.
  - exists w. split; [|apply same_but_log_refl].
    cbn [getRangesInUse_for]. unfold seqZ. cbn. rewrite app_nil_r. apply runs_ret.
  - specialize (HLC ltac:(discriminate)).
    set (rg := mkRange sheet (i + 1 + F) 1 1 (lastColumn s)).
    set (w1 := logged (CGetValues rg) w).
    set (acc1 := if row_has_content s (i + 1 + F) then (acc ++ [rg])%list else acc).
    destruct (IH (i + 1) acc1 w1 Hf HF ltac:(lia) (fun _ => HLC)) as (w' & Hrun & Hsame).
    cbv zeta in Hrun. cbn [sheets w1 logged] in Hrun. fold s in Hrun.
    exists w'. split.
    + cbn [getRangesInUse_for]. cbv zeta.
      eapply runs_bind; [apply getRange_runs; lia|].
      eapply runs_bind; [apply getValues_runs; exact Hf|].
      cbn [getSheet]. fold s. rewrite row_values.
      unfold some. rewrite existsb_map_compose.
      change (existsb (fun x => negb (is_empty_string (value (cellAt s (i + 1 + F) x))))
                      (seqZ 1 (lastColumn s)))
        with (existsb (fun c => has_content (cellAt s (i + 1 + F) c))
                      (seqZ 1 (lastColumn s))).
      rewrite row_has_content_upto_lastColumn.
      fold rg. fold w1. fold acc1.
      rewrite seqZ_succ. cbn [filter].
      replace (i + 1 + F + 1) with (i + 1 + 1 + F) by lia.
      unfold acc1 in Hrun.
      destruct (row_has_content s (i + 1 + F)).
      * cbn [map]. rewrite <- app_assoc in Hrun. exact Hrun.
      * exact Hrun.
    + eapply same_but_log_trans; [|exact Hsame]. apply same_but_log_logged; reflexivity.
Qed.

Lemma ascending_from_filter_seqZ (p : Z -> bool) (n : nat) :
  forall a b, b < a -> ascending_from b (filter p (seqZ a (Z.of_nat n))).
Proof.
  induction n as [|n IH]; intros a b Hab.
  - unfold seqZ. cbn. exact I.
  - rewrite seqZ_succ. cbn [filter]. destruct (p a).
    + cbn [ascending_from]. split; [exact Hab|]. apply IH. lia.
    + apply IH. lia.
Qed.

(** [getRangesInUse] for either value of [excludeFrozen]. *)
Lemma getRangesInUse_any_runs (sheet : SheetId) (excludeFrozen : bool) (w : World) :
  let s := sheets w sheet in
  let F := if excludeFrozen then frozenRows s else 0 in
  faults w = None -> 0 <= frozenRows s ->
  exists w',
    runs (getRangesInUse sheet excludeFrozen) w
         (map (row_range sheet (lastColumn s))
              (filter (row_has_content s) (seqZ (F + 1) (lastRow s - F)))) w'
    /\ same_but_log w w'.
Proof.
  intros s F Hf HF.
  assert (0 <= F) as HF0 by (subst F; destruct excludeFrozen; lia).
  assert (exists w0, runs (if excludeFrozen then getFrozenRows sheet else ret 0) w F w0
                     /\ same_but_log w w0 /\ faults w0 = None) as (w0 & Hrun0 & Hsame0 & Hf0).
  { subst F. destruct excludeFrozen.
    - eexists. split; [apply getFrozenRows_runs; exact Hf|].
      split; [apply same_but_log_logged; reflexivity|exact Hf].
    - exists w. split; [apply runs_ret|]. split; [apply same_but_log_refl|exact Hf]. }
  assert (sheets w0 = sheets w) as Hs0 by apply Hsame0.
  set (w3 := logged (CGetLastColumn sheet) (logged (CGetLastRow sheet) w0)).
  destruct (getRangesInUse_for_from sheet F (Z.to_nat (lastRow s - F)) 0 [] w3)
    as (w' & Hrun & Hsame); auto; try lia.
  { cbn [sheets w3 logged]. rewrite Hs0. fold s. intros Hn.
    assert (1 <= lastRow s) as HL by lia.
    pose proof (lastRow_has_content s HL) as Hc.
    apply row_has_content_true in Hc. destruct Hc as [c Hc].
    apply content_within_lastColumn in Hc. lia. }
  cbv zeta in Hrun. cbn [sheets w3 logged app] in Hrun. rewrite Hs0 in Hrun. fold s in Hrun.
  exists w'. split.
  - unfold getRangesInUse.
    eapply runs_bind; [exact Hrun0|].
    eapply runs_bind; [apply getLastRow_runs; exact Hf0|].
    eapply runs_bind; [apply getLastColumn_runs; exact Hf0|].
    cbn [sheets logged]. rewrite Hs0. fold s. fold w3.
    replace (0 + 1 + F) with (F + 1) in Hrun by lia.
    destruct (Z_le_dec (lastRow s - F) 0) as [Hle|Hgt].
    + replace (Z.to_nat (lastRow s - F)) with O in * by lia.
      replace (seqZ (F + 1) (lastRow s - F)) with (@nil Z)
        by (unfold seqZ; replace (Z.to_nat (lastRow s - F)) with O by lia; reflexivity).
      unfold seqZ in Hrun. cbn in Hrun. exact Hrun.
    + rewrite Z2Nat.id in Hrun by lia. exact Hrun.
  - eapply same_but_log_trans; [exact Hsame0|].
    eapply same_but_log_trans; [|exact Hsame]. unfold w3. reads.
Qed.

End RowsInUse.

Import RowsInUse.

(** X2.  [getRangesInUse] returns one range for each row that holds a value
    other than the empty string, in increasing order of the rows, from the
    first row below the frozen ones (from row 1 when [excludeFrozen] is
    off); each range is the row from column 1 to the last column with
    content; the sheets are left as they are. *)
Theorem getRangesInUse_lists_rows_with_content
    (sheet : SheetId) (excludeFrozen : bool) (w : World) :
  faults w = None ->
  0 <= frozenRows (sheets w sheet) ->
  let s := sheets w sheet in
  let F := if excludeFrozen then frozenRows s else 0 in
  let res := getRangesInUse sheet excludeFrozen w in
  exists rows,
    fst res = Ok (map (fun r => mkRange sheet r 1 1 (lastColumn s)) rows)
    /\ (forall r, In r rows <-> F < r /\ row_has_content s r = true)
    /\ ascending_from F rows
    /\ sheets (snd res) = sheets w.
Proof.
  intros Hf HF s F res.
  destruct (RowsInUse.getRangesInUse_any_runs sheet excludeFrozen w Hf HF)
    as (w' & Hrun & Hsame).
  cbv zeta in Hrun. fold s in Hrun. fold F in Hrun.
  exists (filter (row_has_content s) (seqZ (F + 1) (lastRow s - F))).
  subst res. rewrite Hrun. cbn [fst snd].
  split; [reflexivity|]. split; [|split].
  - intros r. rewrite filter_In, In_seqZ. split.
    + intros [H1 H2]. split; [lia|exact H2].
    + intros [H1 H2]. split; [|exact H2].
      destruct (Z_lt_dec (lastRow s) r) as [Hlt|]; [|lia].
      rewrite (lastRow_above s r Hlt) in H2. discriminate.
  - destruct (Z_le_dec (lastRow s - F) 0) as [Hle|Hgt].
    + unfold seqZ. replace (Z.to_nat (lastRow s - F)) with O by lia. exact I.
    + rewrite <- (Z2Nat.id (lastRow s - F)) by lia.
      apply RowsInUse.ascending_from_filter_seqZ. lia.
  - apply Hsame.
Qed.

Lemma getRangesInUse_of_the_form_sheet :
  faults two_sheets = None
  /\ 0 <= frozenRows (sheets two_sheets "Form")
  /\ exists rows,
       fst (getRangesInUse "Form" true two_sheets)
       = Ok (map (fun r => mkRange "Form" r 1 1 (lastColumn (sheets two_sheets "Form"))) rows)
       /\ ascending_from (frozenRows (sheets two_sheets "Form")) rows.
Proof.
  assert (faults two_sheets = None) as Hf by reflexivity.
  assert (0 <= frozenRows (sheets two_sheets "Form")) as HF by (vm_compute; discriminate).
  split; [exact Hf|]. split; [exact HF|].
  destruct (getRangesInUse_lists_rows_with_content "Form" true two_sheets Hf HF)
    as (rows & Hres & _ & Hasc & _).
  exists rows. split; [exact Hres|exact Hasc].
Defined.

(* ===================================================================== *)
(** ** The duplicate check with a digest column *)
(* ===================================================================== *)

Module DigestColumn.

(** [isDuplicate] with a digest, step by step. *)
Lemma isDuplicate_digest_runs (range : Range) (sheet : SheetId) (last : option Z)
    (skip : Z) (w : World) :
  let s := sheets w sheet in
  let L := effective_last last s in
  let digest := digest_of_values (first_row (sheets w (getSheet range)) range) skip
                                 Utilities.SHA_1 in
  let col := getNumColumns range + 1 in
  faults w = None -> 1 <= getNumRows range -> 1 <= col -> 1 <= L ->
  exists w',
    runs (isDuplicate range sheet true last skip) w
         (existsb (fun r => value_eqb (VStr digest) (value (cellAt s r col))) (seqZ 1 L)) w'
    /\ same_but_log w w'.
Proof.
  intros s L digest col Hf Hrows Hcol HL.
  assert (exists w0, runs (match last with Some l => ret l | None => getLastRow sheet end)
                          w L w0 /\ same_but_log w w0 /\ faults w0 = None)
    as (w0 & Hrun0 & Hsame0 & Hf0).
  { subst L. destruct last as [l|]; cbn [effective_last].
    - exists w. split; [apply runs_ret|]. split; [apply same_but_log_refl|exact Hf].
    - eexists. split; [apply getLastRow_runs; exact Hf|].
      split; [apply same_but_log_logged; reflexivity|exact Hf]. }
  assert (sheets w0 = sheets w) as Hs0 by apply Hsame0.
  eexists. split.
  - unfold isDuplicate. eapply runs_bind; [exact Hrun0|].
    destruct (Z.eqb_spec L 0) as [E|_]; [lia|].
    eapply runs_bind; [apply getDigest_runs; [exact Hf0|exact Hrows]|].
    rewrite Hs0. fold digest. fold col.
    eapply runs_bind; [apply getRange_runs; lia|].
    eapply runs_bind; [apply getValues_runs; exact Hf0|].
    cbn [sheets logged getSheet]. rewrite Hs0. fold s.
    rewrite column_values. unfold includes. rewrite existsb_map_compose.
    apply runs_ret.
  - eapply same_but_log_trans; [exact Hsame0|]. reads.
Qed.

End DigestColumn.

Import DigestColumn.

(** X3.  With a digest, [isDuplicate] answers [true] exactly when a row
    from 1 to the last row it works with (the frozen rows too) holds, in the
    column after the width of the range, the string that is the digest of
    the first row of the range; a number or a boolean in that column
    matches nothing.  It changes no sheet. *)
Theorem isDuplicate_true_iff_digest_in_column
    (range : Range) (sheet : SheetId) (last : option Z) (skip : Z) (w : World) :
  faults w = None ->
  1 <= getNumRows range ->
  0 <= getNumColumns range ->
  1 <= effective_last last (sheets w sheet) ->
  let s := sheets w sheet in
  let digest := digest_of_values (first_row (sheets w (getSheet range)) range) skip
                                 Utilities.SHA_1 in
  let res := isDuplicate range sheet true last skip w in
  exists b,
    fst res = Ok b
    /\ (b = true <->
        exists r, 1 <= r <= effective_last last s
                  /\ value (cellAt s r (getNumColumns range + 1)) = VStr digest)
    /\ sheets (snd res) = sheets w.
Proof.
  intros Hf Hrows Hcols HL s digest res.
  destruct (DigestColumn.isDuplicate_digest_runs range sheet last skip w Hf Hrows
              ltac:(lia) HL) as (w' & Hrun & Hsame).
  cbv zeta in Hrun. fold s in Hrun. fold digest in Hrun.
  subst res. rewrite Hrun. cbn [fst snd].
  eexists. split; [reflexivity|]. split; [|apply Hsame].
  rewrite existsb_seqZ_true. split.
  - intros (r & Hr & E). exists r. split; [lia|]. apply Cells.value_eqb_str. exact E.
  - intros (r & Hr & E). exists r. split; [lia|]. apply Cells.value_eqb_str. exact E.
Qed.

Lemma isDuplicate_of_form_row_2 :
  faults two_sheets = None
  /\ 1 <= getNumRows (form_row 2)
  /\ 0 <= getNumColumns (form_row 2)
  /\ 1 <= effective_last None (sheets two_sheets "Responses")
  /\ exists b,
       fst (isDuplicate (form_row 2) "Responses" true None 1 two_sheets) = Ok b
       /\ sheets (snd (isDuplicate (form_row 2) "Responses" true None 1 two_sheets))
          = sheets two_sheets.
Proof.
  assert (faults two_sheets = None) as Hf by reflexivity.
  assert (1 <= getNumRows (form_row 2)) as H1 by (cbn; lia).
  assert (0 <= getNumColumns (form_row 2)) as H2 by (cbn; lia).
  assert (1 <= effective_last None (sheets two_sheets "Responses")) as H3
    by (vm_compute; discriminate).
  repeat (split; [assumption|]).
  destruct (isDuplicate_true_iff_digest_in_column (form_row 2) "Responses" None 1
              two_sheets Hf H1 H2 H3) as (b & Hb & _ & Hs).
  exists b. split; [exact Hb|exact Hs].
Defined.

(** X4.  When [skip] is at least the number of columns of the range,
    nothing is left of the row after the skipped cells and [getDigest]
    returns the digest of the empty string, whatever the row holds: with the
    default [skip] of 1, every range of one column has the same digest. *)
Theorem getDigest_of_skipped_row_is_constant
    (range : Range) (skip : Z) (encoding : Utilities.DigestAlgorithm) (w : World) :
  faults w = None ->
  1 <= getNumRows range ->
  getNumColumns range <= skip ->
  fst (getDigest range skip encoding w)
  = Ok (Utilities.base64Encode (Utilities.computeDigest encoding ""))
  /\ (encoding = Utilities.SHA_1 ->
      fst (getDigest range skip encoding w) = Ok "2jmj7l5rSw0yVb/vlWAYkK/YBwk=").
Proof.
  intros Hf Hrows Hskip.
  assert (fst (getDigest range skip encoding w)
          = Ok (Utilities.base64Encode (Utilities.computeDigest encoding ""))) as H.
  { rewrite (Digest.getDigest_runs range skip encoding w Hf Hrows). cbn [fst].
    unfold digest_of_values.
    assert (slice (first_row (sheets w (getSheet range)) range) skip = []) as ->.
    { unfold slice, first_row. rewrite length_map, length_seq.
      destruct (Z.ltb_spec skip 0).
      - replace (Z.to_nat (getNumColumns range)) with O by lia.
        cbn [seq map]. apply skipn_nil.
      - apply skipn_all2. rewrite length_map, length_seq. lia. }
    reflexivity. }
  split; [exact H|]. intros ->. rewrite H. vm_compute. reflexivity.
Qed.

Lemma getDigest_of_one_column :
  faults two_sheets = None
  /\ 1 <= getNumRows (mkRange "Form" 2 2 1 1)
  /\ getNumColumns (mkRange "Form" 2 2 1 1) <= 1
  /\ fst (getDigest (mkRange "Form" 2 2 1 1) 1 Utilities.SHA_1 two_sheets)
     = Ok "2jmj7l5rSw0yVb/vlWAYkK/YBwk=".
Proof.
  assert (faults two_sheets = None) as Hf by reflexivity.
  assert (1 <= getNumRows (mkRange "Form" 2 2 1 1)) as H1 by (cbn; lia).
  assert (getNumColumns (mkRange "Form" 2 2 1 1) <= 1) as H2 by (cbn; lia).
  repeat (split; [assumption|]).
  exact (proj2 (getDigest_of_skipped_row_is_constant (mkRange "Form" 2 2 1 1) 1
                  Utilities.SHA_1 two_sheets Hf H1 H2) eq_refl).
Defined.

(* ===================================================================== *)
(** ** Placement at the edges *)
(* ===================================================================== *)

Module Edges.

Lemma getRange_throws (sheet : SheetId) (r c nr nc : Z) (w : World) :
  r < 1 \/ c < 1 \/ nr < 1 \/ nc < 1 ->
  getRange sheet r c nr nc w = (Throw (BadArgument "getRange"), w).
Proof.
  intros H. unfold getRange.
  destruct (Z.leb_spec 1 r); [|reflexivity].
  destruct (Z.leb_spec 1 c); [|reflexivity].
  destruct (Z.leb_spec 1 nr); [|reflexivity].
  destruct (Z.leb_spec 1 nc); [|reflexivity]. lia.
Qed.

(** The scan of a sheet without content stops at its first [getRange]. *)
Lemma getFirstEmptyRow_scan_throws (sheet : SheetId) (index : Z) (w : World) :
  faults w = None -> lastRow (sheets w sheet) = 0 ->
  getFirstEmptyRow sheet index false w
  = (Throw (BadArgument "getRange"),
     logged (CGetLastRow sheet)
       (logged (CGetFrozenRows sheet) (logged (CGetMaxColumns sheet) w))).
Proof.
  intros Hf HL. unfold getFirstEmptyRow.
  erewrite bind_throw; [reflexivity|].
  erewrite bind_ok; [|apply getMaxColumns_runs; exact Hf].
  erewrite bind_ok; [|apply getFrozenRows_runs; exact Hf].
  erewrite bind_ok; [|apply getLastRow_runs; exact Hf].
  cbn [sheets logged]. rewrite HL.
  erewrite bind_throw; [reflexivity|]. apply getRange_throws. lia.
Qed.

(** On a sheet without content [isDuplicate] returns [false] after asking
    for the last row, whatever it was to compare. *)
Lemma isDuplicate_without_content (range : Range) (sheet : SheetId) (useDigest : bool)
    (skip : Z) (w : World) :
  faults w = None -> lastRow (sheets w sheet) = 0 ->
  isDuplicate range sheet useDigest None skip w = (Ok false, logged (CGetLastRow sheet) w).
Proof.
  intros Hf HL. unfold isDuplicate.
  erewrite bind_ok; [|apply getLastRow_runs; exact Hf].
  rewrite HL. reflexivity.
Qed.

End Edges.

Import Edges.

(** X5.  With [ignoreCheckboxes] off, [getFirstEmptyRow] asks for the
    column from row 1 to the last row with content; on a sheet without
    content that is a range of no rows, the host refuses it and nothing is
    inserted.  A copy with [ignoreCheckboxes] off into such a sheet fails
    the same way, with or without a digest, with or without a callback (the
    duplicate check returns [false] on such a sheet and changes nothing),
    with or without the lock. *)
Theorem getFirstEmptyRow_scan_fails_on_sheet_without_content
    (sheet : SheetId) (index : Z) (w : World) :
  faults w = None ->
  lastRow (sheets w sheet) = 0 ->
  let found := getFirstEmptyRow sheet index false w in
  fst found = Throw (BadArgument "getRange")
  /\ sheets (snd found) = sheets w
  /\ forall range digest duplicateCallback useLock,
       lock w <> HeldByOther ->
       let copied :=
         copyToFirstEmptyRow range sheet digest duplicateCallback useLock false w in
       fst copied = Throw (BadArgument "getRange") /\ sheets (snd copied) = sheets w.
Proof.
  intros Hf HL found. subst found.
  rewrite (Edges.getFirstEmptyRow_scan_throws sheet index w Hf HL). cbn [fst snd].
  split; [reflexivity|]. split; [reflexivity|].
  intros range digest duplicateCallback useLock Hlock.
  destruct (when_waitLock_runs useLock w Hf Hlock) as (w1 & Hrun & Hf1 & Hs1).
  unfold copyToFirstEmptyRow.
  rewrite (bind_ok _ _ _ _ _ Hrun).
  destruct duplicateCallback as [callback|].
  - erewrite bind_ok;
      [|apply Edges.isDuplicate_without_content; [exact Hf1|rewrite Hs1; exact HL]].
    erewrite bind_throw;
      [|apply Edges.getFirstEmptyRow_scan_throws; [exact Hf1|cbn [sheets logged]; rewrite Hs1; exact HL]].
    cbn [fst snd sheets logged]. split; [reflexivity|exact Hs1].
  - rewrite bind_ret_l.
    erewrite bind_throw;
      [|apply Edges.getFirstEmptyRow_scan_throws; [exact Hf1|rewrite Hs1; exact HL]].
    cbn [fst snd sheets logged]. split; [reflexivity|exact Hs1].
Qed.

Lemma getFirstEmptyRow_scan_on_empty_world :
  faults empty_world = None
  /\ lastRow (sheets empty_world "Responses") = 0
  /\ lock empty_world <> HeldByOther
  /\ fst (getFirstEmptyRow "Responses" 1 false empty_world) = Throw (BadArgument "getRange")
  /\ fst (copyToFirstEmptyRow (form_row 2) "Responses" true (Some mark_duplicate) true false
                              empty_world) = Throw (BadArgument "getRange")
  /\ fst (copyToFirstEmptyRow (form_row 2) "Responses" false None false false empty_world)
     = Throw (BadArgument "getRange")
  /\ fst (getFirstEmptyRow "Responses" 1 true empty_world)
     = Ok (mkRange "Responses" 1 1 1 1).
Proof.
  assert (faults empty_world = None) as Hf by reflexivity.
  assert (lastRow (sheets empty_world "Responses") = 0) as HL by (vm_compute; reflexivity).
  assert (lock empty_world <> HeldByOther) as Hlock by discriminate.
  split; [exact Hf|]. split; [exact HL|]. split; [exact Hlock|].
  destruct (getFirstEmptyRow_scan_fails_on_sheet_without_content
              "Responses" 1 empty_world Hf HL) as (Hfound & _ & Hcopy).
  split; [exact Hfound|].
  split; [exact (proj1 (Hcopy (form_row 2) true (Some mark_duplicate) true Hlock))|].
  split; [exact (proj1 (Hcopy (form_row 2) false None false Hlock))|].
  vm_compute. reflexivity.
Defined.

(** X6.  When the cell of the last row with content in column [index] is
    not empty, the scan finds no gap it may use and both placement modes
    reserve the row after the last one: they return the same range and
    leave the same sheets. *)
Theorem getFirstEmptyRow_modes_agree_when_last_row_is_filled
    (sheet : SheetId) (index : Z) (w : World) :
  faults w = None ->
  1 <= index ->
  0 <= frozenRows (sheets w sheet) ->
  1 <= lastRow (sheets w sheet) ->
  is_empty_string (value (cellAt (sheets w sheet) (lastRow (sheets w sheet)) index)) = false ->
  let s := sheets w sheet in
  let scanned := getFirstEmptyRow sheet index false w in
  let appended := getFirstEmptyRow sheet index true w in
  fst scanned = Ok (mkRange sheet (lastRow s + 1) 1 1 1)
  /\ fst appended = Ok (mkRange sheet (lastRow s + 1) 1 1 1)
  /\ sheets (snd scanned) = sheets (snd appended).
Proof.
  intros Hf Hindex HF HL Hcell s scanned appended.
  pose proof (lastRow_has_content s HL) as Hc.
  apply row_has_content_true in Hc. destruct Hc as [c0 Hc0].
  assert (1 <= maxColumns s /\ 1 <= maxRows s) as [Hcols Hrows].
  { unfold cellAt in Hc0. destruct (in_grid s (lastRow s) c0) eqn:G; [|discriminate].
    unfold in_grid in G. apply andb_true_iff in G. destruct G as [G G4].
    apply andb_true_iff in G. destruct G as [G G3].
    apply andb_true_iff in G. destruct G as [G1 G2].
    apply Z.leb_le in G1, G2, G3, G4. lia. }
  destruct (GapScan.getFirstEmptyRow_scan_runs sheet index w Hf Hindex HF Hcols HL)
    as (start & R & w1 & Hrun & Hsame & Hstart & Hback & _ & HR & Hfwd & Hstop).
  fold s in Hrun, Hstart, Hback, HR, Hfwd, Hstop.
  assert (start = lastRow s) as ->.
  { destruct (Z_lt_dec start (lastRow s)) as [Hlt|]; [|lia].
    destruct (Hback (lastRow s) ltac:(lia)) as [_ He]. fold s in Hcell. congruence. }
  assert (R = lastRow s + 1) as ->.
  { destruct (Z_le_dec R (lastRow s)) as [Hle|]; [|lia].
    assert (R = lastRow s) as -> by lia.
    specialize (Hstop ltac:(lia)).
    rewrite (lastRow_has_content s HL) in Hstop. discriminate. }
  pose proof (Placement.getFirstEmptyRow_append_runs sheet index w Hf Hrows) as Happ.
  cbv zeta in Happ. fold s in Happ.
  subst scanned appended. rewrite Hrun, Happ. cbn [fst snd].
  split; [reflexivity|]. split; [reflexivity|].
  cbn [sheets set_sheet logged].
  replace (sheets w1) with (sheets w) by (symmetry; apply Hsame). reflexivity.
Qed.

Lemma getFirstEmptyRow_modes_agree_on_responses :
  faults two_sheets = None
  /\ 1 <= 1
  /\ 0 <= frozenRows (sheets two_sheets "Responses")
  /\ 1 <= lastRow (sheets two_sheets "Responses")
  /\ fst (getFirstEmptyRow "Responses" 1 false two_sheets)
     = Ok (mkRange "Responses" (lastRow (sheets two_sheets "Responses") + 1) 1 1 1)
  /\ sheets (snd (getFirstEmptyRow "Responses" 1 false two_sheets))
     = sheets (snd (getFirstEmptyRow "Responses" 1 true two_sheets)).
Proof.
  assert (faults two_sheets = None) as Hf by reflexivity.
  assert (1 <= 1) as H1 by lia.
  assert (0 <= frozenRows (sheets two_sheets "Responses")) as H2 by (vm_compute; discriminate).
  assert (1 <= lastRow (sheets two_sheets "Responses")) as H3 by (vm_compute; discriminate).
  repeat (split; [assumption|]).
  destruct (getFirstEmptyRow_modes_agree_when_last_row_is_filled "Responses" 1 two_sheets
              Hf H1 H2 H3 ltac:(vm_compute; reflexivity)) as (Ha & _ & Hb).
  split; [exact Ha|exact Hb].
Defined.

(* ===================================================================== *)
(** ** The earlier revision *)
(* ===================================================================== *)

Module Revisions.

Lemma range_cells_first_row (s : Sheet) (rg : Range) :
  1 <= getNumRows rg -> exists row rest, range_cells s rg = row :: rest.
Proof.
  intros Hn. unfold range_cells, seqZ.
  destruct (Z.to_nat (getNumRows rg)) as [|n] eqn:E; [lia|].
  cbn [seq map]. eexists. eexists. reflexivity.
Qed.

Lemma getDataValidations_runs rg w :
  faults w = None ->
  runs (getDataValidations rg) w
       (map (map validation) (range_cells (sheets w (getSheet rg)) rg))
       (logged (CGetDataValidations rg) w).
Proof. unfold getDataValidations. host_run. reflexivity. Qed.

(** The callback of the earlier [isRangeEmpty] reads and returns. *)
Lemma isRangeEmpty_callback_runs (range : Range) (val : Value) (i : Z) (w : World) :
  faults w = None -> 1 <= getNumRows range ->
  exists w', runs (Legacy.isRangeEmpty_callback range val i) w tt w' /\ same_but_log w w'.
Proof.
  intros Hf Hn. unfold Legacy.isRangeEmpty_callback.
  destruct (negb (is_empty_string val)).
  - eexists. split.
    + eapply runs_bind; [apply getDataValidations_runs; exact Hf|].
      destruct (range_cells_first_row (sheets w (getSheet range)) range Hn)
        as (row & rest & ->). cbn [map]. apply runs_ret.
    + apply same_but_log_logged. reflexivity.
  - exists w. split; [apply runs_ret|apply same_but_log_refl].
Qed.

Lemma forEach_indexed_runs (range : Range) (row : list Value) :
  forall (i : Z) (w : World),
    faults w = None -> 1 <= getNumRows range ->
    exists w', runs (Legacy.forEach_indexed (Legacy.isRangeEmpty_callback range) row i)
                    w tt w'
               /\ same_but_log w w'.
Proof.
  induction row as [|val row IH]; intros i w Hf Hn.
  - exists w. split; [apply runs_ret|apply same_but_log_refl].
  - destruct (isRangeEmpty_callback_runs range val i w Hf Hn) as (w1 & Hrun1 & Hsame1).
    assert (faults w1 = None) as Hf1.
    { destruct Hsame1 as (_ & _ & E & _). congruence. }
    destruct (IH (i + 1) w1 Hf1 Hn) as (w' & Hrun & Hsame).
    exists w'. split.
    + cbn [Legacy.forEach_indexed]. eapply runs_bind; [exact Hrun1|exact Hrun].
    + eapply same_but_log_trans; [exact Hsame1|exact Hsame].
Qed.

End Revisions.

Import Revisions.

(** X7.  The earlier [getFirstEmptyRow] inserts before the row after the
    last row with content.  While the sheet has a row left below its
    content it reserves the same row as the present revision in its append
    mode and leaves the same sheets; on a sheet filled to its last row that
    position is no row of the sheet, the host refuses it and nothing is
    inserted, where the present revision inserts after the last row. *)
Theorem getFirstEmptyRow_of_earlier_revision_needs_a_spare_row
    (sheet : SheetId) (index : Z) (w : World) :
  faults w = None ->
  1 <= maxRows (sheets w sheet) ->
  let s := sheets w sheet in
  let earlier := Legacy.getFirstEmptyRow sheet w in
  let present := getFirstEmptyRow sheet index true w in
  fst present = Ok (mkRange sheet (lastRow s + 1) 1 1 1)
  /\ (lastRow s < maxRows s ->
      fst earlier = fst present /\ sheets (snd earlier) = sheets (snd present))
  /\ (lastRow s = maxRows s ->
      fst earlier = Throw (BadArgument "insertRowBefore")
      /\ sheets (snd earlier) = sheets w).
Proof.
  intros Hf Hrows s earlier present.
  pose proof (Placement.getFirstEmptyRow_append_runs sheet index w Hf Hrows) as Happ.
  cbv zeta in Happ. fold s in Happ.
  pose proof (lastRow_bounds s) as [HL0 HL1].
  subst earlier present. rewrite Happ. cbn [fst snd].
  split; [reflexivity|]. split.
  - intros Hlt.
    assert (runs (Legacy.getFirstEmptyRow sheet) w (mkRange sheet (lastRow s + 1) 1 1 1)
              (set_sheet sheet (insert_row (lastRow s + 1) s)
                 (logged (CInsertRowBefore sheet (lastRow s + 1))
                    (logged (CGetLastRow sheet) w)))) as Hrun.
    { unfold Legacy.getFirstEmptyRow.
      eapply runs_bind; [apply getLastRow_runs; exact Hf|]. fold s. cbv zeta.
      eapply runs_bind.
      { apply insertRowBefore_runs; [exact Hf|]. cbn [sheets logged]. fold s. lia. }
      unfold getRange2. apply getRange_runs; lia. }
    rewrite Hrun. cbn [fst snd sheets set_sheet logged]. split; reflexivity.
  - intros Hfull.
    assert (Legacy.getFirstEmptyRow sheet w
            = (Throw (BadArgument "insertRowBefore"), logged (CGetLastRow sheet) w)) as Hrun.
    { unfold Legacy.getFirstEmptyRow.
      erewrite bind_ok; [|apply getLastRow_runs; exact Hf]. fold s. cbv zeta.
      erewrite bind_throw; [reflexivity|].
      unfold insertRowBefore, bind, gets, valid_row. cbn [sheets logged]. fold s.
      destruct (Z.leb_spec (lastRow s + 1) (maxRows s)); [lia|].
      rewrite andb_false_r. reflexivity. }
    rewrite Hrun. cbn [fst snd sheets logged]. split; reflexivity.
Qed.

Lemma getFirstEmptyRow_of_earlier_revision_on_full_sheet :
  faults gap_world = None
  /\ 1 <= maxRows (sheets gap_world "Data")
  /\ lastRow (sheets gap_world "Data") = maxRows (sheets gap_world "Data")
  /\ fst (Legacy.getFirstEmptyRow "Data" gap_world) = Throw (BadArgument "insertRowBefore")
  /\ fst (getFirstEmptyRow "Data" 1 true gap_world)
     = Ok (mkRange "Data" (lastRow (sheets gap_world "Data") + 1) 1 1 1).
Proof.
  assert (faults gap_world = None) as Hf by reflexivity.
  assert (1 <= maxRows (sheets gap_world "Data")) as H1 by (vm_compute; discriminate).
  assert (lastRow (sheets gap_world "Data") = maxRows (sheets gap_world "Data")) as H2
    by (vm_compute; reflexivity).
  repeat (split; [assumption|]).
  destruct (getFirstEmptyRow_of_earlier_revision_needs_a_spare_row "Data" 1 gap_world Hf H1)
    as (Hp & _ & Hfull).
  split; [exact (proj1 (Hfull H2))|exact Hp].
Defined.

(** X8.  With [ignoreCheckbox] set, the earlier [isRangeEmpty] returns
    [true] for every range, whatever its cells hold: the [return false] of
    its loop leaves the callback of [forEach], not the function.  It changes
    no sheet. *)
Theorem isRangeEmpty_of_earlier_revision_is_always_true (range : Range) (w : World) :
  faults w = None ->
  1 <= getNumRows range ->
  fst (Legacy.isRangeEmpty range true w) = Ok true
  /\ sheets (snd (Legacy.isRangeEmpty range true w)) = sheets w.
Proof.
  intros Hf Hn.
  destruct (Digest.range_values_first_row (sheets w (getSheet range)) range Hn)
    as (rest & Hvals).
  destruct (Revisions.forEach_indexed_runs range
              (first_row (sheets w (getSheet range)) range) 0
              (logged (CGetValues range) w) Hf Hn) as (w' & Hrun & Hsame).
  assert (runs (Legacy.isRangeEmpty range true) w true w') as Hall.
  { unfold Legacy.isRangeEmpty. cbn [negb].
    eapply runs_bind; [apply getValues_runs; exact Hf|].
    rewrite Hvals.
    eapply runs_bind; [exact Hrun|]. apply runs_ret. }
  rewrite Hall. cbn [fst snd]. split; [reflexivity|].
  destruct Hsame as (Hs & _). exact Hs.
Qed.

Lemma isRangeEmpty_of_earlier_revision_on_filled_row :
  faults two_sheets = None
  /\ 1 <= getNumRows (form_row 2)
  /\ fst (Legacy.isRangeEmpty (form_row 2) true two_sheets) = Ok true
  /\ fst (isRangeEmpty (form_row 2) true two_sheets) = Ok false.
Proof.
  assert (faults two_sheets = None) as Hf by reflexivity.
  assert (1 <= getNumRows (form_row 2)) as H1 by (cbn; lia).
  repeat (split; [assumption|]). split.
  - exact (proj1 (isRangeEmpty_of_earlier_revision_is_always_true (form_row 2)
                    two_sheets Hf H1)).
  - vm_compute. reflexivity.
Defined.

(* ===================================================================== *)
(** ** The lock held by another execution *)
(* ===================================================================== *)

Module LockedOut.

Lemma waitLock_refused (t : Z) (w : World) :
  lock w = HeldByOther ->
  (exists e, fst (waitLock t w) = Throw e)
  /\ sheets (snd (waitLock t w)) = sheets w
  /\ lock (snd (waitLock t w)) = HeldByOther
  /\ (faults w = None -> fst (waitLock t w) = Throw LockTimeout).
Proof.
  intros Hl. unfold waitLock, bind, call, gets.
  destruct (faults w) as [[|n]|]; cbn [fst snd sheets lock]; rewrite ?Hl;
    cbn [fst snd sheets lock throw];
    (split; [eexists; reflexivity|]); (split; [reflexivity|]);
    (split; [first [exact Hl|reflexivity]|]); intros E; try discriminate; reflexivity.
Qed.

Lemma refused_first {A} (t : Z) (k : unit -> M A) (w : World) :
  lock w = HeldByOther ->
  let res := bind (waitLock t) k w in
  (exists e, fst res = Throw e)
  /\ sheets (snd res) = sheets w
  /\ lock (snd res) = HeldByOther
  /\ (faults w = None -> fst res = Throw LockTimeout).
Proof.
  intros Hl res. destruct (waitLock_refused t w Hl) as ((e & He) & Hs & Hk & Hto).
  subst res. unfold bind. destruct (waitLock t w) as [[a|e'] w1] eqn:E.
  - cbn in He. discriminate.
  - cbn [fst snd] in *. split; [exists e'; reflexivity|].
    split; [exact Hs|]. split; [exact Hk|].
    intros Hf. specialize (Hto Hf). injection Hto as ->. reflexivity.
Qed.

End LockedOut.

Import LockedOut.

(** X9.  While another execution holds the script lock for the whole of
    the wait, a copy or a move that uses the lock ends with an error (the
    time-out of [waitLock] when the host lets the call through) and has
    changed no sheet; the lock stays with the other execution. *)
Theorem nothing_is_written_without_the_lock
    (range : Range) (sheet : SheetId) (digest : bool) (cb : Callback) (ic : bool)
    (w : World) :
  lock w = HeldByOther ->
  let copied := copyToFirstEmptyRow range sheet digest cb true ic w in
  let moved := moveToFirstEmptyRow range sheet digest cb true ic w in
  ((exists e, fst copied = Throw e)
   /\ sheets (snd copied) = sheets w
   /\ lock (snd copied) = HeldByOther
   /\ (faults w = None -> fst copied = Throw LockTimeout))
  /\ ((exists e, fst moved = Throw e)
      /\ sheets (snd moved) = sheets w
      /\ lock (snd moved) = HeldByOther
      /\ (faults w = None -> fst moved = Throw LockTimeout)).
Proof.
  intros Hl copied moved. split.
  - subst copied. unfold copyToFirstEmptyRow. cbn [when].
    apply LockedOut.refused_first. exact Hl.
  - subst moved. unfold moveToFirstEmptyRow. cbn [when].
    apply LockedOut.refused_first. exact Hl.
Qed.

Lemma copy_and_move_while_locked_out :
  lock locked_out = HeldByOther
  /\ fst (copyToFirstEmptyRow (form_row 2) "Responses" false None true true locked_out)
     = Throw LockTimeout
  /\ sheets (snd (moveToFirstEmptyRow (form_row 2) "Responses" false None true true
                                      locked_out))
     = sheets locked_out.
Proof.
  assert (lock locked_out = HeldByOther) as Hl by reflexivity.
  split; [exact Hl|].
  destruct (nothing_is_written_without_the_lock (form_row 2) "Responses" false None true
              locked_out Hl) as ((_ & _ & _ & Hc) & (_ & Hm & _)).
  split; [exact (Hc eq_refl)|exact Hm].
Defined.

(* ===================================================================== *)
(** ** [trimRowRange] *)
(* ===================================================================== *)

(** X10.  [trimRowRange] returns a range on the first row of the range it
    is given.  A positive [amount] keeps the first column and takes
    [amount] columns off the end; when no column is left the host refuses
    the range.  A negative [amount] takes as many columns off the width but
    moves the first column to the left by as many: the range returned does
    not begin inside the one given, and when the range given begins in the
    first columns of the sheet the host refuses it.  No call changes the
    world. *)
Theorem trimRowRange_columns (range : Range) (amount : Z) (w : World) :
  1 <= getRow range ->
  1 <= getColumn range ->
  let c := getColumn range in
  let n := getNumColumns range in
  let res := Ranges.trimRowRange range amount w in
  snd res = w
  /\ (0 <= amount < n ->
      fst res = Ok (mkRange (getSheet range) (getRow range) c 1 (n - amount)))
  /\ (n <= amount -> 0 <= amount -> fst res = Throw (BadArgument "getRange"))
  /\ (amount < 0 -> 1 <= c + amount -> 1 <= n + amount ->
      fst res = Ok (mkRange (getSheet range) (getRow range) (c + amount) 1 (n + amount)))
  /\ (amount < 0 -> c + amount < 1 \/ n + amount < 1 ->
      fst res = Throw (BadArgument "getRange")).
Proof.
  intros Hr Hc c n res. subst res. unfold Ranges.trimRowRange. fold c. fold n.
  destruct (Z.ltb_spec amount 0) as [Hneg|Hpos].
  - split.
    { unfold getRange. destruct (_ && _); reflexivity. }
    split; [intros; lia|]. split; [intros; lia|]. split.
    + intros _ H1 H2. rewrite getRange_runs by lia. reflexivity.
    + intros _ H. rewrite Edges.getRange_throws by lia. reflexivity.
  - split.
    { unfold getRange. destruct (_ && _); reflexivity. }
    split.
    + intros H. rewrite getRange_runs by lia. reflexivity.
    + split; [|split; intros; lia].
      intros H _. rewrite Edges.getRange_throws by lia. reflexivity.
Qed.

Lemma trimRowRange_of_form_row :
  1 <= getRow (form_row 2)
  /\ 1 <= getColumn (form_row 2)
  /\ fst (Ranges.trimRowRange (form_row 2) 1 two_sheets) = Ok (mkRange "Form" 2 1 1 2)
  /\ fst (Ranges.trimRowRange (form_row 2) (-1) two_sheets) = Throw (BadArgument "getRange").
Proof.
  assert (1 <= getRow (form_row 2)) as H1 by (cbn; lia).
  assert (1 <= getColumn (form_row 2)) as H2 by (cbn; lia).
  repeat (split; [assumption|]).
  destruct (trimRowRange_columns (form_row 2) 1 two_sheets H1 H2) as (_ & Ha & _).
  destruct (trimRowRange_columns (form_row 2) (-1) two_sheets H1 H2)
    as (_ & _ & _ & _ & Hb).
  split.
  - exact (Ha ltac:(cbn; lia)).
  - exact (Hb ltac:(lia) ltac:(left; cbn; lia)).
Defined.

(* ===================================================================== *)
(** ** A copy, step by step *)
(* ===================================================================== *)

Module Paste.

Lemma lock_step (useLock : bool) (w : World) :
  faults w = None -> lock w <> HeldByOther ->
  runs (when useLock (waitLock 300000)) w tt
       (if useLock then set_lock HeldByUs (logged (CWaitLock 300000) w) else w).
Proof.
  intros Hf Hl. destruct useLock; cbn [when]; [apply waitLock_runs; assumption|apply runs_ret].
Qed.

Lemma unlock_step (useLock : bool) (w : World) :
  faults w = None -> (useLock = true -> lock w = HeldByUs) ->
  runs (when useLock releaseLock) w tt
       (if useLock then set_lock Free (logged CReleaseLock w) else w).
Proof.
  intros Hf Hl. destruct useLock; cbn [when]; [|apply runs_ret].
  apply releaseLock_runs; auto.
Qed.

(** The digest of a row is not the empty string. *)
Lemma base64Encode_not_empty (a : Z) (l : list Z) :
  Utilities.base64Encode (a :: l) <> "".
Proof.
  unfold Utilities.base64Encode. cbn [List.length Utilities.b64_groups].
  destruct l as [|b [|c rest]]; cbn [string_of_list_ascii]; discriminate.
Qed.

Lemma sha1_not_empty (msg : list Z) : exists a l, Utilities.sha1 msg = a :: l.
Proof.
  unfold Utilities.sha1. cbv zeta. cbn [Utilities.be_bytes app].
  eexists. eexists. reflexivity.
Qed.

Lemma digest_not_empty (row : list Value) (skip : Z) :
  is_empty_string (VStr (digest_of_values row skip Utilities.SHA_1)) = false.
Proof.
  unfold digest_of_values, Utilities.computeDigest, Utilities.SHA_1. cbv zeta.
  destruct (sha1_not_empty (Utilities.bytes_of_string (join (slice row skip))))
    as (a & l & ->).
  cbn [is_empty_string]. apply String.eqb_neq. apply base64Encode_not_empty.
Qed.

(** [addDigest], step by step. *)
Lemma addDigest_runs (rg : Range) (skip : Z) (digest : option string) (w : World) :
  faults w = None ->
  1 <= getRow rg -> 1 <= getColumn rg -> 1 <= getNumRows rg -> 0 <= getNumColumns rg ->
  let dg := match digest with
            | Some d => d
            | None => digest_of_values (first_row (sheets w (getSheet rg)) rg) skip
                                       Utilities.SHA_1
            end in
  let cell := mkRange (getSheet rg) (getRow rg) (getColumn rg + getNumColumns rg) 1 1 in
  exists w1,
    same_but_log w w1
    /\ runs (addDigest rg skip digest) w
            (mkRange (getSheet rg) (getRow rg) (getColumn rg) 1 (getNumColumns rg + 1))
            (set_sheet (getSheet rg)
               (write_block (getRow rg) (getColumn rg + getNumColumns rg) 1 1
                            (fun _ _ => VStr dg) (sheets w (getSheet rg)))
               (logged (CSetValue cell (VStr dg)) w1)).
Proof.
  intros Hf Hr Hc Hnr Hnc dg cell.
  assert (exists w1, same_but_log w w1
                     /\ runs (match digest with
                              | None => getDigest rg skip Utilities.SHA_1
                              | Some d => ret d
                              end) w dg w1) as (w1 & Hsame & Hrun1).
  { subst dg. destruct digest as [d|].
    - exists w. split; [apply same_but_log_refl|apply runs_ret].
    - eexists. split; [|apply getDigest_runs; assumption].
      apply same_but_log_logged. reflexivity. }
  assert (faults w1 = None) as Hf1 by (destruct Hsame as (_ & _ & E & _); congruence).
  assert (sheets w1 = sheets w) as Hs1 by apply Hsame.
  exists w1. split; [exact Hsame|].
  unfold addDigest. eapply runs_bind; [exact Hrun1|].
  eapply runs_bind; [apply getRange_runs; lia|].
  eapply runs_bind.
  { unfold getCell. cbn [getNumRows getNumColumns getSheet getRow getColumn].
    destruct (Z.leb_spec 1 (getNumColumns rg + 1)); [|lia].
    rewrite (Z.leb_refl (getNumColumns rg + 1)). cbn. apply runs_ret. }
  replace (getRow rg + 1 - 1) with (getRow rg) by lia.
  replace (getColumn rg + (getNumColumns rg + 1) - 1)
    with (getColumn rg + getNumColumns rg) by lia.
  eapply runs_bind.
  { unfold setValue. eapply runs_bind; [apply call_runs; exact Hf1|]. reflexivity. }
  cbn [getSheet getRow getColumn getNumRows getNumColumns sheets logged].
  rewrite Hs1. apply runs_ret.
Qed.

(** From the reservation of the row to the digest: the steps of
    [copyToFirstEmptyRow] between the duplicate check and the callback. *)
Lemma paste_step (range : Range) (sheet : SheetId) (digest ic : bool)
    (w w2 : World) (R : Z) :
  let n := getNumColumns range in
  let p := pasted (sheets w2 (getSheet range)) range R (sheets w2 sheet) in
  let destination := mkRange sheet R 1 1 (if digest then n + 1 else n) in
  runs (getFirstEmptyRow sheet 1 ic) w (mkRange sheet R 1 1 1) w2 ->
  faults w2 = None -> 1 <= R -> 1 <= n ->
  exists w3,
    sheets w3 sheet = (if digest then signed p sheet R n else p)
    /\ (forall id, id <> sheet -> sheets w3 id = sheets w2 id)
    /\ lock w3 = lock w2 /\ faults w3 = None
    /\ deletions (log w3) = deletions (log w2)
    /\ forall A (K : Range -> M A),
         (firstEmpty <- getFirstEmptyRow sheet 1 ic ;;
          destination <- getRange sheet (getRow firstEmpty) (getColumn firstEmpty) 1 n ;;
          copyTo range destination ;;
          destination <- (if digest then addDigest destination 1 None
                          else ret destination) ;;
          K destination) w
         = K destination w3.
Proof.
  intros n p destination Hrun Hf2 HR Hn.
  set (dest := mkRange sheet R 1 1 n).
  set (w3 := set_sheet sheet p (logged (CCopyTo range dest) w2)).
  assert (runs (copyTo range dest) w2 tt w3) as Hcopy.
  { unfold w3, p, pasted. apply (copyTo_runs range dest w2 Hf2). }
  assert (forall A (K : Range -> M A),
            (firstEmpty <- getFirstEmptyRow sheet 1 ic ;;
             destination <- getRange sheet (getRow firstEmpty) (getColumn firstEmpty) 1 n ;;
             copyTo range destination ;;
             destination <- (if digest then addDigest destination 1 None
                             else ret destination) ;;
             K destination) w
            = (destination <- (if digest then addDigest dest 1 None else ret dest) ;;
               K destination) w3) as Hprefix.
  { intros A K. rewrite (bind_ok _ _ _ _ _ Hrun).
    cbn [getRow getColumn].
    erewrite bind_ok; [|apply getRange_runs; lia]. fold dest.
    rewrite (bind_ok _ _ _ _ _ Hcopy). reflexivity. }
  assert (sheets w3 sheet = p) as Hp by (unfold w3; apply sheets_set_sheet_same).
  assert (forall id, id <> sheet -> sheets w3 id = sheets w2 id) as Hother.
  { intros id Hid. unfold w3. rewrite sheets_set_sheet_other by exact Hid. reflexivity. }
  destruct digest.
  - destruct (addDigest_runs dest 1 None w3) as (w4 & Hsame & Hadd);
      try (unfold dest; cbn [getRow getColumn getNumRows getNumColumns]; lia).
    { exact Hf2. }
    cbv zeta in Hadd.
    cbn [getSheet getRow getColumn getNumRows getNumColumns dest] in Hadd.
    rewrite Hp in Hadd. fold dest in Hadd.
    eexists. split; [|split; [|split; [|split; [|split]]]].
    6: { intros A K. rewrite Hprefix. rewrite (bind_ok _ _ _ _ _ Hadd). reflexivity. }
    + rewrite sheets_set_sheet_same. reflexivity.
    + intros id Hid. rewrite sheets_set_sheet_other by exact Hid.
      cbn [sheets logged]. destruct Hsame as (E & _). rewrite E. apply Hother. exact Hid.
    + cbn [lock set_sheet logged]. destruct Hsame as (_ & E & _). rewrite E. reflexivity.
    + cbn [faults set_sheet logged]. destruct Hsame as (_ & _ & E & _). rewrite E. exact Hf2.
    + cbn [log set_sheet logged]. rewrite deletions_app. cbn [deletions filter is_delete].
      rewrite app_nil_r. rewrite (same_but_log_deletions _ _ Hsame).
      unfold w3. cbn [log set_sheet logged]. rewrite deletions_app.
      cbn [deletions filter is_delete]. apply app_nil_r.
  - exists w3. split; [exact Hp|]. split; [exact Hother|].
    split; [reflexivity|]. split; [exact Hf2|]. split.
    + unfold w3. cbn [log set_sheet logged]. rewrite deletions_app.
      cbn [deletions filter is_delete]. apply app_nil_r.
    + intros A K. rewrite Hprefix. reflexivity.
Qed.

(** *** The cells of the destination *)

Lemma in_block_row (R c0 nc r c : Z) :
  in_block R c0 1 nc r c = (r =? R) && (c0 <=? c) && (c <? c0 + nc).
Proof.
  unfold in_block.
  destruct (Z.leb_spec R r), (Z.ltb_spec r (R + 1)), (Z.eqb_spec r R);
    cbn [andb]; try reflexivity; lia.
Qed.

Lemma pasted_cell (src d : Sheet) (range : Range) (R r c : Z) :
  getNumRows range = 1 -> 1 <= R <= maxRows d + 1 ->
  cellAt (pasted src range R (insert_row R d)) r c
  = if (r =? R) && (1 <=? c) && (c <=? getNumColumns range)
    then mkCell (value (cellAt src (getRow range) (getColumn range + c - 1))) None
    else if r <? R then cellAt d r c
         else if r =? R then blankCell
              else cellAt d (r - 1) c.
Proof.
  intros Hnr HR. unfold pasted. rewrite Hnr.
  rewrite cellAt_write_block by lia. rewrite in_block_row.
  rewrite cellAt_insert_row by lia.
  replace (c <? 1 + getNumColumns range) with (c <=? getNumColumns range)
    by (destruct (Z.leb_spec c (getNumColumns range)), (Z.ltb_spec c (1 + getNumColumns range));
        try reflexivity; lia).
  destruct (Z.eqb_spec r R) as [->|]; cbn [andb]; [|reflexivity].
  destruct ((1 <=? c) && (c <=? getNumColumns range)); [|reflexivity].
  rewrite Z.ltb_irrefl. cbn [validation blankCell].
  f_equal. f_equal. f_equal; lia.
Qed.

Lemma signed_cell (p : Sheet) (sheet : SheetId) (R n r c : Z) :
  1 <= R -> 0 <= n ->
  cellAt (signed p sheet R n) r c
  = if (r =? R) && (c =? n + 1)
    then mkCell (VStr (row_digest p sheet R n)) (validation (cellAt p r c))
    else cellAt p r c.
Proof.
  intros HR Hn. unfold signed. rewrite cellAt_write_block by lia.
  rewrite in_block_row. rewrite <- andb_assoc.
  replace ((1 + n <=? c) && (c <? 1 + n + 1)) with (c =? n + 1)
    by (destruct (Z.leb_spec (1 + n) c), (Z.ltb_spec c (1 + n + 1)), (Z.eqb_spec c (n + 1));
        cbn [andb]; try reflexivity; lia).
  reflexivity.
Qed.

(** The pasted row reads as the row of the source. *)
Lemma first_row_pasted (src d : Sheet) (range : Range) (sheet : SheetId) (R : Z) :
  getNumRows range = 1 -> 1 <= R <= maxRows d + 1 ->
  first_row (pasted src range R (insert_row R d))
            (mkRange sheet R 1 1 (getNumColumns range))
  = first_row src range.
Proof.
  intros Hnr HR. unfold first_row. cbn [getRow getColumn getNumColumns].
  apply map_ext_in. intros i Hi. apply in_seq in Hi.
  rewrite pasted_cell by assumption.
  rewrite Z.eqb_refl.
  destruct (Z.leb_spec 1 (1 + Z.of_nat i)); [|lia].
  destruct (Z.leb_spec (1 + Z.of_nat i) (getNumColumns range)); [|lia].
  cbn [andb value]. f_equal. f_equal. lia.
Qed.

(** A row with content is not below the last row. *)
Lemma row_with_content_bound (s : Sheet) (r : Z) :
  row_has_content s r = true -> r <= lastRow s.
Proof.
  intros H. destruct (Z_lt_dec (lastRow s) r) as [Hlt|]; [|lia].
  rewrite (lastRow_above s r Hlt) in H. discriminate.
Qed.

(** *** The whole copy, in append mode and without a callback *)

Lemma copy_append_runs (range : Range) (sheet : SheetId) (digest useLock : bool)
    (w : World) :
  let d := sheets w sheet in
  let R := lastRow d + 1 in
  let n := getNumColumns range in
  let src := if String.eqb (getSheet range) sheet then insert_row R d
             else sheets w (getSheet range) in
  let p := pasted src range R (insert_row R d) in
  faults w = None -> lock w <> HeldByOther -> 1 <= n -> 1 <= maxRows d ->
  exists w',
    runs (copyToFirstEmptyRow range sheet digest None useLock true) w
         (mkRange sheet R 1 1 (if digest then n + 1 else n)) w'
    /\ sheets w' sheet = (if digest then signed p sheet R n else p)
    /\ (forall id, id <> sheet -> sheets w' id = sheets w id)
    /\ lock w' = (if useLock then Free else lock w)
    /\ faults w' = None
    /\ deletions (log w') = deletions (log w).
Proof.
  intros d R n src p Hf Hl Hn Hrows.
  pose proof (lock_step useLock w Hf Hl) as Hlock.
  set (w1 := if useLock then set_lock HeldByUs (logged (CWaitLock 300000) w) else w) in *.
  assert (faults w1 = None) as Hf1 by (unfold w1; destruct useLock; exact Hf).
  assert (sheets w1 = sheets w) as Hs1 by (unfold w1; destruct useLock; reflexivity).
  assert (deletions (log w1) = deletions (log w)) as Hd1.
  { unfold w1. destruct useLock; [|reflexivity]. cbn [log set_lock logged].
    rewrite deletions_app. cbn [deletions filter is_delete]. apply app_nil_r. }
  assert (lock w1 = if useLock then HeldByUs else lock w) as Hl1
    by (unfold w1; destruct useLock; reflexivity).
  pose proof (getFirstEmptyRow_append_runs sheet 1 w1 Hf1) as Hres.
  rewrite Hs1 in Hres. fold d in Hres. specialize (Hres Hrows). cbv zeta in Hres.
  fold R in Hres.
  set (w2 := set_sheet sheet (insert_row R d)
               (logged (reserve_call sheet R (maxRows d))
                  (logged (CGetMaxRows sheet) (logged (CGetLastRow sheet) w1)))) in *.
  pose proof (lastRow_bounds d) as [HL0 HL1].
  destruct (paste_step range sheet digest true w1 w2 R Hres Hf1 ltac:(unfold R; lia) Hn)
    as (w3 & Hp3 & Ho3 & Hl3 & Hf3 & Hd3 & Heq).
  assert (sheets w2 sheet = insert_row R d) as Hw2s
    by (unfold w2; apply sheets_set_sheet_same).
  assert (sheets w2 (getSheet range) = src) as Hw2r.
  { unfold w2, src. cbn [sheets set_sheet logged]. rewrite Hs1. reflexivity. }
  rewrite Hw2s, Hw2r in Hp3. fold n in Hp3. fold p in Hp3.
  pose proof (unlock_step useLock w3 Hf3) as Hun.
  assert (useLock = true -> lock w3 = HeldByUs) as Hheld.
  { intros ->. rewrite Hl3. unfold w2. cbn [lock set_sheet logged]. exact Hl1. }
  specialize (Hun Hheld).
  exists (if useLock then set_lock Free (logged CReleaseLock w3) else w3).
  split.
  { unfold runs, copyToFirstEmptyRow.
    rewrite (bind_ok _ _ _ _ _ Hlock). rewrite bind_ret_l.
    fold n. rewrite Heq. cbn [when]. rewrite bind_ret_l.
    rewrite (bind_ok _ _ _ _ _ Hun). reflexivity. }
  split.
  { destruct useLock; cbn [sheets set_lock logged]; exact Hp3. }
  split.
  { intros id Hid.
    assert (sheets w3 id = sheets w id) as E.
    { rewrite (Ho3 id Hid). unfold w2. rewrite sheets_set_sheet_other by exact Hid.
      cbn [sheets logged]. rewrite Hs1. reflexivity. }
    destruct useLock; cbn [sheets set_lock logged]; exact E. }
  split.
  { destruct useLock; cbn [lock set_lock logged]; [reflexivity|].
    rewrite Hl3. unfold w2. cbn [lock set_sheet logged]. exact Hl1. }
  split.
  { destruct useLock; cbn [faults set_lock logged]; exact Hf3. }
  assert (deletions (log w3) = deletions (log w)) as E.
  { rewrite Hd3. unfold w2. cbn [log set_sheet logged]. rewrite !deletions_app.
    cbn [deletions filter is_delete].
    fold (deletions [reserve_call sheet R (maxRows d)]).
    unfold deletions at 2. cbn [filter]. rewrite is_delete_reserve_call.
    rewrite !app_nil_r. exact Hd1. }
  destruct useLock; [|exact E].
  cbn [log set_lock logged]. rewrite deletions_app. cbn [deletions filter is_delete].
  rewrite app_nil_r. exact E.
Qed.

End Paste.

Import Paste.

(** X11.  [addDigest] writes one cell, the cell after the last column of
    the range on its first row: it gets the digest given, or the digest of
    the first row of the range when none is given, as a string, and keeps
    its rule; every other cell of every sheet is as it was.  The range
    returned is the first row of the range, one column wider. *)
Theorem addDigest_writes_the_cell_after_the_range
    (range : Range) (skip : Z) (digest : option string) (w : World) :
  faults w = None ->
  1 <= getRow range -> 1 <= getColumn range ->
  1 <= getNumRows range -> 1 <= getNumColumns range ->
  let sheet := getSheet range in
  let s := sheets w sheet in
  let dg := match digest with
            | Some d => d
            | None => digest_of_values (first_row s range) skip Utilities.SHA_1
            end in
  let col := getColumn range + getNumColumns range in
  let res := addDigest range skip digest w in
  let s' := sheets (snd res) sheet in
  fst res = Ok (mkRange sheet (getRow range) (getColumn range) 1 (getNumColumns range + 1))
  /\ cellAt s' (getRow range) col
     = mkCell (VStr dg) (validation (cellAt s (getRow range) col))
  /\ (forall r c, r <> getRow range \/ c <> col -> cellAt s' r c = cellAt s r c)
  /\ (forall id, id <> sheet -> sheets (snd res) id = sheets w id).
Proof.
  intros Hf Hr Hc Hnr Hnc sheet s dg col res s'.
  destruct (Paste.addDigest_runs range skip digest w Hf Hr Hc Hnr ltac:(lia))
    as (w1 & Hsame & Hrun).
  cbv zeta in Hrun. fold sheet in Hrun. fold s in Hrun. fold dg in Hrun. fold col in Hrun.
  assert (1 <= col) as Hcol by (unfold col; lia).
  subst s' res. unfold runs in Hrun. rewrite Hrun. cbn [fst snd].
  split; [reflexivity|].
  rewrite sheets_set_sheet_same.
  split; [|split].
  - rewrite cellAt_write_block; [|lia|lia]. rewrite Paste.in_block_row.
    rewrite Z.eqb_refl, Z.leb_refl.
    destruct (Z.ltb_spec col (col + 1)); [|lia]. reflexivity.
  - intros r c Hrc.
    rewrite cellAt_write_block; [|lia|lia]. rewrite Paste.in_block_row.
    destruct (Z.eqb_spec r (getRow range)); cbn [andb]; [|reflexivity].
    destruct (Z.leb_spec col c); cbn [andb]; [|reflexivity].
    destruct (Z.ltb_spec c (col + 1)); [lia|reflexivity].
  - intros id Hid. rewrite sheets_set_sheet_other by exact Hid.
    cbn [sheets logged]. destruct Hsame as (E & _). rewrite E. reflexivity.
Qed.

Lemma addDigest_on_form_row_2 :
  faults two_sheets = None
  /\ 1 <= getRow (form_row 2) /\ 1 <= getColumn (form_row 2)
  /\ 1 <= getNumRows (form_row 2) /\ 1 <= getNumColumns (form_row 2)
  /\ fst (addDigest (form_row 2) 1 None two_sheets) = Ok (mkRange "Form" 2 1 1 4)
  /\ value (cellAt (sheets (snd (addDigest (form_row 2) 1 None two_sheets)) "Form") 2 4)
     = VStr "9TPVvhoSC0N/p0/KU4HiWHxEkwc=".
Proof.
  assert (faults two_sheets = None) as Hf by reflexivity.
  assert (1 <= getRow (form_row 2)) as H1 by (cbn; lia).
  assert (1 <= getColumn (form_row 2)) as H2 by (cbn; lia).
  assert (1 <= getNumRows (form_row 2)) as H3 by (cbn; lia).
  assert (1 <= getNumColumns (form_row 2)) as H4 by (cbn; lia).
  repeat (split; [assumption|]).
  destruct (addDigest_writes_the_cell_after_the_range (form_row 2) 1 None two_sheets
              Hf H1 H2 H3 H4) as (Ha & Hb & _).
  split; [exact Ha|].
  cbn [getSheet getRow getColumn getNumColumns form_row] in Hb.
  change (1 + 3) with 4 in Hb. rewrite Hb. vm_compute. reflexivity.
Defined.

(** X12.  A copy with the default placement and without digest or
    callback, of a range of one row from another sheet: the row is written
    after the last row with content of the destination, on a row inserted
    for it; the new row holds the values of the range from column 1 on,
    without any rule, and nothing else; the rows above are as they were and
    the rows below are the former rows one row further down, so nothing is
    written over; the source and every other sheet are untouched; the lock,
    when used, is free again. *)
Theorem copyToFirstEmptyRow_appends_the_row
    (range : Range) (sheet : SheetId) (useLock : bool) (w : World) :
  faults w = None -> lock w <> HeldByOther ->
  getSheet range <> sheet -> getNumRows range = 1 -> 1 <= getNumColumns range ->
  1 <= maxRows (sheets w sheet) ->
  let d := sheets w sheet in
  let src := sheets w (getSheet range) in
  let R := lastRow d + 1 in
  let n := getNumColumns range in
  let res := copyToFirstEmptyRow range sheet false None useLock true w in
  let d' := sheets (snd res) sheet in
  fst res = Ok (mkRange sheet R 1 1 n)
  /\ (forall c, 1 <= c <= n ->
        cellAt d' R c
        = mkCell (value (cellAt src (getRow range) (getColumn range + c - 1))) None)
  /\ (forall c, c < 1 \/ n < c -> cellAt d' R c = blankCell)
  /\ (forall r c, r < R -> cellAt d' r c = cellAt d r c)
  /\ (forall r c, R < r -> cellAt d' r c = cellAt d (r - 1) c)
  /\ maxRows d' = maxRows d + 1
  /\ (forall id, id <> sheet -> sheets (snd res) id = sheets w id)
  /\ lock (snd res) = (if useLock then Free else lock w).
Proof.
  intros Hf Hl Hne Hnr Hn Hrows d src R n res d'.
  destruct (Paste.copy_append_runs range sheet false useLock w Hf Hl Hn Hrows)
    as (w' & Hrun & Hd & Hother & Hlock & _).
  fold d in Hrows.
  cbv zeta in Hrun, Hd. fold d in Hrun, Hd. fold R in Hrun, Hd. fold n in Hrun.
  assert ((getSheet range =? sheet)%string = false) as E by (apply String.eqb_neq; exact Hne).
  rewrite E in Hd. fold src in Hd.
  pose proof (lastRow_bounds d) as [HL0 HL1].
  assert (1 <= R <= maxRows d + 1) as HR by (unfold R; lia).
  subst d' res. unfold runs in Hrun. rewrite Hrun. cbn [fst snd]. rewrite Hd.
  split; [reflexivity|]. split; [|split; [|split; [|split; [|split; [|split]]]]].
  - intros c Hc. rewrite Paste.pasted_cell by assumption. rewrite Z.eqb_refl.
    destruct (Z.leb_spec 1 c); [|lia].
    destruct (Z.leb_spec c (getNumColumns range)); [|unfold n in Hc; lia]. reflexivity.
  - intros c Hc. rewrite Paste.pasted_cell by assumption. rewrite Z.eqb_refl.
    rewrite Z.ltb_irrefl.
    destruct (Z.leb_spec 1 c); cbn [andb]; [|reflexivity].
    destruct (Z.leb_spec c (getNumColumns range)); [unfold n in Hc; lia|reflexivity].
  - intros r c Hr. rewrite Paste.pasted_cell by assumption.
    destruct (Z.eqb_spec r R); [lia|]. cbn [andb].
    destruct (Z.ltb_spec r R); [reflexivity|lia].
  - intros r c Hr. rewrite Paste.pasted_cell by assumption.
    destruct (Z.eqb_spec r R); [lia|]. cbn [andb].
    destruct (Z.ltb_spec r R); [lia|reflexivity].
  - unfold pasted. cbn [maxRows write_block insert_row]. rewrite Hnr. lia.
  - exact Hother.
  - exact Hlock.
Qed.

Lemma copy_of_form_row_2 :
  faults two_sheets = None /\ lock two_sheets <> HeldByOther
  /\ getSheet (form_row 2) <> "Responses" /\ getNumRows (form_row 2) = 1
  /\ 1 <= getNumColumns (form_row 2) /\ 1 <= maxRows (sheets two_sheets "Responses")
  /\ fst (copyToFirstEmptyRow (form_row 2) "Responses" false None true true two_sheets)
     = Ok (mkRange "Responses" (lastRow (sheets two_sheets "Responses") + 1) 1 1 3)
  /\ lock (snd (copyToFirstEmptyRow (form_row 2) "Responses" false None true true
                                    two_sheets)) = Free.
Proof.
  assert (faults two_sheets = None) as Hf by reflexivity.
  assert (lock two_sheets <> HeldByOther) as Hl by discriminate.
  assert (getSheet (form_row 2) <> "Responses") as Hne by discriminate.
  assert (getNumRows (form_row 2) = 1) as H1 by reflexivity.
  assert (1 <= getNumColumns (form_row 2)) as H2 by (cbn; lia).
  assert (1 <= maxRows (sheets two_sheets "Responses")) as H3 by (vm_compute; discriminate).
  repeat (split; [assumption|]).
  destruct (copyToFirstEmptyRow_appends_the_row (form_row 2) "Responses" true two_sheets
              Hf Hl Hne H1 H2 H3) as (Ha & _ & _ & _ & _ & _ & _ & Hb).
  split; [exact Ha|exact Hb].
Defined.

(* ===================================================================== *)
(** ** The digest column, written and read back *)
(* ===================================================================== *)

Module RoundTrip.

(** [isDuplicate] with a digest and the default [last], on any sheet. *)
Lemma isDuplicate_default_runs (range : Range) (sheet : SheetId) (skip : Z) (w : World) :
  let s := sheets w sheet in
  let digest := digest_of_values (first_row (sheets w (getSheet range)) range) skip
                                 Utilities.SHA_1 in
  let col := getNumColumns range + 1 in
  faults w = None -> 1 <= getNumRows range -> 1 <= col ->
  exists w',
    runs (isDuplicate range sheet true None skip) w
         (existsb (fun r => value_eqb (VStr digest) (value (cellAt s r col)))
                  (seqZ 1 (lastRow s))) w'
    /\ same_but_log w w'.
Proof.
  intros s digest col Hf Hrows Hcol.
  pose proof (lastRow_bounds s) as [HL0 _].
  destruct (Z.eq_dec (lastRow s) 0) as [E0|Hpos].
  - eexists. split.
    + unfold isDuplicate. eapply runs_bind; [apply getLastRow_runs; exact Hf|].
      fold s. rewrite E0. cbn [Z.eqb]. unfold seqZ. cbn. apply runs_ret.
    + apply same_but_log_logged. reflexivity.
  - apply (isDuplicate_digest_runs range sheet None skip w Hf Hrows Hcol).
    cbn [effective_last]. fold s. lia.
Qed.

(** The digest cell of the signed row, and the row itself. *)
Lemma signed_pasted_digest (src d : Sheet) (range : Range) (sheet : SheetId) (R : Z) :
  getNumRows range = 1 -> 1 <= R <= maxRows d + 1 -> 1 <= getNumColumns range ->
  let n := getNumColumns range in
  let p := pasted src range R (insert_row R d) in
  value (cellAt (signed p sheet R n) R (n + 1))
  = VStr (digest_of_values (first_row src range) 1 Utilities.SHA_1)
  /\ (forall r c, r <> R \/ c <> n + 1 -> cellAt (signed p sheet R n) r c = cellAt p r c).
Proof.
  intros Hnr HR Hn n p. split.
  - rewrite signed_cell by lia. rewrite !Z.eqb_refl. cbn [andb value].
    unfold row_digest, p, n. rewrite first_row_pasted by assumption. reflexivity.
  - intros r c Hrc. rewrite signed_cell by lia.
    destruct (Z.eqb_spec r R); cbn [andb]; [|reflexivity].
    destruct (Z.eqb_spec c (n + 1)); [lia|reflexivity].
Qed.

End RoundTrip.

Import RoundTrip.

(** X13.  A copy with [digest] set, of a range of one row from another
    sheet: the range returned is the new row with one column more; that
    column holds the digest that [getDigest] gives for the range copied,
    the columns before it hold its values; and asked afterwards whether the
    range is a duplicate of a row of the destination, [isDuplicate] answers
    [true]. *)
Theorem copy_with_digest_is_found_by_isDuplicate
    (range : Range) (sheet : SheetId) (useLock : bool) (w : World) :
  faults w = None -> lock w <> HeldByOther ->
  getSheet range <> sheet -> getNumRows range = 1 -> 1 <= getNumColumns range ->
  1 <= maxRows (sheets w sheet) ->
  let src := sheets w (getSheet range) in
  let R := lastRow (sheets w sheet) + 1 in
  let n := getNumColumns range in
  let copied := copyToFirstEmptyRow range sheet true None useLock true w in
  let d' := sheets (snd copied) sheet in
  exists dg,
    fst (getDigest range 1 Utilities.SHA_1 w) = Ok dg
    /\ fst copied = Ok (mkRange sheet R 1 1 (n + 1))
    /\ value (cellAt d' R (n + 1)) = VStr dg
    /\ (forall c, 1 <= c <= n ->
          value (cellAt d' R c) = value (cellAt src (getRow range) (getColumn range + c - 1)))
    /\ fst (isDuplicate range sheet true None 1 (snd copied)) = Ok true.
Proof.
  intros Hf Hl Hne Hnr Hn Hrows src R n copied d'.
  destruct (Paste.copy_append_runs range sheet true useLock w Hf Hl Hn Hrows)
    as (w' & Hrun & Hd & Hother & _ & Hf' & _).
  cbv zeta in Hrun, Hd. fold R in Hrun, Hd. fold n in Hrun, Hd.
  assert ((getSheet range =? sheet)%string = false) as E by (apply String.eqb_neq; exact Hne).
  rewrite E in Hd. fold src in Hd.
  set (d := sheets w sheet) in *.
  pose proof (lastRow_bounds d) as [HL0 HL1].
  assert (1 <= R <= maxRows d + 1) as HR by (unfold R; lia).
  destruct (RoundTrip.signed_pasted_digest src d range sheet R Hnr HR Hn) as [Hdg Hrest].
  cbv zeta in Hdg, Hrest. fold n in Hdg, Hrest.
  set (dg := digest_of_values (first_row src range) 1 Utilities.SHA_1) in *.
  exists dg.
  split.
  { rewrite (Digest.getDigest_runs range 1 Utilities.SHA_1 w Hf ltac:(lia)). reflexivity. }
  subst d' copied. unfold runs in Hrun. rewrite Hrun. cbn [fst snd]. rewrite Hd.
  split; [reflexivity|]. split; [exact Hdg|]. split.
  { intros c Hc. rewrite Hrest by lia. rewrite Paste.pasted_cell by assumption.
    rewrite Z.eqb_refl.
    destruct (Z.leb_spec 1 c); [|lia].
    destruct (Z.leb_spec c (getNumColumns range)); [|unfold n in Hc; lia]. reflexivity. }
  destruct (RoundTrip.isDuplicate_default_runs range sheet 1 w' Hf' ltac:(lia) ltac:(lia))
    as (w'' & Hdup & _).
  cbv zeta in Hdup. rewrite Hdup. cbn [fst]. f_equal.
  rewrite (Hother (getSheet range) Hne). fold src. fold dg. fold n. rewrite Hd.
  apply existsb_seqZ_true. exists R. split.
  - split; [lia|].
    assert (R <= lastRow (signed (pasted src range R (insert_row R d)) sheet R n)); [|lia].
    apply Paste.row_with_content_bound. apply row_has_content_true. exists (n + 1).
    unfold has_content. rewrite Hdg. unfold dg. rewrite Paste.digest_not_empty. reflexivity.
  - rewrite Hdg. apply Cells.value_eqb_str. reflexivity.
Qed.

Lemma copy_with_digest_of_form_row_2 :
  faults two_sheets = None /\ lock two_sheets <> HeldByOther
  /\ getSheet (form_row 2) <> "Responses" /\ getNumRows (form_row 2) = 1
  /\ 1 <= getNumColumns (form_row 2) /\ 1 <= maxRows (sheets two_sheets "Responses")
  /\ exists dg,
       fst (getDigest (form_row 2) 1 Utilities.SHA_1 two_sheets) = Ok dg
       /\ fst (isDuplicate (form_row 2) "Responses" true None 1
                 (snd (copyToFirstEmptyRow (form_row 2) "Responses" true None true true
                                           two_sheets))) = Ok true.
Proof.
  assert (faults two_sheets = None) as Hf by reflexivity.
  assert (lock two_sheets <> HeldByOther) as Hl by discriminate.
  assert (getSheet (form_row 2) <> "Responses") as Hne by discriminate.
  assert (getNumRows (form_row 2) = 1) as H1 by reflexivity.
  assert (1 <= getNumColumns (form_row 2)) as H2 by (cbn; lia).
  assert (1 <= maxRows (sheets two_sheets "Responses")) as H3 by (vm_compute; discriminate).
  repeat (split; [assumption|]).
  destruct (copy_with_digest_is_found_by_isDuplicate (form_row 2) "Responses" true
              two_sheets Hf Hl Hne H1 H2 H3) as (dg & Ha & _ & _ & _ & Hb).
  exists dg. split; [exact Ha|exact Hb].
Defined.

(* ===================================================================== *)
(** ** The duplicate callback *)
(* ===================================================================== *)

Module Callbacks.

(** A copy with a digest and a callback, up to the callback. *)
Lemma copy_with_callback (range : Range) (sheet : SheetId) (callback : Range -> M unit)
    (useLock : bool) (w : World) :
  let d := sheets w sheet in
  let src := sheets w (getSheet range) in
  let R := lastRow d + 1 in
  let n := getNumColumns range in
  let dg := digest_of_values (first_row src range) 1 Utilities.SHA_1 in
  let destination := mkRange sheet R 1 1 (n + 1) in
  let duplicate := existsb (fun r => value_eqb (VStr dg) (value (cellAt d r (n + 1))))
                           (seqZ 1 (lastRow d)) in
  faults w = None -> lock w <> HeldByOther ->
  getSheet range <> sheet -> getNumRows range = 1 -> 1 <= n -> 1 <= maxRows d ->
  exists w3,
    sheets w3 sheet = signed (pasted src range R (insert_row R d)) sheet R n
    /\ (forall id, id <> sheet -> sheets w3 id = sheets w id)
    /\ lock w3 = (if useLock then HeldByUs else lock w)
    /\ faults w3 = None
    /\ copyToFirstEmptyRow range sheet true (Some callback) useLock true w
       = (when duplicate (callback destination) ;;
          when useLock releaseLock ;;
          ret destination) w3.
Proof.
  intros d src R n dg destination duplicate Hf Hl Hne Hnr Hn Hrows.
  pose proof (lock_step useLock w Hf Hl) as Hlock.
  set (w1 := if useLock then set_lock HeldByUs (logged (CWaitLock 300000) w) else w) in *.
  assert (faults w1 = None) as Hf1 by (unfold w1; destruct useLock; exact Hf).
  assert (sheets w1 = sheets w) as Hs1 by (unfold w1; destruct useLock; reflexivity).
  assert (lock w1 = if useLock then HeldByUs else lock w) as Hl1
    by (unfold w1; destruct useLock; reflexivity).
  destruct (isDuplicate_default_runs range sheet 1 w1 Hf1 ltac:(lia) ltac:(fold n; lia))
    as (w1' & Hdup & Hsame).
  cbv zeta in Hdup. rewrite Hs1 in Hdup.
  fold src in Hdup. fold dg in Hdup. fold n in Hdup. fold d in Hdup. fold duplicate in Hdup.
  destruct Hsame as (Hs1' & Hl1' & Hf1' & _).
  assert (faults w1' = None) as Hf1'' by congruence.
  pose proof (getFirstEmptyRow_append_runs sheet 1 w1' Hf1'') as Hres.
  rewrite Hs1', Hs1 in Hres. fold d in Hres. specialize (Hres Hrows). cbv zeta in Hres.
  fold R in Hres.
  set (w2 := set_sheet sheet (insert_row R d)
               (logged (reserve_call sheet R (maxRows d))
                  (logged (CGetMaxRows sheet) (logged (CGetLastRow sheet) w1')))) in *.
  pose proof (lastRow_bounds d) as [HL0 HL1].
  destruct (paste_step range sheet true true w1' w2 R Hres Hf1'' ltac:(unfold R; lia) Hn)
    as (w3 & Hp3 & Ho3 & Hl3 & Hf3 & _ & Heq).
  assert ((getSheet range =? sheet)%string = false) as E by (apply String.eqb_neq; exact Hne).
  assert (sheets w2 sheet = insert_row R d) as Hw2s
    by (unfold w2; apply sheets_set_sheet_same).
  assert (sheets w2 (getSheet range) = src) as Hw2r.
  { unfold w2, src. rewrite sheets_set_sheet_other by exact Hne.
    cbn [sheets logged]. rewrite Hs1', Hs1. reflexivity. }
  rewrite Hw2s, Hw2r in Hp3. fold n in Hp3.
  exists w3. split; [exact Hp3|]. split.
  { intros id Hid. rewrite (Ho3 id Hid). unfold w2.
    rewrite sheets_set_sheet_other by exact Hid.
    cbn [sheets logged]. rewrite Hs1', Hs1. reflexivity. }
  split.
  { rewrite Hl3. unfold w2. cbn [lock set_sheet logged]. rewrite Hl1'. exact Hl1. }
  split; [exact Hf3|].
  unfold copyToFirstEmptyRow.
  rewrite (bind_ok _ _ _ _ _ Hlock).
  unfold runs in Hdup. rewrite (bind_ok _ _ _ _ _ Hdup).
  fold n. rewrite Heq. reflexivity.
Qed.

End Callbacks.

Import Callbacks.

(** X14.  A copy with a digest and a duplicate callback calls the callback
    exactly when the digest of the range is already in the digest column of
    the destination, in one of its rows up to the last row with content.
    It calls it once, with the new row and its digest cell as the range,
    after the row and the digest are written and before the lock is
    released; when the digest is not there the callback is not called. *)
Theorem duplicate_callback_runs_when_the_digest_was_there
    (range : Range) (sheet : SheetId) (callback : Range -> M unit) (useLock : bool)
    (w : World) :
  faults w = None -> lock w <> HeldByOther ->
  getSheet range <> sheet -> getNumRows range = 1 -> 1 <= getNumColumns range ->
  1 <= maxRows (sheets w sheet) ->
  let d := sheets w sheet in
  let src := sheets w (getSheet range) in
  let R := lastRow d + 1 in
  let n := getNumColumns range in
  let dg := digest_of_values (first_row src range) 1 Utilities.SHA_1 in
  let destination := mkRange sheet R 1 1 (n + 1) in
  let res := copyToFirstEmptyRow range sheet true (Some callback) useLock true w in
  exists w3,
    value (cellAt (sheets w3 sheet) R (n + 1)) = VStr dg
    /\ (forall c, 1 <= c <= n ->
          value (cellAt (sheets w3 sheet) R c)
          = value (cellAt src (getRow range) (getColumn range + c - 1)))
    /\ (forall id, id <> sheet -> sheets w3 id = sheets w id)
    /\ lock w3 = (if useLock then HeldByUs else lock w)
    /\ faults w3 = None
    /\ ((exists r, 1 <= r <= lastRow d /\ value (cellAt d r (n + 1)) = VStr dg) ->
        res = (callback destination ;; when useLock releaseLock ;; ret destination) w3)
    /\ ((forall r, 1 <= r <= lastRow d -> value (cellAt d r (n + 1)) <> VStr dg) ->
        res = (when useLock releaseLock ;; ret destination) w3).
Proof.
  intros Hf Hl Hne Hnr Hn Hrows d src R n dg destination res.
  destruct (Callbacks.copy_with_callback range sheet callback useLock w Hf Hl Hne Hnr Hn Hrows)
    as (w3 & Hp & Hother & Hlock & Hf3 & Hres).
  cbv zeta in Hp, Hres.
  fold d in Hp, Hres. fold src in Hp, Hres. fold R in Hp, Hres. fold n in Hp, Hres.
  fold dg in Hres. fold destination in Hres.
  fold d in Hrows.
  pose proof (lastRow_bounds d) as [HL0 HL1].
  assert (1 <= R <= maxRows d + 1) as HR by (unfold R; lia).
  destruct (RoundTrip.signed_pasted_digest src d range sheet R Hnr HR Hn) as [Hdg Hrest].
  cbv zeta in Hdg, Hrest. fold n in Hdg, Hrest. fold dg in Hdg.
  exists w3. rewrite Hp.
  split; [exact Hdg|]. split.
  { intros c Hc. rewrite Hrest by lia. rewrite Paste.pasted_cell by assumption.
    rewrite Z.eqb_refl.
    destruct (Z.leb_spec 1 c); [|lia].
    destruct (Z.leb_spec c (getNumColumns range)); [|unfold n in Hc; lia]. reflexivity. }
  split; [exact Hother|]. split; [exact Hlock|]. split; [exact Hf3|].
  split.
  - intros (r & Hr & Hv). subst res. rewrite Hres.
    replace (existsb (fun r0 => value_eqb (VStr dg) (value (cellAt d r0 (n + 1))))
                     (seqZ 1 (lastRow d))) with true; [reflexivity|].
    symmetry. apply existsb_seqZ_true. exists r. split; [lia|].
    apply Cells.value_eqb_str. exact Hv.
  - intros Hnone. subst res. rewrite Hres.
    replace (existsb (fun r0 => value_eqb (VStr dg) (value (cellAt d r0 (n + 1))))
                     (seqZ 1 (lastRow d))) with false; [reflexivity|].
    symmetry. apply existsb_seqZ_false. intros r Hr.
    destruct (value_eqb (VStr dg) (value (cellAt d r (n + 1)))) eqn:Ev; [|reflexivity].
    apply Cells.value_eqb_str in Ev. destruct (Hnone r ltac:(lia) Ev).
Qed.

Lemma duplicate_callback_on_form_row_2 :
  faults two_sheets = None /\ lock two_sheets <> HeldByOther
  /\ getSheet (form_row 2) <> "Responses" /\ getNumRows (form_row 2) = 1
  /\ 1 <= getNumColumns (form_row 2) /\ 1 <= maxRows (sheets two_sheets "Responses")
  /\ exists w3,
       lock w3 = HeldByUs
       /\ copyToFirstEmptyRow (form_row 2) "Responses" true (Some mark_duplicate) true true
                              two_sheets
          = (mark_duplicate (mkRange "Responses" 3 1 1 4) ;;
             when true releaseLock ;;
             ret (mkRange "Responses" 3 1 1 4)) w3.
Proof.
  assert (faults two_sheets = None) as Hf by reflexivity.
  assert (lock two_sheets <> HeldByOther) as Hl by discriminate.
  assert (getSheet (form_row 2) <> "Responses") as Hne by discriminate.
  assert (getNumRows (form_row 2) = 1) as H1 by reflexivity.
  assert (1 <= getNumColumns (form_row 2)) as H2 by (cbn; lia).
  assert (1 <= maxRows (sheets two_sheets "Responses")) as H3 by (vm_compute; discriminate).
  repeat (split; [assumption|]).
  destruct (duplicate_callback_runs_when_the_digest_was_there (form_row 2) "Responses"
              mark_duplicate true two_sheets Hf Hl Hne H1 H2 H3)
    as (w3 & _ & _ & _ & Hlock & _ & Hdup & _).
  exists w3. split; [exact Hlock|].
  apply Hdup. exists 2. split; [vm_compute; split; discriminate|].
  vm_compute. reflexivity.
Defined.

(* ===================================================================== *)
(** ** A move *)
(* ===================================================================== *)

Module MoveRow.

Lemma move_append_runs (range : Range) (sheet : SheetId) (digest useLock : bool)
    (w : World) :
  let d := sheets w sheet in
  let src := sheets w (getSheet range) in
  let R := lastRow d + 1 in
  let n := getNumColumns range in
  let p := pasted src range R (insert_row R d) in
  faults w = None -> lock w <> HeldByOther ->
  getSheet range <> sheet -> 1 <= n -> 1 <= maxRows d ->
  1 <= getRow range <= maxRows src ->
  exists w',
    runs (moveToFirstEmptyRow range sheet digest None useLock true) w
         (mkRange sheet R 1 1 (if digest then n + 1 else n)) w'
    /\ sheets w' sheet = (if digest then signed p sheet R n else p)
    /\ sheets w' (getSheet range) = delete_row (getRow range) src
    /\ (forall id, id <> sheet -> id <> getSheet range -> sheets w' id = sheets w id)
    /\ lock w' = (if useLock then Free else lock w)
    /\ faults w' = None
    /\ deletions (log w')
       = (deletions (log w) ++ [CDeleteRow (getSheet range) (getRow range)])%list.
Proof.
  intros d src R n p Hf Hl Hne Hn Hrows Hrow.
  pose proof (lock_step useLock w Hf Hl) as Hlock.
  set (w1 := if useLock then set_lock HeldByUs (logged (CWaitLock 300000) w) else w) in *.
  assert (faults w1 = None) as Hf1 by (unfold w1; destruct useLock; exact Hf).
  assert (sheets w1 = sheets w) as Hs1 by (unfold w1; destruct useLock; reflexivity).
  assert (lock w1 = if useLock then HeldByUs else lock w) as Hl1
    by (unfold w1; destruct useLock; reflexivity).
  assert (lock w1 <> HeldByOther) as Hl1'.
  { rewrite Hl1. destruct useLock; [discriminate|exact Hl]. }
  assert (deletions (log w1) = deletions (log w)) as Hd1.
  { unfold w1. destruct useLock; [|reflexivity]. cbn [log set_lock logged].
    rewrite deletions_app. cbn [deletions filter is_delete]. apply app_nil_r. }
  assert ((getSheet range =? sheet)%string = false) as E by (apply String.eqb_neq; exact Hne).
  destruct (copy_append_runs range sheet digest false w1 Hf1 Hl1' Hn)
    as (w2 & Hcopy & Hp2 & Ho2 & Hl2 & Hf2 & Hd2).
  { rewrite Hs1. exact Hrows. }
  cbv zeta in Hcopy, Hp2. rewrite Hs1 in Hcopy, Hp2. rewrite E in Hp2.
  fold d in Hcopy, Hp2. fold R in Hcopy, Hp2. fold n in Hcopy, Hp2. fold src in Hp2.
  fold p in Hp2.
  assert (sheets w2 (getSheet range) = src) as Hsrc2.
  { rewrite (Ho2 (getSheet range) Hne). rewrite Hs1. reflexivity. }
  pose proof (deleteRow_runs (getSheet range) (getRow range) w2 Hf2) as Hdel.
  rewrite Hsrc2 in Hdel. specialize (Hdel Hrow).
  set (w3 := set_sheet (getSheet range) (delete_row (getRow range) src)
               (logged (CDeleteRow (getSheet range) (getRow range)) w2)) in *.
  assert (faults w3 = None) as Hf3 by exact Hf2.
  pose proof (unlock_step useLock w3 Hf3) as Hun.
  assert (useLock = true -> lock w3 = HeldByUs) as Hheld.
  { intros ->. unfold w3. cbn [lock set_sheet logged]. rewrite Hl2. exact Hl1. }
  specialize (Hun Hheld).
  exists (if useLock then set_lock Free (logged CReleaseLock w3) else w3).
  assert (sheets w3 sheet = (if digest then signed p sheet R n else p)) as Hp3.
  { unfold w3. rewrite sheets_set_sheet_other; [exact Hp2|].
    intros Eq. apply Hne. symmetry. exact Eq. }
  split.
  { unfold runs, moveToFirstEmptyRow.
    rewrite (bind_ok _ _ _ _ _ Hlock). rewrite (bind_ok _ _ _ _ _ Hcopy).
    rewrite (bind_ok _ _ _ _ _ Hdel). rewrite (bind_ok _ _ _ _ _ Hun). reflexivity. }
  split.
  { destruct useLock; cbn [sheets set_lock logged]; exact Hp3. }
  split.
  { assert (sheets w3 (getSheet range) = delete_row (getRow range) src) as E3
      by (unfold w3; apply sheets_set_sheet_same).
    destruct useLock; cbn [sheets set_lock logged]; exact E3. }
  split.
  { intros id H1 H2.
    assert (sheets w3 id = sheets w id) as E3.
    { unfold w3. rewrite sheets_set_sheet_other by exact H2.
      cbn [sheets logged]. rewrite (Ho2 id H1). rewrite Hs1. reflexivity. }
    destruct useLock; cbn [sheets set_lock logged]; exact E3. }
  split.
  { destruct useLock; cbn [lock set_lock logged]; [reflexivity|].
    unfold w3. cbn [lock set_sheet logged]. rewrite Hl2. exact Hl1. }
  split.
  { destruct useLock; cbn [faults set_lock logged]; exact Hf3. }
  assert (deletions (log w3)
          = (deletions (log w) ++ [CDeleteRow (getSheet range) (getRow range)])%list) as E3.
  { unfold w3. cbn [log set_sheet logged]. rewrite deletions_app.
    cbn [deletions filter is_delete]. rewrite Hd2, Hd1. reflexivity. }
  destruct useLock; [|exact E3].
  cbn [log set_lock logged]. rewrite deletions_app. cbn [deletions filter is_delete].
  rewrite app_nil_r. exact E3.
Qed.

End MoveRow.

Import MoveRow.

(** X15.  A move with the default placement and without digest or
    callback, of a range of one row that lies within the grid of another
    sheet: the destination gets the row as a copy does, after its last row
    with content and above nothing it had; the source loses the row of the
    range, the whole row and not only the columns of the range: the rows
    above it stay, the rows below it move up by one and the sheet has one
    row less; the lock, when used, is free again. *)
Theorem moveToFirstEmptyRow_moves_the_row
    (range : Range) (sheet : SheetId) (useLock : bool) (w : World) :
  faults w = None -> lock w <> HeldByOther ->
  getSheet range <> sheet -> getNumRows range = 1 -> 1 <= getNumColumns range ->
  1 <= maxRows (sheets w sheet) ->
  1 <= getRow range <= maxRows (sheets w (getSheet range)) ->
  let d := sheets w sheet in
  let src := sheets w (getSheet range) in
  let R := lastRow d + 1 in
  let n := getNumColumns range in
  let res := moveToFirstEmptyRow range sheet false None useLock true w in
  let d' := sheets (snd res) sheet in
  let src' := sheets (snd res) (getSheet range) in
  fst res = Ok (mkRange sheet R 1 1 n)
  /\ (forall c, 1 <= c <= n ->
        value (cellAt d' R c) = value (cellAt src (getRow range) (getColumn range + c - 1)))
  /\ (forall r c, r < R -> cellAt d' r c = cellAt d r c)
  /\ (forall r c, r < getRow range -> cellAt src' r c = cellAt src r c)
  /\ (forall r c, getRow range <= r -> cellAt src' r c = cellAt src (r + 1) c)
  /\ maxRows src' = maxRows src - 1
  /\ lock (snd res) = (if useLock then Free else lock w).
Proof.
  intros Hf Hl Hne Hnr Hn Hrows Hrow d src R n res d' src'.
  destruct (MoveRow.move_append_runs range sheet false useLock w Hf Hl Hne Hn Hrows Hrow)
    as (w' & Hrun & Hd & Hs & _ & Hlock & _).
  cbv zeta in Hrun, Hd, Hs.
  fold d in Hrun, Hd, Hrows. fold R in Hrun, Hd. fold n in Hrun. fold src in Hd, Hs, Hrow.
  pose proof (lastRow_bounds d) as [HL0 HL1].
  assert (1 <= R <= maxRows d + 1) as HR by (unfold R; lia).
  subst d' src' res. unfold runs in Hrun. rewrite Hrun. cbn [fst snd]. rewrite Hd, Hs.
  split; [reflexivity|]. split; [|split; [|split; [|split; [|split]]]].
  - intros c Hc. rewrite Paste.pasted_cell by assumption. rewrite Z.eqb_refl.
    destruct (Z.leb_spec 1 c); [|lia].
    destruct (Z.leb_spec c (getNumColumns range)); [|unfold n in Hc; lia]. reflexivity.
  - intros r c Hr. rewrite Paste.pasted_cell by assumption.
    destruct (Z.eqb_spec r R); [lia|]. cbn [andb].
    destruct (Z.ltb_spec r R); [reflexivity|lia].
  - intros r c Hr. rewrite cellAt_delete_row by exact Hrow.
    destruct (Z.ltb_spec r (getRow range)); [reflexivity|lia].
  - intros r c Hr. rewrite cellAt_delete_row by exact Hrow.
    destruct (Z.ltb_spec r (getRow range)); [lia|reflexivity].
  - reflexivity.
  - exact Hlock.
Qed.

Lemma move_of_form_row_2 :
  faults two_sheets = None /\ lock two_sheets <> HeldByOther
  /\ getSheet (form_row 2) <> "Responses" /\ getNumRows (form_row 2) = 1
  /\ 1 <= getNumColumns (form_row 2) /\ 1 <= maxRows (sheets two_sheets "Responses")
  /\ 1 <= getRow (form_row 2) <= maxRows (sheets two_sheets (getSheet (form_row 2)))
  /\ fst (moveToFirstEmptyRow (form_row 2) "Responses" false None true true two_sheets)
     = Ok (mkRange "Responses" (lastRow (sheets two_sheets "Responses") + 1) 1 1 3)
  /\ maxRows (sheets (snd (moveToFirstEmptyRow (form_row 2) "Responses" false None true
                                               true two_sheets)) "Form")
     = maxRows (sheets two_sheets "Form") - 1.
Proof.
  assert (faults two_sheets = None) as Hf by reflexivity.
  assert (lock two_sheets <> HeldByOther) as Hl by discriminate.
  assert (getSheet (form_row 2) <> "Responses") as Hne by discriminate.
  assert (getNumRows (form_row 2) = 1) as H1 by reflexivity.
  assert (1 <= getNumColumns (form_row 2)) as H2 by (cbn; lia).
  assert (1 <= maxRows (sheets two_sheets "Responses")) as H3 by (vm_compute; discriminate).
  assert (1 <= getRow (form_row 2) <= maxRows (sheets two_sheets (getSheet (form_row 2))))
    as H4 by (vm_compute; split; discriminate).
  repeat (split; [assumption|]).
  destruct (moveToFirstEmptyRow_moves_the_row (form_row 2) "Responses" true two_sheets
              Hf Hl Hne H1 H2 H3 H4) as (Ha & _ & _ & _ & _ & Hb & _).
  split; [exact Ha|exact Hb].
Defined.

(* ===================================================================== *)
(** ** A sweep that keeps the source *)
(* ===================================================================== *)

Module SweepCopy.

Section Loop.
Variables (src dst : SheetId) (s0 : Sheet).
Local Abbreviation LC := (lastColumn s0).
Hypothesis Hne : src <> dst.

(** The copies of a sweep, one after the other. *)
Lemma copy_loop (rows : list Z) :
  forall (w : World),
    faults w = None -> lock w <> HeldByOther ->
    1 <= maxRows (sheets w dst) ->
    sheets w src = s0 ->
    (forall x, In x rows -> row_has_content s0 x = true) ->
    exists w',
      runs (forEach (fun range =>
                       copyToFirstEmptyRow range dst false None true true ;; ret tt)
                    (map (row_range src LC) rows)) w tt w'
      /\ sheets w' src = s0
      /\ lastRow (sheets w' dst) = lastRow (sheets w dst) + Z.of_nat (List.length rows)
      /\ maxRows (sheets w' dst) = maxRows (sheets w dst) + Z.of_nat (List.length rows)
      /\ (forall r' c, r' <= lastRow (sheets w dst) ->
            cellAt (sheets w' dst) r' c = cellAt (sheets w dst) r' c)
      /\ (forall j, (j < List.length rows)%nat -> forall c,
            value (cellAt (sheets w' dst) (lastRow (sheets w dst) + 1 + Z.of_nat j) c)
            = value (cellAt s0 (nth j rows 0) c))
      /\ (forall id, id <> dst -> sheets w' id = sheets w id)
      /\ deletions (log w') = deletions (log w).
Proof.
  induction rows as [|r t IH]; intros w Hf Hl Hd Hsrc Hcontent.
  - exists w. split; [reflexivity|]. split; [exact Hsrc|].
    split; [cbn [List.length]; lia|]. split; [cbn [List.length]; lia|].
    split; [reflexivity|].
    split; [intros j Hj; cbn [List.length] in Hj; lia|].
    split; reflexivity.
  - pose proof (Hcontent r (or_introl eq_refl)) as Hrc.
    apply row_has_content_true in Hrc. destruct Hrc as [c0 Hc0].
    pose proof (content_within_lastColumn s0 r c0 Hc0) as Hc0b.
    destruct (copy_append_runs (row_range src LC r) dst false true w Hf Hl)
      as (w1 & Hrun1 & Hdst1 & Hother1 & Hlock1 & Hf1 & Hdel1).
    { cbn [getNumColumns row_range]. lia. }
    { exact Hd. }
    cbv zeta in Hrun1, Hdst1.
    cbn [getSheet getNumColumns row_range] in Hrun1, Hdst1.
    assert ((src =? dst)%string = false) as Esd by (apply String.eqb_neq; exact Hne).
    rewrite Esd, Hsrc in Hdst1.
    unfold pasted in Hdst1. cbn [getRow getColumn getNumRows getNumColumns row_range] in Hdst1.
    assert (sheets w1 src = s0) as Hsrc1 by (rewrite (Hother1 src Hne); exact Hsrc).
    assert (lastRow (sheets w1 dst) = lastRow (sheets w dst) + 1) as HL1.
    { rewrite Hdst1. apply dst_lastRow; [exact Hd|].
      exists c0. split; [lia|exact Hc0]. }
    assert (maxRows (sheets w1 dst) = maxRows (sheets w dst) + 1) as HM1.
    { rewrite Hdst1. cbn [maxRows write_block insert_row].
      pose proof (lastRow_bounds (sheets w dst)). lia. }
    destruct (IH w1) as (w' & Hrun & Hsrc' & HL & HM & Hbelow & Hnew & Hother & Hdel).
    + exact Hf1.
    + rewrite Hlock1. discriminate.
    + rewrite HM1. lia.
    + exact Hsrc1.
    + intros x Hx. apply Hcontent. right. exact Hx.
    + exists w'. split.
      { cbn [map forEach]. eapply runs_bind; [|exact Hrun].
        eapply runs_bind; [exact Hrun1|apply runs_ret]. }
      split; [exact Hsrc'|].
      split; [rewrite HL, HL1; cbn [List.length]; lia|].
      split; [rewrite HM, HM1; cbn [List.length]; lia|].
      split.
      { intros r' c Hr'. rewrite Hbelow by lia. rewrite Hdst1.
        apply dst_below; [exact Hd|exact Hr']. }
      split.
      { intros j Hj c. destruct j as [|j].
        - cbn [nth]. replace (lastRow (sheets w dst) + 1 + Z.of_nat 0)
            with (lastRow (sheets w dst) + 1) by lia.
          rewrite Hbelow by lia. rewrite Hdst1.
          rewrite dst_new_row; [reflexivity|exact Hd|].
          intros c' Hc'. apply no_content_right_of_lastColumn. exact Hc'.
        - cbn [nth]. cbn [List.length] in Hj.
          specialize (Hnew j ltac:(lia) c). rewrite HL1 in Hnew.
          replace (lastRow (sheets w dst) + 1 + Z.of_nat (S j))
            with (lastRow (sheets w dst) + 1 + 1 + Z.of_nat j) by lia.
          exact Hnew. }
      split.
      { intros id Hid. rewrite (Hother id Hid). apply Hother1. exact Hid. }
      rewrite Hdel. exact Hdel1.
Qed.

End Loop.

End SweepCopy.

Import SweepCopy.

(** X16.  [sweep(sheetFrom, sheetTo, false)] between two different sheets,
    when no host call fails and the script lock can be taken: every row in
    use of the source (a row below the frozen ones that has content) is
    copied to the destination, after what was its last row with content
    and in the order of the source; the rows the destination had are as
    they were; the source is untouched and no row is deleted anywhere. *)
Theorem sweep_without_deletion_copies_every_row_in_use
    (sheetFrom sheetTo : SheetId) (w : World) :
  sheetFrom <> sheetTo ->
  faults w = None ->
  lock w <> HeldByOther ->
  0 <= frozenRows (sheets w sheetFrom) ->
  1 <= maxRows (sheets w sheetTo) ->
  let s := sheets w sheetFrom in
  let d := sheets w sheetTo in
  let rows := rows_in_use s in
  let n := List.length rows in
  let res := sweep sheetFrom sheetTo false w in
  let d' := sheets (snd res) sheetTo in
  fst res = Ok tt
  /\ sheets (snd res) sheetFrom = s
  /\ lastRow d' = lastRow d + Z.of_nat n
  /\ maxRows d' = maxRows d + Z.of_nat n
  /\ (forall r c, r <= lastRow d -> cellAt d' r c = cellAt d r c)
  /\ (forall j, (j < n)%nat -> forall c,
        value (cellAt d' (lastRow d + 1 + Z.of_nat j) c)
        = value (cellAt s (nth j rows 0) c))
  /\ deletions (log (snd res)) = deletions (log w).
Proof.
  intros Hne Hf Hl HF Hd. cbv zeta.
  set (s := sheets w sheetFrom). set (d := sheets w sheetTo).
  destruct (Sweep.getRangesInUse_runs sheetFrom w Hf HF) as (w1 & Hrun1 & Hreads).
  pose proof (Scan.same_but_log_deletions _ _ Hreads) as Hdel1.
  destruct Hreads as (Hs1 & Hl1 & Hf1 & _).
  fold s in Hrun1.
  destruct (SweepCopy.copy_loop sheetFrom sheetTo s Hne (rows_in_use s) w1)
    as (w' & Hrun & Hsrc & HL & HM & Hbelow & Hnew & _ & Hdel).
  - congruence.
  - congruence.
  - rewrite Hs1. exact Hd.
  - rewrite Hs1. reflexivity.
  - intros x Hx. apply Sweep.In_rows_in_use in Hx. apply Hx.
  - assert (sweep sheetFrom sheetTo false w = (Ok tt, w')) as Hsweep.
    { unfold sweep. eapply runs_bind; [exact Hrun1|exact Hrun]. }
    rewrite Hsweep. cbn [fst snd].
    rewrite Hs1 in HL, HM, Hbelow, Hnew. fold d in HL, HM, Hbelow, Hnew.
    split; [reflexivity|]. split; [exact Hsrc|]. split; [exact HL|].
    split; [exact HM|]. split; [exact Hbelow|]. split; [exact Hnew|].
    rewrite Hdel, Hdel1. reflexivity.
Qed.

Lemma sweep_without_deletion_of_the_form_sheet :
  "Form" <> "Responses"
  /\ faults two_sheets = None
  /\ lock two_sheets <> HeldByOther
  /\ 0 <= frozenRows (sheets two_sheets "Form")
  /\ 1 <= maxRows (sheets two_sheets "Responses")
  /\ fst (sweep "Form" "Responses" false two_sheets) = Ok tt
  /\ sheets (snd (sweep "Form" "Responses" false two_sheets)) "Form"
     = sheets two_sheets "Form"
  /\ lastRow (sheets (snd (sweep "Form" "Responses" false two_sheets)) "Responses")
     = lastRow (sheets two_sheets "Responses")
       + Z.of_nat (List.length (rows_in_use (sheets two_sheets "Form"))).
Proof.
  assert ("Form" <> "Responses") as Hne by discriminate.
  assert (faults two_sheets = None) as Hf by reflexivity.
  assert (lock two_sheets <> HeldByOther) as Hl by discriminate.
  assert (0 <= frozenRows (sheets two_sheets "Form")) as HF by (vm_compute; discriminate).
  assert (1 <= maxRows (sheets two_sheets "Responses")) as Hd by (vm_compute; discriminate).
  repeat (split; [assumption|]).
  destruct (sweep_without_deletion_copies_every_row_in_use "Form" "Responses" two_sheets
              Hne Hf Hl HF Hd) as (Ha & Hb & Hc & _).
  split; [exact Ha|]. split; [exact Hb|exact Hc].
Defined.

(* ===================================================================== *)
(** ** The names of the monthly sheets *)
(* ===================================================================== *)

Module MonthNames.

Import Periodic.


Lemma month_cases (k : Z) :
  0 <= k <= 11 ->
  k = 0 \/ k = 1 \/ k = 2 \/ k = 3 \/ k = 4 \/ k = 5 \/ k = 6 \/ k = 7 \/ k = 8
  \/ k = 9 \/ k = 10 \/ k = 11.
Proof. lia. Qed.

(** The name for a month of the year, without shift. *)
Lemma name_of_month (date : Date) (abbreviated : bool) :
  0 <= getMonth date <= 11 ->
  getMonthlySheetName date abbreviated 0
  = Ok (if abbreviated
        then abbreviation_of (getMonth date)
             ++ JsString.slice (toString (VNum (getFullYear date))) (-2)
        else month_of (getMonth date) ++ " " ++ toString (VNum (getFullYear date)))%string.
Proof.
  intros Hm. unfold getMonthlySheetName. cbv zeta. rewrite Z.add_0_r.
  destruct (Z.ltb_spec (getMonth date) 0); [lia|].
  destruct (Z.gtb_spec (getMonth date) 11); [lia|].
  assert (index monthNames (getMonth date) = Some (month_of (getMonth date))) as ->.
  { unfold index, month_of.
    destruct (Z.ltb_spec (getMonth date) 0); [lia|].
    apply nth_error_nth'. cbn [List.length monthNames]. lia. }
  destruct abbreviated; reflexivity.
Qed.

(** A name tells its month. *)
Lemma abbreviated_month_of (k : Z) (rest : string) :
  0 <= k <= 11 -> abbreviated_month (abbreviation_of k ++ rest) = Some k.
Proof.
  intros Hk.
  destruct (month_cases k Hk) as [E|[E|[E|[E|[E|[E|[E|[E|[E|[E|[E|E]]]]]]]]]]];
    rewrite E; vm_compute; reflexivity.
Qed.

Lemma full_month_of (k : Z) (rest : string) :
  0 <= k <= 11 -> full_month (month_of k ++ String " "%char rest) = Some k.
Proof.
  intros Hk.
  destruct (month_cases k Hk) as [E|[E|[E|[E|[E|[E|[E|[E|[E|[E|[E|E]]]]]]]]]]];
    rewrite E; vm_compute; reflexivity.
Qed.

Lemma append_same_prefix (a x y : string) : (a ++ x = a ++ y)%string -> x = y.
Proof.
  induction a as [|c a IH]; cbn [String.append]; intros E; [exact E|].
  injection E as E. apply IH. exact E.
Qed.

(** The number of a year is printed in one way only. *)
Lemma to_int_not_nil (z : Z) :
  Z.to_int z <> Decimal.Pos Decimal.Nil /\ Z.to_int z <> Decimal.Neg Decimal.Nil.
Proof.
  destruct z as [|p|p]; cbn; split; try discriminate;
    intros E; injection E as E; exact (DecimalPos.Unsigned.to_uint_nonnil p E).
Qed.

Lemma toString_number_inj (a b : Z) : toString (VNum a) = toString (VNum b) -> a = b.
Proof.
  cbn [toString]. intros E.
  apply (f_equal NilZero.int_of_string) in E.
  destruct (to_int_not_nil a) as [Ha1 Ha2]. destruct (to_int_not_nil b) as [Hb1 Hb2].
  rewrite !NilZero.isi in E by assumption.
  injection E as E. apply DecimalZ.to_int_inj. exact E.
Qed.

End MonthNames.

Import MonthNames.


(** The names of the source's examples that are right, and the one for a
    shift of two months back from January: December, as for one month. *)
Example monthly_sheet_names_on_new_year_2020 :
  Periodic.getMonthlySheetName new_year_2020 true 0 = Ok "JAN20"
  /\ Periodic.getMonthlySheetName new_year_2020 false 0 = Ok "January 2020"
  /\ Periodic.getMonthlySheetName new_year_2020 true (-1) = Ok "DEC19"
  /\ Periodic.getMonthlySheetName new_year_2020 true 1 = Ok "FEB20"
  /\ Periodic.getMonthlySheetName new_year_2020 true (-2) = Ok "DEC19".
Proof. repeat split; vm_compute; reflexivity. Qed.

(** X18.  Two dates in different months get different names, abbreviated
    or not, and two dates in different years get different full names: the
    submissions of two months of a year never share a monthly sheet. *)
Theorem monthly_sheet_names_tell_the_months_apart (d1 d2 : Periodic.Date) :
  0 <= Periodic.getMonth d1 <= 11 ->
  0 <= Periodic.getMonth d2 <= 11 ->
  (Periodic.getMonth d1 <> Periodic.getMonth d2 ->
   forall abbreviated,
     Periodic.getMonthlySheetName d1 abbreviated 0
     <> Periodic.getMonthlySheetName d2 abbreviated 0)
  /\ (Periodic.getFullYear d1 <> Periodic.getFullYear d2 ->
      Periodic.getMonthlySheetName d1 false 0 <> Periodic.getMonthlySheetName d2 false 0).
Proof.
  intros H1 H2.
  assert (forall abbreviated,
            Periodic.getMonthlySheetName d1 abbreviated 0
            = Periodic.getMonthlySheetName d2 abbreviated 0 ->
            Periodic.getMonth d1 = Periodic.getMonth d2
            /\ (abbreviated = false -> Periodic.getFullYear d1 = Periodic.getFullYear d2))
    as Hinj.
  { intros abbreviated E.
    rewrite (MonthNames.name_of_month d1 abbreviated H1) in E.
    rewrite (MonthNames.name_of_month d2 abbreviated H2) in E.
    destruct abbreviated; injection E as E.
    - split; [|discriminate].
      apply (f_equal abbreviated_month) in E.
      rewrite !MonthNames.abbreviated_month_of in E by assumption.
      injection E as E. exact E.
    - assert (Periodic.getMonth d1 = Periodic.getMonth d2) as Em.
      { apply (f_equal full_month) in E.
        rewrite !MonthNames.full_month_of in E by assumption.
        injection E as E. exact E. }
      split; [exact Em|]. intros _. rewrite Em in E.
      apply MonthNames.append_same_prefix in E. injection E as E.
      apply MonthNames.toString_number_inj. exact E. }
  split.
  - intros Hm abbreviated E. apply Hm. apply (Hinj abbreviated E).
  - intros Hy E. apply Hy. apply (Hinj false E). reflexivity.
Qed.

Lemma monthly_sheet_names_of_two_months :
  0 <= Periodic.getMonth new_year_2020 <= 11
  /\ 0 <= Periodic.getMonth (Periodic.mkDate 2020 5) <= 11
  /\ Periodic.getMonthlySheetName new_year_2020 true 0
     <> Periodic.getMonthlySheetName (Periodic.mkDate 2020 5) true 0.
Proof.
  assert (0 <= Periodic.getMonth new_year_2020 <= 11) as H1 by (cbn; lia).
  assert (0 <= Periodic.getMonth (Periodic.mkDate 2020 5) <= 11) as H2 by (cbn; lia).
  split; [exact H1|]. split; [exact H2|].
  apply (proj1 (monthly_sheet_names_tell_the_months_apart new_year_2020
                  (Periodic.mkDate 2020 5) H1 H2)).
  cbn. discriminate.
Defined.

(* ===================================================================== *)
(** ** A row submitted twice *)
(* ===================================================================== *)

Module Resubmission.

(** The row with its digest is the last row of the destination. *)
Lemma lastRow_signed (src d : Sheet) (range : Range) (sheet : SheetId) :
  getNumRows range = 1 -> 1 <= getNumColumns range -> 1 <= maxRows d ->
  let R := lastRow d + 1 in
  lastRow (signed (pasted src range R (insert_row R d)) sheet R (getNumColumns range)) = R.
Proof.
  intros Hnr Hn Hrows R.
  pose proof (lastRow_bounds d) as [HL0 HL1].
  assert (1 <= R <= maxRows d + 1) as HR by (unfold R; lia).
  destruct (signed_pasted_digest src d range sheet R Hnr HR Hn) as [Hdg Hrest].
  cbv zeta in Hdg, Hrest.
  apply lastRow_unique; [lia| |].
  - intros _. apply row_has_content_true. exists (getNumColumns range + 1).
    unfold has_content. rewrite Hdg. rewrite digest_not_empty. reflexivity.
  - intros r Hr. apply row_has_content_false. intros c.
    rewrite Hrest by lia. rewrite pasted_cell by assumption.
    destruct (Z.eqb_spec r R); [lia|]. cbn [andb].
    destruct (Z.ltb_spec r R); [lia|].
    assert (row_has_content d (r - 1) = false) as Hnone
      by (apply lastRow_above; unfold R in Hr; lia).
    rewrite row_has_content_false in Hnone. apply Hnone.
Qed.

End Resubmission.

Import Resubmission.

(** X19.  The same range copied twice with a digest: the first copy writes
    the row and its digest after the last row of the destination; the
    second copy, given a callback, finds that digest, writes the row again
    on the next row and calls the callback on it, before it releases the
    lock. *)
Theorem second_copy_of_a_row_calls_the_duplicate_callback
    (range : Range) (sheet : SheetId) (callback : Range -> M unit) (useLock : bool)
    (w : World) :
  faults w = None -> lock w <> HeldByOther ->
  getSheet range <> sheet -> getNumRows range = 1 -> 1 <= getNumColumns range ->
  1 <= maxRows (sheets w sheet) ->
  let src := sheets w (getSheet range) in
  let R := lastRow (sheets w sheet) + 1 in
  let n := getNumColumns range in
  let first := copyToFirstEmptyRow range sheet true None useLock true w in
  let second :=
    copyToFirstEmptyRow range sheet true (Some callback) useLock true (snd first) in
  let destination := mkRange sheet (R + 1) 1 1 (n + 1) in
  fst first = Ok (mkRange sheet R 1 1 (n + 1))
  /\ exists w3,
       (forall c, 1 <= c <= n ->
          value (cellAt (sheets w3 sheet) (R + 1) c)
          = value (cellAt src (getRow range) (getColumn range + c - 1)))
       /\ value (cellAt (sheets w3 sheet) (R + 1) (n + 1))
          = value (cellAt (sheets w3 sheet) R (n + 1))
       /\ lock w3 = (if useLock then HeldByUs else lock w)
       /\ second = (callback destination ;; when useLock releaseLock ;; ret destination) w3.
Proof.
  intros Hf Hl Hne Hnr Hn Hrows src R n first second destination.
  destruct (Paste.copy_append_runs range sheet true useLock w Hf Hl Hn Hrows)
    as (w' & Hrun & Hd & Hother & Hlock' & Hf' & _).
  cbv zeta in Hrun, Hd. fold R in Hrun, Hd. fold n in Hrun, Hd.
  assert ((getSheet range =? sheet)%string = false) as E by (apply String.eqb_neq; exact Hne).
  rewrite E in Hd. fold src in Hd.
  set (d := sheets w sheet) in *.
  pose proof (lastRow_bounds d) as [HL0 HL1].
  assert (1 <= R <= maxRows d + 1) as HR by (unfold R; lia).
  pose proof (Resubmission.lastRow_signed src d range sheet Hnr Hn Hrows) as HLd'.
  cbv zeta in HLd'. fold R in HLd'. fold n in HLd'. rewrite <- Hd in HLd'.
  destruct (RoundTrip.signed_pasted_digest src d range sheet R Hnr HR Hn) as [Hdg Hrest].
  cbv zeta in Hdg, Hrest. fold n in Hdg, Hrest. rewrite <- Hd in Hdg, Hrest.
  unfold runs in Hrun. subst second first. rewrite Hrun. cbn [fst snd].
  split; [reflexivity|].
  assert (lock w' <> HeldByOther) as Hl'.
  { rewrite Hlock'. destruct useLock; [discriminate|exact Hl]. }
  assert (1 <= maxRows (sheets w' sheet)) as Hrows'.
  { rewrite Hd. unfold signed, pasted. cbn [maxRows write_block insert_row]. lia. }
  destruct (Callbacks.copy_with_callback range sheet callback useLock w' Hf' Hl' Hne Hnr Hn
              Hrows') as (w3 & Hp3 & _ & Hlock3 & _ & Hres).
  cbv zeta in Hp3, Hres.
  rewrite (Hother (getSheet range) Hne) in Hp3, Hres. fold src in Hp3, Hres.
  rewrite HLd' in Hp3, Hres. fold n in Hp3, Hres.
  set (dg := digest_of_values (first_row src range) 1 Utilities.SHA_1) in *.
  assert (1 <= R + 1 <= maxRows (sheets w' sheet) + 1) as HR'.
  { pose proof (lastRow_bounds (sheets w' sheet)) as [_ Hb]. rewrite HLd' in Hb. lia. }
  destruct (RoundTrip.signed_pasted_digest src (sheets w' sheet) range sheet (R + 1)
              Hnr HR' Hn) as [Hdg3 Hrest3].
  cbv zeta in Hdg3, Hrest3. fold n in Hdg3, Hrest3. fold dg in Hdg3.
  rewrite <- Hp3 in Hdg3, Hrest3.
  exists w3. split; [|split; [|split]].
  - intros c Hc. rewrite Hrest3 by lia. rewrite Paste.pasted_cell by assumption.
    rewrite Z.eqb_refl.
    destruct (Z.leb_spec 1 c); [|lia].
    destruct (Z.leb_spec c (getNumColumns range)); [|unfold n in Hc; lia]. reflexivity.
  - rewrite Hdg3. rewrite Hrest3 by lia. rewrite Paste.pasted_cell by assumption.
    destruct (Z.eqb_spec R (R + 1)); [lia|]. cbn [andb].
    destruct (Z.ltb_spec R (R + 1)); [|lia]. rewrite Hdg. reflexivity.
  - rewrite Hlock3, Hlock'. destruct useLock; reflexivity.
  - rewrite Hres.
    replace (existsb (fun r => value_eqb (VStr dg) (value (cellAt (sheets w' sheet) r (n + 1))))
                     (seqZ 1 R)) with true; [reflexivity|].
    symmetry. apply existsb_seqZ_true. exists R. split; [lia|].
    rewrite Hdg. apply Cells.value_eqb_str. reflexivity.
Qed.

Lemma second_copy_of_form_row_4 :
  faults two_sheets = None /\ lock two_sheets <> HeldByOther
  /\ getSheet (form_row 4) <> "Responses" /\ getNumRows (form_row 4) = 1
  /\ 1 <= getNumColumns (form_row 4) /\ 1 <= maxRows (sheets two_sheets "Responses")
  /\ exists w3,
       copyToFirstEmptyRow (form_row 4) "Responses" true (Some mark_duplicate) true true
         (snd (copyToFirstEmptyRow (form_row 4) "Responses" true None true true two_sheets))
       = (mark_duplicate (mkRange "Responses" 4 1 1 4) ;;
          when true releaseLock ;;
          ret (mkRange "Responses" 4 1 1 4)) w3.
Proof.
  assert (faults two_sheets = None) as Hf by reflexivity.
  assert (lock two_sheets <> HeldByOther) as Hl by discriminate.
  assert (getSheet (form_row 4) <> "Responses") as Hne by discriminate.
  assert (getNumRows (form_row 4) = 1) as H1 by reflexivity.
  assert (1 <= getNumColumns (form_row 4)) as H2 by (cbn; lia).
  assert (1 <= maxRows (sheets two_sheets "Responses")) as H3 by (vm_compute; discriminate).
  repeat (split; [assumption|]).
  destruct (second_copy_of_a_row_calls_the_duplicate_callback (form_row 4) "Responses"
              mark_duplicate true two_sheets Hf Hl Hne H1 H2 H3)
    as (_ & w3 & _ & _ & _ & Hsecond).
  exists w3.
  replace (lastRow (sheets two_sheets "Responses") + 1 + 1) with 4 in Hsecond
    by (vm_compute; reflexivity).
  exact Hsecond.
Defined.

(* ===================================================================== *)
(** ** A copy that scans for a gap *)
(* ===================================================================== *)

Module ScanCopy.

(** A sheet with content has a grid. *)
Lemma grid_of_content (s : Sheet) :
  1 <= lastRow s -> 1 <= maxColumns s /\ 1 <= maxRows s.
Proof.
  intros HL. pose proof (lastRow_has_content s HL) as Hc.
  apply row_has_content_true in Hc. destruct Hc as [c0 Hc0].
  unfold cellAt in Hc0. destruct (in_grid s (lastRow s) c0) eqn:G; [|discriminate].
  unfold in_grid in G. apply andb_true_iff in G. destruct G as [G G4].
  apply andb_true_iff in G. destruct G as [G G3].
  apply andb_true_iff in G. destruct G as [G1 G2].
  apply Z.leb_le in G1, G2, G3, G4. lia.
Qed.

Lemma copy_scan_runs (range : Range) (sheet : SheetId) (digest useLock : bool)
    (w : World) :
  let d := sheets w sheet in
  let n := getNumColumns range in
  faults w = None -> lock w <> HeldByOther -> getSheet range <> sheet ->
  1 <= n -> 0 <= frozenRows d -> 1 <= lastRow d ->
  exists R w',
    1 <= R <= lastRow d + 1
    /\ (R <= lastRow d -> row_has_content d R = false)
    /\ runs (copyToFirstEmptyRow range sheet digest None useLock false) w
            (mkRange sheet R 1 1 (if digest then n + 1 else n)) w'
    /\ sheets w' sheet
       = (let p := pasted (sheets w (getSheet range)) range R (insert_row R d) in
          if digest then signed p sheet R n else p)
    /\ (forall id, id <> sheet -> sheets w' id = sheets w id)
    /\ lock w' = (if useLock then Free else lock w).
Proof.
  intros d n Hf Hl Hne Hn HF HL.
  destruct (grid_of_content d HL) as [Hcols Hrows].
  pose proof (lock_step useLock w Hf Hl) as Hlock.
  set (w1 := if useLock then set_lock HeldByUs (logged (CWaitLock 300000) w) else w) in *.
  assert (faults w1 = None) as Hf1 by (unfold w1; destruct useLock; exact Hf).
  assert (sheets w1 = sheets w) as Hs1 by (unfold w1; destruct useLock; reflexivity).
  assert (lock w1 = if useLock then HeldByUs else lock w) as Hl1
    by (unfold w1; destruct useLock; reflexivity).
  destruct (getFirstEmptyRow_scan_runs sheet 1 w1)
    as (start & R & w1' & Hres & Hsame & Hstart & _ & _ & HR & _ & Hstop);
    try (rewrite Hs1; fold d; assumption); try lia; try exact Hf1.
  rewrite Hs1 in Hres, Hstart, HR, Hstop. fold d in Hres, Hstart, HR, Hstop.
  destruct Hsame as (Hs1' & Hl1' & Hf1' & _).
  set (w2 := set_sheet sheet (insert_row R d)
               (logged (reserve_call sheet R (lastRow d)) w1')) in *.
  assert (faults w2 = None) as Hf2 by (unfold w2; cbn [faults set_sheet logged]; congruence).
  destruct (paste_step range sheet digest false w1 w2 R Hres Hf2 ltac:(lia) Hn)
    as (w3 & Hp3 & Ho3 & Hl3 & Hf3 & _ & Heq).
  assert (sheets w2 sheet = insert_row R d) as Hw2s
    by (unfold w2; apply sheets_set_sheet_same).
  assert (sheets w2 (getSheet range) = sheets w (getSheet range)) as Hw2r.
  { unfold w2. rewrite sheets_set_sheet_other by exact Hne.
    cbn [sheets logged]. rewrite Hs1', Hs1. reflexivity. }
  rewrite Hw2s, Hw2r in Hp3. fold n in Hp3.
  pose proof (unlock_step useLock w3 Hf3) as Hun.
  assert (useLock = true -> lock w3 = HeldByUs) as Hheld.
  { intros ->. rewrite Hl3. unfold w2. cbn [lock set_sheet logged]. rewrite Hl1'. exact Hl1. }
  specialize (Hun Hheld).
  exists R, (if useLock then set_lock Free (logged CReleaseLock w3) else w3).
  split; [lia|]. split; [exact Hstop|]. split.
  { unfold runs, copyToFirstEmptyRow.
    rewrite (bind_ok _ _ _ _ _ Hlock). rewrite bind_ret_l.
    fold n. rewrite Heq. cbn [when]. rewrite bind_ret_l.
    rewrite (bind_ok _ _ _ _ _ Hun). reflexivity. }
  split.
  { cbv zeta. destruct useLock; cbn [sheets set_lock logged]; exact Hp3. }
  split.
  { intros id Hid.
    assert (sheets w3 id = sheets w id) as E.
    { rewrite (Ho3 id Hid). unfold w2. rewrite sheets_set_sheet_other by exact Hid.
      cbn [sheets logged]. rewrite Hs1', Hs1. reflexivity. }
    destruct useLock; cbn [sheets set_lock logged]; exact E. }
  destruct useLock; cbn [lock set_lock logged]; [reflexivity|].
  rewrite Hl3. unfold w2. cbn [lock set_sheet logged]. rewrite Hl1'. exact Hl1.
Qed.

End ScanCopy.

Import ScanCopy.

(** X20.  A copy with [ignoreCheckboxes] off, of a range of one row from
    another sheet into a sheet that has content: the row is written on a
    row inserted for it, at the row after the last one or at the place of a
    row without content; whatever the destination held is still there, the
    rows above in place and the others one row down, the row without
    content among them: the gap is moved down, not filled. *)
Theorem copyToFirstEmptyRow_scan_mode_inserts_above_the_gap
    (range : Range) (sheet : SheetId) (useLock : bool) (w : World) :
  faults w = None -> lock w <> HeldByOther ->
  getSheet range <> sheet -> getNumRows range = 1 -> 1 <= getNumColumns range ->
  0 <= frozenRows (sheets w sheet) -> 1 <= lastRow (sheets w sheet) ->
  let d := sheets w sheet in
  let src := sheets w (getSheet range) in
  let n := getNumColumns range in
  let res := copyToFirstEmptyRow range sheet false None useLock false w in
  let d' := sheets (snd res) sheet in
  exists R,
    1 <= R <= lastRow d + 1
    /\ (R <= lastRow d -> row_has_content d R = false)
    /\ fst res = Ok (mkRange sheet R 1 1 n)
    /\ (forall c, 1 <= c <= n ->
          value (cellAt d' R c) = value (cellAt src (getRow range) (getColumn range + c - 1)))
    /\ (forall r c, r < R -> cellAt d' r c = cellAt d r c)
    /\ (forall r c, R < r -> cellAt d' r c = cellAt d (r - 1) c)
    /\ maxRows d' = maxRows d + 1.
Proof.
  intros Hf Hl Hne Hnr Hn HF HL d src n res d'.
  destruct (ScanCopy.copy_scan_runs range sheet false useLock w Hf Hl Hne Hn HF HL)
    as (R & w' & HR & Hgap & Hrun & Hd & _).
  cbv zeta in Hrun, Hd, HR, Hgap. fold d in Hrun, Hd, HR, Hgap. fold n in Hrun.
  fold src in Hd. fold d in HL.
  pose proof (lastRow_bounds d) as [HL0 HL1].
  assert (1 <= R <= maxRows d + 1) as HR' by lia.
  exists R. subst d' res. unfold runs in Hrun. rewrite Hrun. cbn [fst snd]. rewrite Hd.
  split; [exact HR|]. split; [exact Hgap|]. split; [reflexivity|].
  split; [|split; [|split]].
  - intros c Hc. rewrite Paste.pasted_cell by assumption. rewrite Z.eqb_refl.
    destruct (Z.leb_spec 1 c); [|lia].
    destruct (Z.leb_spec c (getNumColumns range)); [|unfold n in Hc; lia]. reflexivity.
  - intros r c Hr. rewrite Paste.pasted_cell by assumption.
    destruct (Z.eqb_spec r R); [lia|]. cbn [andb].
    destruct (Z.ltb_spec r R); [reflexivity|lia].
  - intros r c Hr. rewrite Paste.pasted_cell by assumption.
    destruct (Z.eqb_spec r R); [lia|]. cbn [andb].
    destruct (Z.ltb_spec r R); [lia|reflexivity].
  - unfold pasted. cbn [maxRows write_block insert_row]. rewrite Hnr. lia.
Qed.

Lemma copy_in_scan_mode_of_form_row_2 :
  faults two_sheets = None /\ lock two_sheets <> HeldByOther
  /\ getSheet (form_row 2) <> "Responses" /\ getNumRows (form_row 2) = 1
  /\ 1 <= getNumColumns (form_row 2)
  /\ 0 <= frozenRows (sheets two_sheets "Responses")
  /\ 1 <= lastRow (sheets two_sheets "Responses")
  /\ exists R,
       fst (copyToFirstEmptyRow (form_row 2) "Responses" false None true false two_sheets)
       = Ok (mkRange "Responses" R 1 1 3).
Proof.
  assert (faults two_sheets = None) as Hf by reflexivity.
  assert (lock two_sheets <> HeldByOther) as Hl by discriminate.
  assert (getSheet (form_row 2) <> "Responses") as Hne by discriminate.
  assert (getNumRows (form_row 2) = 1) as H1 by reflexivity.
  assert (1 <= getNumColumns (form_row 2)) as H2 by (cbn; lia).
  assert (0 <= frozenRows (sheets two_sheets "Responses")) as H3 by (vm_compute; discriminate).
  assert (1 <= lastRow (sheets two_sheets "Responses")) as H4 by (vm_compute; discriminate).
  repeat (split; [assumption|]).
  destruct (copyToFirstEmptyRow_scan_mode_inserts_above_the_gap (form_row 2) "Responses"
              true two_sheets Hf Hl Hne H1 H2 H3 H4) as (R & _ & _ & Hres & _).
  exists R. exact Hres.
Defined.

(* ===================================================================== *)
(** ** A move within one sheet *)
(* ===================================================================== *)

Module MoveWithin.

Lemma move_within_runs (range : Range) (useLock : bool) (w : World) :
  let sheet := getSheet range in
  let d := sheets w sheet in
  let R := lastRow d + 1 in
  let n := getNumColumns range in
  let p := pasted (insert_row R d) range R (insert_row R d) in
  faults w = None -> lock w <> HeldByOther ->
  getNumRows range = 1 -> 1 <= n -> 1 <= getRow range <= lastRow d ->
  exists w',
    runs (moveToFirstEmptyRow range sheet false None useLock true) w
         (mkRange sheet R 1 1 n) w'
    /\ sheets w' sheet = delete_row (getRow range) p
    /\ lock w' = (if useLock then Free else lock w).
Proof.
  intros sheet d R n p Hf Hl Hnr Hn Hrow.
  pose proof (lastRow_bounds d) as [HL0 HL1].
  assert (1 <= maxRows d) as Hrows by lia.
  pose proof (lock_step useLock w Hf Hl) as Hlock.
  set (w1 := if useLock then set_lock HeldByUs (logged (CWaitLock 300000) w) else w) in *.
  assert (faults w1 = None) as Hf1 by (unfold w1; destruct useLock; exact Hf).
  assert (sheets w1 = sheets w) as Hs1 by (unfold w1; destruct useLock; reflexivity).
  assert (lock w1 = if useLock then HeldByUs else lock w) as Hl1
    by (unfold w1; destruct useLock; reflexivity).
  assert (lock w1 <> HeldByOther) as Hl1'.
  { rewrite Hl1. destruct useLock; [discriminate|exact Hl]. }
  destruct (copy_append_runs range sheet false false w1 Hf1 Hl1' Hn)
    as (w2 & Hcopy & Hp2 & _ & Hl2 & Hf2 & _).
  { rewrite Hs1. exact Hrows. }
  cbv zeta in Hcopy, Hp2. rewrite Hs1 in Hcopy, Hp2.
  fold sheet in Hcopy, Hp2. rewrite String.eqb_refl in Hp2.
  fold d in Hcopy, Hp2. fold R in Hcopy, Hp2. fold n in Hcopy. fold p in Hp2.
  pose proof (deleteRow_runs sheet (getRow range) w2 Hf2) as Hdel.
  rewrite Hp2 in Hdel.
  assert (maxRows p = maxRows d + 1) as Hmax.
  { unfold p, pasted. cbn [maxRows write_block insert_row]. rewrite Hnr. unfold R. lia. }
  specialize (Hdel ltac:(lia)).
  set (w3 := set_sheet sheet (delete_row (getRow range) p)
               (logged (CDeleteRow sheet (getRow range)) w2)) in *.
  assert (faults w3 = None) as Hf3 by exact Hf2.
  pose proof (unlock_step useLock w3 Hf3) as Hun.
  assert (useLock = true -> lock w3 = HeldByUs) as Hheld.
  { intros ->. unfold w3. cbn [lock set_sheet logged]. rewrite Hl2. exact Hl1. }
  specialize (Hun Hheld).
  exists (if useLock then set_lock Free (logged CReleaseLock w3) else w3).
  split.
  { unfold runs, moveToFirstEmptyRow. fold sheet.
    rewrite (bind_ok _ _ _ _ _ Hlock). rewrite (bind_ok _ _ _ _ _ Hcopy).
    rewrite (bind_ok _ _ _ _ _ Hdel). rewrite (bind_ok _ _ _ _ _ Hun). reflexivity. }
  split.
  { assert (sheets w3 sheet = delete_row (getRow range) p) as E3
      by (unfold w3; apply sheets_set_sheet_same).
    destruct useLock; cbn [sheets set_lock logged]; exact E3. }
  destruct useLock; cbn [lock set_lock logged]; [reflexivity|].
  unfold w3. cbn [lock set_sheet logged]. rewrite Hl2. exact Hl1.
Qed.

End MoveWithin.

Import MoveWithin.

(** X21.  A move of a row of a sheet to the same sheet, with the default
    placement: the row is written after the last row with content and the
    original is deleted, so the rows that were below it move up and the row
    ends up on the last row with content, the sheet keeping its number of
    rows.  The range returned is the row below it, where the copy was
    written before the deletion: a row without content. *)
Theorem moveToFirstEmptyRow_within_a_sheet_returns_the_row_below
    (range : Range) (useLock : bool) (w : World) :
  faults w = None -> lock w <> HeldByOther ->
  getNumRows range = 1 -> 1 <= getNumColumns range ->
  1 <= getRow range <= lastRow (sheets w (getSheet range)) ->
  let sheet := getSheet range in
  let d := sheets w sheet in
  let L := lastRow d in
  let n := getNumColumns range in
  let res := moveToFirstEmptyRow range sheet false None useLock true w in
  let d' := sheets (snd res) sheet in
  fst res = Ok (mkRange sheet (L + 1) 1 1 n)
  /\ (forall c, 1 <= c <= n ->
        value (cellAt d' L c) = value (cellAt d (getRow range) (getColumn range + c - 1)))
  /\ (forall r c, r < getRow range -> cellAt d' r c = cellAt d r c)
  /\ (forall r c, getRow range <= r < L -> cellAt d' r c = cellAt d (r + 1) c)
  /\ (forall c, has_content (cellAt d' (L + 1) c) = false)
  /\ maxRows d' = maxRows d.
Proof.
  intros Hf Hl Hnr Hn Hrow sheet d L n res d'.
  destruct (MoveWithin.move_within_runs range useLock w Hf Hl Hnr Hn Hrow)
    as (w' & Hrun & Hd & _).
  cbv zeta in Hrun, Hd. fold sheet in Hrun, Hd, Hrow. fold d in Hrun, Hd, Hrow.
  fold L in Hrun, Hd, Hrow. fold n in Hrun.
  pose proof (lastRow_bounds d) as [HL0 HL1]. fold L in HL0, HL1.
  assert (1 <= L + 1 <= maxRows d + 1) as HR by lia.
  set (p := pasted (insert_row (L + 1) d) range (L + 1) (insert_row (L + 1) d)) in *.
  assert (maxRows p = maxRows d + 1) as Hmax.
  { unfold p, pasted. cbn [maxRows write_block insert_row]. rewrite Hnr. lia. }
  assert (1 <= getRow range <= maxRows p) as Hvalid by lia.
  assert (forall r c, cellAt p r c
            = if (r =? L + 1) && (1 <=? c) && (c <=? getNumColumns range)
              then mkCell (value (cellAt (insert_row (L + 1) d) (getRow range)
                                         (getColumn range + c - 1))) None
              else if r <? L + 1 then cellAt d r c
                   else if r =? L + 1 then blankCell
                        else cellAt d (r - 1) c) as Hcell.
  { intros r c. unfold p. apply Paste.pasted_cell; assumption. }
  subst d' res. unfold runs in Hrun. rewrite Hrun. cbn [fst snd]. rewrite Hd.
  split; [reflexivity|]. split; [|split; [|split; [|split]]].
  - intros c Hc. rewrite cellAt_delete_row by exact Hvalid.
    destruct (Z.ltb_spec L (getRow range)); [lia|].
    rewrite Hcell. rewrite Z.eqb_refl.
    destruct (Z.leb_spec 1 c); [|lia].
    destruct (Z.leb_spec c (getNumColumns range)); [|unfold n in Hc; lia].
    cbn [andb value]. rewrite cellAt_insert_row by lia.
    destruct (Z.ltb_spec (getRow range) (L + 1)); [reflexivity|lia].
  - intros r c Hr. rewrite cellAt_delete_row by exact Hvalid.
    destruct (Z.ltb_spec r (getRow range)); [|lia].
    rewrite Hcell.
    destruct (Z.eqb_spec r (L + 1)); [lia|]. cbn [andb].
    destruct (Z.ltb_spec r (L + 1)); [reflexivity|lia].
  - intros r c Hr. rewrite cellAt_delete_row by exact Hvalid.
    destruct (Z.ltb_spec r (getRow range)); [lia|].
    rewrite Hcell.
    destruct (Z.eqb_spec (r + 1) (L + 1)); [lia|]. cbn [andb].
    destruct (Z.ltb_spec (r + 1) (L + 1)); [reflexivity|lia].
  - intros c. rewrite cellAt_delete_row by exact Hvalid.
    destruct (Z.ltb_spec (L + 1) (getRow range)); [lia|].
    rewrite Hcell.
    destruct (Z.eqb_spec (L + 1 + 1) (L + 1)); [lia|]. cbn [andb].
    destruct (Z.ltb_spec (L + 1 + 1) (L + 1)); [lia|].
    replace (L + 1 + 1 - 1) with (L + 1) by lia.
    assert (row_has_content d (L + 1) = false) as Hnone by (apply lastRow_above; lia).
    rewrite row_has_content_false in Hnone. apply Hnone.
  - cbn [maxRows delete_row]. lia.
Qed.

Lemma move_of_form_row_2_within_the_form_sheet :
  faults two_sheets = None /\ lock two_sheets <> HeldByOther
  /\ getNumRows (form_row 2) = 1 /\ 1 <= getNumColumns (form_row 2)
  /\ 1 <= getRow (form_row 2) <= lastRow (sheets two_sheets (getSheet (form_row 2)))
  /\ fst (moveToFirstEmptyRow (form_row 2) "Form" false None true true two_sheets)
     = Ok (mkRange "Form" (lastRow (sheets two_sheets "Form") + 1) 1 1 3)
  /\ maxRows (sheets (snd (moveToFirstEmptyRow (form_row 2) "Form" false None true true
                                               two_sheets)) "Form")
     = maxRows (sheets two_sheets "Form").
Proof.
  assert (faults two_sheets = None) as Hf by reflexivity.
  assert (lock two_sheets <> HeldByOther) as Hl by discriminate.
  assert (getNumRows (form_row 2) = 1) as H1 by reflexivity.
  assert (1 <= getNumColumns (form_row 2)) as H2 by (cbn; lia).
  assert (1 <= getRow (form_row 2) <= lastRow (sheets two_sheets (getSheet (form_row 2))))
    as H3 by (vm_compute; split; discriminate).
  repeat (split; [assumption|]).
  destruct (moveToFirstEmptyRow_within_a_sheet_returns_the_row_below (form_row 2) true
              two_sheets Hf Hl H1 H2 H3) as (Ha & _ & _ & _ & _ & Hb).
  split; [exact Ha|exact Hb].
Defined.

(* ===================================================================== *)
(** ** The sheets a call has nothing to do with *)
(* ===================================================================== *)

Module OtherSheets.

Section Keeps.
Variables (id : SheetId) (s : Sheet).
Local Abbreviation Keep := (fun w : World => sheets w id = s).

Lemma releaseLock_keeps_sheet : inv Keep releaseLock.
Proof.
  unfold releaseLock. apply inv_bind; [apply sheet_call|intros _].
  apply inv_bind_gets. intros l.
  destruct l; first [apply inv_ret | apply inv_modify; intros w H; exact H].
Qed.

Lemma deleteRow_keeps_sheet sheet k : id <> sheet -> inv Keep (deleteRow sheet k).
Proof.
  intros Hne. unfold deleteRow. apply inv_bind_gets. intros ok.
  destruct ok; [|apply inv_throw].
  apply inv_bind; [apply sheet_call|intros _]. apply sheet_write. exact Hne.
Qed.

Lemma copy_keeps range sheet digest cb useLock ic :
  id <> sheet -> callback_keeps_sheet id cb ->
  inv Keep (copyToFirstEmptyRow range sheet digest cb useLock ic).
Proof.
  intros Hne Hcb. destruct useLock; [|apply copy_keeps_sheet; assumption].
  intros w Hw. rewrite copy_with_lock. revert w Hw.
  change (inv Keep (waitLock 300000 ;;
                    destination <- copyToFirstEmptyRow range sheet digest cb false ic ;;
                    releaseLock ;; ret destination)).
  apply inv_bind; [apply waitLock_keeps_sheet|intros _].
  apply inv_bind; [apply copy_keeps_sheet; assumption|intros destination].
  apply inv_bind; [apply releaseLock_keeps_sheet|intros _]. apply inv_ret.
Qed.

Lemma move_keeps range sheet digest cb useLock ic :
  id <> sheet -> id <> getSheet range -> callback_keeps_sheet id cb ->
  inv Keep (moveToFirstEmptyRow range sheet digest cb useLock ic).
Proof.
  intros Hne Hsrc Hcb. unfold moveToFirstEmptyRow.
  apply inv_bind.
  { destruct useLock; unfold when; [apply waitLock_keeps_sheet|apply inv_ret]. }
  intros _. apply inv_bind; [apply copy_keeps_sheet; assumption|intros destination].
  apply inv_bind; [apply deleteRow_keeps_sheet; exact Hsrc|intros _].
  apply inv_bind; [|intros _; apply inv_ret].
  destruct useLock; unfold when; [apply releaseLock_keeps_sheet|apply inv_ret].
Qed.

Lemma getRange_keeps sheet r c nr nc : inv Keep (getRange sheet r c nr nc).
Proof. unfold getRange. destruct (_ && _); [apply inv_ret|apply inv_throw]. Qed.

Lemma getValues_keeps rg : inv Keep (getValues rg).
Proof. unfold getValues. apply inv_bind; [apply sheet_call|intros _]. apply inv_gets. Qed.

Lemma getRangesInUse_for_keeps sheet F C (n : nat) :
  forall i acc, inv Keep (getRangesInUse_for n sheet F C i acc).
Proof.
  induction n as [|n IH]; intros i acc; cbn [getRangesInUse_for]; [apply inv_ret|].
  cbv zeta. apply inv_bind; [apply getRange_keeps|intros range].
  apply inv_bind; [apply getValues_keeps|intros vals].
  destruct vals; [apply inv_throw|apply IH].
Qed.

Lemma getRangesInUse_keeps sheet excludeFrozen :
  inv Keep (getRangesInUse sheet excludeFrozen).
Proof.
  unfold getRangesInUse. apply inv_bind.
  { destruct excludeFrozen; [|apply inv_ret].
    unfold getFrozenRows. apply inv_bind; [apply sheet_call|intros _]. apply inv_gets. }
  intros F. apply inv_bind.
  { unfold getLastRow. apply inv_bind; [apply sheet_call|intros _]. apply inv_gets. }
  intros L. apply inv_bind.
  { unfold getLastColumn. apply inv_bind; [apply sheet_call|intros _]. apply inv_gets. }
  intros C. apply getRangesInUse_for_keeps.
Qed.

Lemma forEach_keeps {A} (f : A -> M unit) (l : list A) :
  (forall x, In x l -> inv Keep (f x)) -> inv Keep (forEach f l).
Proof.
  induction l as [|x l IH]; intros H; cbn [forEach]; [apply inv_ret|].
  apply inv_bind; [apply H; left; reflexivity|intros _].
  apply IH. intros y Hy. apply H. right. exact Hy.
Qed.

End Keeps.

(** The ranges of [getRangesInUse] are ranges of its sheet. *)
Lemma getRangesInUse_for_sheet (sheet : SheetId) (F C : Z) (n : nat) :
  forall i acc w l w',
    Forall (fun r => getSheet r = sheet) acc ->
    getRangesInUse_for n sheet F C i acc w = (Ok l, w') ->
    Forall (fun r => getSheet r = sheet) l.
Proof.
  induction n as [|n IH]; intros i acc w l w' Hacc H; cbn [getRangesInUse_for] in H.
  - unfold ret in H. injection H as <- _. exact Hacc.
  - cbv zeta in H. unfold bind at 1 in H.
    destruct (getRange sheet (i + 1 + F) 1 1 C w) as [[rg|e] w1] eqn:E1; [|discriminate].
    assert (getSheet rg = sheet) as Hrg.
    { unfold getRange in E1. destruct (_ && _); [|discriminate].
      unfold ret in E1. injection E1 as <- _. reflexivity. }
    unfold bind at 1 in H.
    destruct (getValues rg w1) as [[vals|e] w2] eqn:E2; [|discriminate].
    destruct vals as [|row0 rest]; [discriminate|].
    apply IH in H; [exact H|].
    destruct (some _ row0); [|exact Hacc].
    apply Forall_app. split; [exact Hacc|]. constructor; [exact Hrg|constructor].
Qed.

Lemma getRangesInUse_sheet (sheet : SheetId) (excludeFrozen : bool) w l w' :
  getRangesInUse sheet excludeFrozen w = (Ok l, w') ->
  Forall (fun r => getSheet r = sheet) l.
Proof.
  unfold getRangesInUse. intros H.
  unfold bind at 1 in H.
  destruct ((if excludeFrozen then getFrozenRows sheet else ret 0) w) as [[F|e] w1];
    [|discriminate].
  unfold bind at 1 in H. destruct (getLastRow sheet w1) as [[L|e] w2]; [|discriminate].
  unfold bind at 1 in H. destruct (getLastColumn sheet w2) as [[C|e] w3]; [|discriminate].
  apply (getRangesInUse_for_sheet _ _ _ _ _ _ _ _ _ (Forall_nil _) H).
Qed.

Lemma sweep_keeps (id : SheetId) (s : Sheet) (sheetFrom sheetTo : SheetId)
    (deleteFromSource : bool) :
  id <> sheetFrom -> id <> sheetTo ->
  inv (fun w => sheets w id = s) (sweep sheetFrom sheetTo deleteFromSource).
Proof.
  intros Hfrom Hto w Hw.
  assert (callback_keeps_sheet id None) as Hnone by (intros f rg s' E; discriminate E).
  pose proof (getRangesInUse_keeps id s sheetFrom true w Hw) as Hw1.
  unfold sweep. destruct deleteFromSource; unfold bind;
    destruct (getRangesInUse sheetFrom true w) as [[ranges|e] w1] eqn:E;
    cbn [snd] in Hw1; try exact Hw1;
    pose proof (getRangesInUse_sheet _ _ _ _ _ E) as Hsheets;
    rewrite Forall_forall in Hsheets.
  - apply forEach_keeps; [|exact Hw1].
    intros x Hx. apply in_rev in Hx.
    apply inv_bind; [|intros _; apply inv_ret].
    apply move_keeps; [exact Hto| |exact Hnone].
    rewrite (Hsheets x Hx). exact Hfrom.
  - apply forEach_keeps; [|exact Hw1].
    intros x Hx. apply inv_bind; [|intros _; apply inv_ret].
    apply copy_keeps; [exact Hto|exact Hnone].
Qed.

End OtherSheets.

Import OtherSheets.

(** X22.  Whatever happens in a call, errors of the host at any point
    included, a copy changes no sheet but the destination, a move no sheet
    but the destination and the sheet of the range, and a sweep no sheet but
    its two sheets; a callback is taken to leave the sheet in question
    alone. *)
Theorem no_other_sheet_is_changed
    (id : SheetId) (range : Range) (sheet sheetFrom sheetTo : SheetId)
    (digest : bool) (cb : Callback) (useLock ic deleteFromSource : bool) (w : World) :
  callback_keeps_sheet id cb ->
  (id <> sheet ->
   sheets (snd (copyToFirstEmptyRow range sheet digest cb useLock ic w)) id = sheets w id)
  /\ (id <> sheet -> id <> getSheet range ->
      sheets (snd (moveToFirstEmptyRow range sheet digest cb useLock ic w)) id = sheets w id)
  /\ (id <> sheetFrom -> id <> sheetTo ->
      sheets (snd (sweep sheetFrom sheetTo deleteFromSource w)) id = sheets w id).
Proof.
  intros Hcb. split; [|split].
  - intros Hne.
    apply (OtherSheets.copy_keeps id (sheets w id) range sheet digest cb useLock ic Hne Hcb w).
    reflexivity.
  - intros Hne Hsrc.
    apply (OtherSheets.move_keeps id (sheets w id) range sheet digest cb useLock ic
             Hne Hsrc Hcb w).
    reflexivity.
  - intros Hfrom Hto.
    apply (OtherSheets.sweep_keeps id (sheets w id) sheetFrom sheetTo deleteFromSource
             Hfrom Hto w).
    reflexivity.
Qed.

Lemma no_other_sheet_is_changed_by_a_failing_move :
  callback_keeps_sheet "Archive" (Some failing_callback)
  /\ sheets (snd (moveToFirstEmptyRow (form_row 2) "Responses" true (Some failing_callback)
                                      true true (with_faults 5 two_sheets))) "Archive"
     = sheets (with_faults 5 two_sheets) "Archive".
Proof.
  assert (callback_keeps_sheet "Archive" (Some failing_callback)) as Hcb.
  { intros f rg s E. injection E as <-. apply inv_throw. }
  split; [exact Hcb|].
  destruct (no_other_sheet_is_changed "Archive" (form_row 2) "Responses" "Form" "Responses"
              true (Some failing_callback) true true true (with_faults 5 two_sheets) Hcb)
    as (_ & Hmove & _).
  apply Hmove; discriminate.
Defined.

(* ===================================================================== *)
(** ** Ranges of several rows, and ranges cut back *)
(* ===================================================================== *)

Module Blocks.

(** The cells of a pasted block of any height. *)
Lemma pasted_block_value (src d : Sheet) (range : Range) (R i c : Z) :
  1 <= R <= maxRows d + 1 ->
  0 <= i < getNumRows range -> 1 <= c <= getNumColumns range ->
  value (cellAt (pasted src range R (insert_row R d)) (R + i) c)
  = value (cellAt src (getRow range + i) (getColumn range + c - 1)).
Proof.
  intros HR Hi Hc. unfold pasted. rewrite cellAt_write_block by lia.
  unfold in_block.
  destruct (Z.leb_spec R (R + i)); [|lia].
  destruct (Z.ltb_spec (R + i) (R + getNumRows range)); [|lia].
  destruct (Z.leb_spec 1 c); [|lia].
  destruct (Z.ltb_spec c (1 + getNumColumns range)); [|lia].
  cbn [andb value]. f_equal. f_equal; lia.
Qed.

Lemma pasted_above (src d : Sheet) (range : Range) (R r c : Z) :
  1 <= R <= maxRows d + 1 -> r < R ->
  cellAt (pasted src range R (insert_row R d)) r c = cellAt d r c.
Proof.
  intros HR Hr. unfold pasted. rewrite cellAt_write_block by lia.
  unfold in_block. destruct (Z.leb_spec R r); [lia|]. cbn [andb].
  rewrite cellAt_insert_row by lia.
  destruct (Z.ltb_spec r R); [reflexivity|lia].
Qed.

End Blocks.

Import Blocks.

(** X23.  A move of a range of several rows from another sheet, with the
    default placement: every row of the range is written to the
    destination, from the row after its last row with content on, above
    which nothing changes; the range returned is the first of these rows
    only; and the source loses the first row of the range only: the other
    rows of the range are still in the source, one row up. *)
Theorem moveToFirstEmptyRow_of_several_rows_deletes_the_first_only
    (range : Range) (sheet : SheetId) (useLock : bool) (w : World) :
  faults w = None -> lock w <> HeldByOther ->
  getSheet range <> sheet -> 1 <= getNumRows range -> 1 <= getNumColumns range ->
  1 <= maxRows (sheets w sheet) ->
  1 <= getRow range <= maxRows (sheets w (getSheet range)) ->
  let d := sheets w sheet in
  let src := sheets w (getSheet range) in
  let R := lastRow d + 1 in
  let n := getNumColumns range in
  let res := moveToFirstEmptyRow range sheet false None useLock true w in
  let d' := sheets (snd res) sheet in
  let src' := sheets (snd res) (getSheet range) in
  fst res = Ok (mkRange sheet R 1 1 n)
  /\ (forall i c, 0 <= i < getNumRows range -> 1 <= c <= n ->
        value (cellAt d' (R + i) c)
        = value (cellAt src (getRow range + i) (getColumn range + c - 1)))
  /\ (forall r c, r < R -> cellAt d' r c = cellAt d r c)
  /\ (forall r c, r < getRow range -> cellAt src' r c = cellAt src r c)
  /\ (forall r c, getRow range <= r -> cellAt src' r c = cellAt src (r + 1) c)
  /\ maxRows src' = maxRows src - 1.
Proof.
  intros Hf Hl Hne Hnr Hn Hrows Hrow d src R n res d' src'.
  destruct (MoveRow.move_append_runs range sheet false useLock w Hf Hl Hne Hn Hrows Hrow)
    as (w' & Hrun & Hd & Hs & _).
  cbv zeta in Hrun, Hd, Hs.
  fold d in Hrun, Hd, Hrows. fold R in Hrun, Hd. fold n in Hrun. fold src in Hd, Hs, Hrow.
  pose proof (lastRow_bounds d) as [HL0 HL1].
  assert (1 <= R <= maxRows d + 1) as HR by (unfold R; lia).
  subst d' src' res. unfold runs in Hrun. rewrite Hrun. cbn [fst snd]. rewrite Hd, Hs.
  split; [reflexivity|]. split; [|split; [|split; [|split]]].
  - intros i c Hi Hc. apply Blocks.pasted_block_value; assumption.
  - intros r c Hr. apply Blocks.pasted_above; assumption.
  - intros r c Hr. rewrite cellAt_delete_row by exact Hrow.
    destruct (Z.ltb_spec r (getRow range)); [reflexivity|lia].
  - intros r c Hr. rewrite cellAt_delete_row by exact Hrow.
    destruct (Z.ltb_spec r (getRow range)); [lia|reflexivity].
  - reflexivity.
Qed.

Lemma move_of_two_form_rows :
  faults two_sheets = None /\ lock two_sheets <> HeldByOther
  /\ getSheet (mkRange "Form" 4 1 2 3) <> "Responses"
  /\ 1 <= getNumRows (mkRange "Form" 4 1 2 3)
  /\ 1 <= getNumColumns (mkRange "Form" 4 1 2 3)
  /\ 1 <= maxRows (sheets two_sheets "Responses")
  /\ 1 <= getRow (mkRange "Form" 4 1 2 3)
     <= maxRows (sheets two_sheets (getSheet (mkRange "Form" 4 1 2 3)))
  /\ fst (moveToFirstEmptyRow (mkRange "Form" 4 1 2 3) "Responses" false None true true
                              two_sheets)
     = Ok (mkRange "Responses" (lastRow (sheets two_sheets "Responses") + 1) 1 1 3)
  /\ maxRows (sheets (snd (moveToFirstEmptyRow (mkRange "Form" 4 1 2 3) "Responses" false
                                               None true true two_sheets)) "Form")
     = maxRows (sheets two_sheets "Form") - 1.
Proof.
  assert (faults two_sheets = None) as Hf by reflexivity.
  assert (lock two_sheets <> HeldByOther) as Hl by discriminate.
  assert (getSheet (mkRange "Form" 4 1 2 3) <> "Responses") as Hne by discriminate.
  assert (1 <= getNumRows (mkRange "Form" 4 1 2 3)) as H1 by (cbn; lia).
  assert (1 <= getNumColumns (mkRange "Form" 4 1 2 3)) as H2 by (cbn; lia).
  assert (1 <= maxRows (sheets two_sheets "Responses")) as H3 by (vm_compute; discriminate).
  assert (1 <= getRow (mkRange "Form" 4 1 2 3)
          <= maxRows (sheets two_sheets (getSheet (mkRange "Form" 4 1 2 3))))
    as H4 by (vm_compute; split; discriminate).
  repeat (split; [assumption|]).
  destruct (moveToFirstEmptyRow_of_several_rows_deletes_the_first_only
              (mkRange "Form" 4 1 2 3) "Responses" true two_sheets Hf Hl Hne H1 H2 H3 H4)
    as (Ha & _ & _ & _ & _ & Hb).
  split; [exact Ha|exact Hb].
Defined.

(** X24.  [trimRowRange] with an amount of 1 undoes what [addDigest] does
    to a range of one row: it gives back the range without the digest
    column. *)
Theorem trimRowRange_undoes_addDigest
    (range : Range) (skip : Z) (digest : option string) (w : World) :
  faults w = None ->
  1 <= getRow range -> 1 <= getColumn range ->
  getNumRows range = 1 -> 1 <= getNumColumns range ->
  exists extended w',
    addDigest range skip digest w = (Ok extended, w')
    /\ getNumColumns extended = getNumColumns range + 1
    /\ Ranges.trimRowRange extended 1 w' = (Ok range, w').
Proof.
  intros Hf Hr Hc Hnr Hn.
  destruct (Paste.addDigest_runs range skip digest w Hf Hr Hc ltac:(lia) ltac:(lia))
    as (w1 & _ & Hrun).
  cbv zeta in Hrun. unfold runs in Hrun.
  eexists. eexists. split; [exact Hrun|]. split; [reflexivity|].
  unfold Ranges.trimRowRange. cbn [getSheet getRow getColumn getNumColumns Z.ltb Z.compare].
  match goal with
  | |- getRange ?s ?r ?c ?nr ?nc ?w' = _ =>
      pose proof (getRange_runs s r c nr nc w' Hr Hc ltac:(lia) ltac:(lia)) as Hg
  end.
  unfold runs in Hg. rewrite Hg. f_equal.
  destruct range as [sh r c nr nc]. cbn [getSheet getRow getColumn getNumRows getNumColumns] in *.
  subst nr. replace (nc + 1 - 1) with nc by lia. reflexivity.
Qed.

Lemma trimRowRange_after_addDigest_on_form_row_2 :
  faults two_sheets = None
  /\ 1 <= getRow (form_row 2) /\ 1 <= getColumn (form_row 2)
  /\ getNumRows (form_row 2) = 1 /\ 1 <= getNumColumns (form_row 2)
  /\ exists extended w',
       addDigest (form_row 2) 1 None two_sheets = (Ok extended, w')
       /\ Ranges.trimRowRange extended 1 w' = (Ok (form_row 2), w').
Proof.
  assert (faults two_sheets = None) as Hf by reflexivity.
  assert (1 <= getRow (form_row 2)) as H1 by (cbn; lia).
  assert (1 <= getColumn (form_row 2)) as H2 by (cbn; lia).
  assert (getNumRows (form_row 2) = 1) as H3 by reflexivity.
  assert (1 <= getNumColumns (form_row 2)) as H4 by (cbn; lia).
  repeat (split; [assumption|]).
  destruct (trimRowRange_undoes_addDigest (form_row 2) 1 None two_sheets Hf H1 H2 H3 H4)
    as (extended & w' & Ha & _ & Hb).
  exists extended, w'. split; [exact Ha|exact Hb].
Defined.
